(** * lemppy: the LEMP + WordPress installer (src/main.py)

    A shallow embedding of the installer's step pipeline, its dry-run
    switch, the atomic configuration writer and the full cleanup routine,
    with the operating system (file system, child processes, network,
    clock) as an explicit world that the code reads and mutates.

    Conventions of the embedding:
    - a Python function that performs effects becomes a computation in the
      monad [M]: it threads the world, the module-level [state] dict and
      the output trace, and may raise a Python exception;
    - the configuration dict [cfg] is a finite map from keys to values, so
      that a missing key raises [KeyError] exactly where the source
      subscripts it;
    - everything the process does to the outside is recorded in the trace:
      lines written by the logger, child processes spawned, file-system
      primitives attempted, network requests; the trace also records when
      control enters one of the eight step functions or [cleanup_full].
      Failures of the outside world (a non-zero exit status, an I/O
      error) are chosen by the environment [Env], over which every
      theorem quantifies;
    - log texts keep the constant part of the source's f-strings; the
      structured keyword arguments and the slices such as [cmd[:120]] are
      not reproduced, and durations are not measured. *)

From Stdlib Require Import ZArith Lia Ascii.
From stdpp Require Import base strings list gmap pretty.

Local Open Scope string_scope.
Local Open Scope list_scope.

(** ** Python values and the configuration dict *)

Inductive Val :=
| VNone
| VBool (b : bool)
| VStr (s : string).

(** Truth value of a Python object in a condition. *)
Definition truthy (v : Val) : bool :=
  match v with
  | VNone => false
  | VBool b => b
  | VStr s => negb (String.eqb s "")
  end.

(** [str(v)], as an f-string interpolates it. *)
Definition str_of (v : Val) : string :=
  match v with
  | VNone => "None"
  | VBool true => "True"
  | VBool false => "False"
  | VStr s => s
  end.

Abbreviation Dict := (gmap string Val).

(** ** Paths (pathlib.Path) *)

(** A path is the list of its components below the root. *)
Definition path := list string.

Fixpoint split_path (s cur : string) : path :=
  match s with
  | EmptyString => if String.eqb cur "" then [] else [cur]
  | String c s' =>
      if Ascii.eqb c "/"%char
      then (if String.eqb cur "" then split_path s' ""
            else cur :: split_path s' "")
      else split_path s' (cur +:+ String c "")
  end.

(** [Path(s)] *)
Definition Path (s : string) : path := split_path s "".

(** [str(p)] *)
Definition path_str (p : path) : string :=
  match p with
  | [] => "/"
  | _ => String.concat "" (map (fun c => "/" +:+ c) p)
  end.

(** [p.parent], [p.name], [p / c], [p.with_name(n)] *)
Definition parent (p : path) : path := removelast p.
Definition name (p : path) : string := List.last p "".
Definition child (p : path) (c : string) : path := p ++ [c].
Definition with_name (p : path) (n : string) : path := parent p ++ [n].

Fixpoint is_prefix (p q : path) : bool :=
  match p, q with
  | [], _ => true
  | a :: p', b :: q' => String.eqb a b && is_prefix p' q'
  | _ :: _, [] => false
  end.

Fixpoint path_eqb (p q : path) : bool :=
  match p, q with
  | [], [] => true
  | a :: p', b :: q' => String.eqb a b && path_eqb p' q'
  | _, _ => false
  end.

(** ** The file system *)

Inductive node :=
| File (data : string) (mode : N)
| Dir.

Definition FS := path -> option node.

Definition fs_set (f : FS) (p : path) (n : option node) : FS :=
  fun q => if path_eqb q p then n else f q.

(** Mode of a file created by [open(p, "w")]: 0o644 (umask 022). *)
Definition new_file_mode : N := 420.

(** The primitives of the file system that the installer calls itself. *)
Inductive FsOp :=
| MkdirP (p : path)                    (* Path.mkdir(parents=True, exist_ok=True) *)
| Mkdir (p : path)                     (* Path.mkdir() *)
| Mkdtemp (p : path)                   (* tempfile.mkdtemp *)
| OpenW (p : path)                     (* open(p, "w") *)
| WriteData (p : path) (data : string) (* f.write(data) and close *)
| Chmod (p : path) (mode : N)          (* os.chmod *)
| Replace (src dst : path)             (* os.replace *)
| Move (src dst : path)                (* shutil.move *)
| Rmtree (p : path)                    (* shutil.rmtree *)
| Unlink (p : path).                   (* Path.unlink *)

(** What a primitive does to the file system when it succeeds. *)
Definition apply_fs (op : FsOp) (f : FS) : FS :=
  match op with
  | MkdirP p =>
      fun q => if is_prefix q p
               then match f q with None => Some Dir | Some n => Some n end
               else f q
  | Mkdir p | Mkdtemp p => fs_set f p (Some Dir)
  | OpenW p =>
      match f p with
      | Some (File _ m) => fs_set f p (Some (File "" m))
      | _ => fs_set f p (Some (File "" new_file_mode))
      end
  | WriteData p d =>
      match f p with
      | Some (File old m) => fs_set f p (Some (File (old +:+ d) m))
      | _ => fs_set f p (Some (File d new_file_mode))
      end
  | Chmod p m =>
      match f p with
      | Some (File d _) => fs_set f p (Some (File d m))
      | _ => f
      end
  | Replace src dst => fs_set (fs_set f dst (f src)) src None
  | Move src dst =>
      fun q => if is_prefix dst q then f (src ++ drop (length dst) q)
               else if is_prefix src q then None
               else f q
  | Rmtree p => fun q => if is_prefix p q then None else f q
  | Unlink p => fs_set f p None
  end.

(** A write that fails with an I/O error may leave the first [n]
    characters behind. *)
Definition apply_fs_failed (op : FsOp) (n : nat) (f : FS) : FS :=
  match op with
  | WriteData p d => apply_fs (WriteData p (String.substring 0 n d)) f
  | _ => f
  end.

(** ** The world outside the process *)

(** [ext] stands for everything but the file system: installed packages,
    services, the MySQL server, the network, the clock. *)
Record World (E : Type) := mkWorld { fs : FS; ext : E }.
Arguments mkWorld {E}.
Arguments fs {E}.
Arguments ext {E}.

Inductive cmdline :=
| Shell (cmd : string)          (* subprocess.run(cmd, shell=True) *)
| Argv (args : list string).    (* subprocess.run([...]) *)

Inductive SpawnResult :=
| Exited (rc : Z) (out err : string)
| SpawnFailed.                  (* the program could not be started *)

(** Library calls whose effect on the world is left to the environment. *)
Inductive LibOp :=
| UrlRetrieve (url : string) (dst : path)        (* urllib.request.urlretrieve *)
| ExtractAll (is_zip : bool) (archive dst : path) (* ZipFile/tarfile extractall *)
| CopyInto (src dst : path).                     (* the copytree/copy2 loop *)

Record Offer := mkOffer { current : option string; download : option string }.

(** The environment: how the outside world answers.  Theorems hold for
    every environment. *)
Class Env := {
  Ext : Type;
  (** a child process runs to completion and may change the world *)
  os_spawn : cmdline -> World Ext -> World Ext * SpawnResult;
  (** does this file-system primitive fail with an I/O error now? *)
  io_fault : FsOp -> World Ext -> bool;
  (** characters that a failing write leaves behind *)
  short_write : World Ext -> nat;
  (** library calls: the new world, and whether the call succeeded *)
  os_lib : LibOp -> World Ext -> World Ext * bool;
  (** [datetime.utcnow().strftime("%Y%m%d%H%M%S")] *)
  utcnow : World Ext -> string;
  (** the directory that [tempfile.mkdtemp(prefix)] picks *)
  mkdtemp_name : string -> World Ext -> path;
  (** the offers of the WordPress version API; [None] when the request
      or the JSON decoding raises *)
  wp_version_api : World Ext -> option (list Offer);
  (** the WordPress salt API; [None] when the request raises *)
  wp_salts_api : World Ext -> option string;
  (** the line that [input()] reads *)
  stdin_line : World Ext -> string;
  (** [os.geteuid()] *)
  geteuid : World Ext -> Z;
  (** [str.replace], [str.strip], [str.lower], [re.sub], [re.search(...).group(1)], [re.findall] *)
  str_replace : string -> string -> string -> string;
  str_strip : string -> string;
  str_lower : string -> string;
  re_sub : string -> string -> string -> string;
  re_search1 : string -> string -> option string;
  re_findall : string -> string -> list string
}.

(** ** Exceptions *)

Inductive Exn :=
| CalledProcessError (rc : Z) (out err : string)
| OSError (what : string)
| RuntimeError (msg : string)
| KeyError (key : string)
| TypeError
| SystemExit (code : Z).

(** [except Exception] catches everything but [SystemExit]. *)
Definition is_Exception (e : Exn) : bool :=
  match e with SystemExit _ => false | _ => true end.

Definition is_CalledProcessError (e : Exn) : bool :=
  match e with CalledProcessError _ _ _ => true | _ => false end.

Definition exn_str (e : Exn) : string :=
  match e with
  | CalledProcessError _ _ _ => "Command returned non-zero exit status"
  | OSError what => what
  | RuntimeError msg => msg
  | KeyError key => key
  | TypeError => "TypeError"
  | SystemExit _ => "SystemExit"
  end.

(** ** The module-level [state] dict *)

Record State := mkState {
  created_paths : list string;
  created_db : bool;
  db_name : Val;
  db_user : Val;
  nginx_conf_path : Val;
  web_root : Val;
  tmp_dirs : list string;
  executing : bool;
  overwrite : Val;
  last_cfg : option Dict      (* the key is absent until main stores it *)
}.

Definition state0 : State :=
  {| created_paths := []; created_db := false; db_name := VNone;
     db_user := VNone; nginx_conf_path := VNone; web_root := VNone;
     tmp_dirs := []; executing := false; overwrite := VBool false;
     last_cfg := None |}.

(** Assignments to the entries of [state]. *)
Definition set_created_paths (v : list string) (t : State) : State :=
  mkState v (created_db t) (db_name t) (db_user t) (nginx_conf_path t)
          (web_root t) (tmp_dirs t) (executing t) (overwrite t) (last_cfg t).
Definition set_created_db (v : bool) (t : State) : State :=
  mkState (created_paths t) v (db_name t) (db_user t) (nginx_conf_path t)
          (web_root t) (tmp_dirs t) (executing t) (overwrite t) (last_cfg t).
Definition set_db_name (v : Val) (t : State) : State :=
  mkState (created_paths t) (created_db t) v (db_user t) (nginx_conf_path t)
          (web_root t) (tmp_dirs t) (executing t) (overwrite t) (last_cfg t).
Definition set_db_user (v : Val) (t : State) : State :=
  mkState (created_paths t) (created_db t) (db_name t) v (nginx_conf_path t)
          (web_root t) (tmp_dirs t) (executing t) (overwrite t) (last_cfg t).
Definition set_nginx_conf_path (v : Val) (t : State) : State :=
  mkState (created_paths t) (created_db t) (db_name t) (db_user t) v
          (web_root t) (tmp_dirs t) (executing t) (overwrite t) (last_cfg t).
Definition set_web_root (v : Val) (t : State) : State :=
  mkState (created_paths t) (created_db t) (db_name t) (db_user t)
          (nginx_conf_path t) v (tmp_dirs t) (executing t) (overwrite t)
          (last_cfg t).
Definition set_tmp_dirs (v : list string) (t : State) : State :=
  mkState (created_paths t) (created_db t) (db_name t) (db_user t)
          (nginx_conf_path t) (web_root t) v (executing t) (overwrite t)
          (last_cfg t).
Definition set_executing (v : bool) (t : State) : State :=
  mkState (created_paths t) (created_db t) (db_name t) (db_user t)
          (nginx_conf_path t) (web_root t) (tmp_dirs t) v (overwrite t)
          (last_cfg t).
Definition set_overwrite (v : Val) (t : State) : State :=
  mkState (created_paths t) (created_db t) (db_name t) (db_user t)
          (nginx_conf_path t) (web_root t) (tmp_dirs t) (executing t) v
          (last_cfg t).
Definition set_last_cfg (v : option Dict) (t : State) : State :=
  mkState (created_paths t) (created_db t) (db_name t) (db_user t)
          (nginx_conf_path t) (web_root t) (tmp_dirs t) (executing t)
          (overwrite t) v.

(** ** The trace of a run *)

Inductive Level := DEBUG | INFO | SUCCESS | WARNING | ERROR | DRYRUN | STDOUT.

(** The routines whose entry is recorded in the trace. *)
Inductive Routine :=
| R_step_update_system | R_step_install_nginx | R_step_install_mysql
| R_step_install_php | R_step_create_database
| R_step_download_and_install_wp | R_step_configure_nginx
| R_step_install_ssl | R_cleanup_full.

Inductive Event :=
| Out (lvl : Level) (msg : string)   (* a line on standard output *)
| Spawn (c : cmdline)                (* a child process *)
| Fs (op : FsOp)                     (* a file-system primitive *)
| Lib (op : LibOp)                   (* a download, extraction or copy *)
| Net (url : string)                 (* an HTTP GET *)
| Enter (r : Routine).               (* control enters a routine *)

(** The events that can change something outside the process. *)
Definition is_mutation (e : Event) : bool :=
  match e with
  | Spawn _ | Fs _ | Lib _ => true
  | _ => false
  end.

Definition mutations (t : list Event) : list Event := List.filter is_mutation t.

(** [subprocess.CompletedProcess] *)
Record CompletedProcess := mkCP {
  args : cmdline; returncode : Z; stdout : string; stderr : string
}.

Definition nonempty (s : string) : bool := negb (String.eqb s "").

(** [s.endswith(suf)] *)
Definition ends_with (s suf : string) : bool :=
  (String.length suf <=? String.length s)%nat &&
  String.eqb (String.substring (String.length s - String.length suf)
                               (String.length suf) s) suf.

(** [len(data)] in a message *)
Definition len_str (s : string) : string := pretty (String.length s).

Definition nl : string := String (ascii_of_nat 10) "".

(** ** The monad of the installer *)

Section Monad.
Context `{Env}.

(** The state of a run: the world, the [state] dict, the trace so far. *)
Record Sys := mkSys { world : World Ext; st : State; trace : list Event }.

Definition emit (e : Event) (s : Sys) : Sys :=
  mkSys (world s) (st s) (trace s ++ [e]).
Definition set_world (w : World Ext) (s : Sys) : Sys :=
  mkSys w (st s) (trace s).
Definition set_fs (f : FS) (s : Sys) : Sys :=
  set_world (mkWorld f (ext (world s))) s.
Definition set_st (f : State -> State) (s : Sys) : Sys :=
  mkSys (world s) (f (st s)) (trace s).

(** A computation returns a value or raises; the state survives a raise,
    as the cleanup needs it. *)
Definition M (A : Type) : Type := Sys -> Sys * (A + Exn).

Definition ret {A} (a : A) : M A := fun s => (s, inl a).

Definition bind {A B} (m : M A) (k : A -> M B) : M B :=
  fun s => match m s with
           | (s', inl a) => k a s'
           | (s', inr e) => (s', inr e)
           end.

Definition raise {A} (e : Exn) : M A := fun s => (s, inr e).

(** [try: body  except <catches> as e: h e] *)
Definition try_except {A} (body : M A) (catches : Exn -> bool) (h : Exn -> M A) : M A :=
  fun s => match body s with
           | (s', inl a) => (s', inl a)
           | (s', inr e) => if catches e then h e s' else (s', inr e)
           end.

(** [try: body  finally: fin] *)
Definition finally {A} (body : M A) (fin : M unit) : M A :=
  fun s => match body s with
           | (s', r) =>
               match fin s' with
               | (s'', inl _) => (s'', r)
               | (s'', inr e) => (s'', inr e)
               end
           end.

End Monad.

Declare Scope py_scope.
Delimit Scope py_scope with py.
Notation "x ← y ; z" := (bind y (fun x => z))
  (at level 20, y at level 100, z at level 200, only parsing) : py_scope.
Notation "x ;; z" := (bind x (fun _ => z))
  (at level 100, z at level 200, only parsing, right associativity) : py_scope.
Local Open Scope py_scope.

Section Installer.
Context `{Env}.

Definition gets {A} (f : Sys -> A) : M A := fun s => (s, inl (f s)).
Definition modify_state (f : State -> State) : M unit :=
  fun s => (set_st f s, inl tt).

(** [for x in l: body x] *)
Fixpoint for_each {A} (l : list A) (body : A -> M unit) : M unit :=
  match l with
  | [] => ret tt
  | x :: l' => body x ;; for_each l' body
  end.

Definition when (b : bool) (m : M unit) : M unit := if b then m else ret tt.

(** ** Logging *)

Definition out (lvl : Level) (msg : string) : M unit :=
  fun s => (emit (Out lvl msg) s, inl tt).

Definition enter (r : Routine) : M unit :=
  fun s => (emit (Enter r) s, inl tt).

Definition debug (msg : string) : M unit := out DEBUG msg.
Definition info (msg : string) : M unit := out INFO msg.
Definition success (msg : string) : M unit := out SUCCESS msg.
Definition warning (msg : string) : M unit := out WARNING msg.
Definition error (msg : string) : M unit := out ERROR msg.
Definition print (msg : string) : M unit := out STDOUT msg.

Definition dry_run_print (desc cmd : string) : M unit :=
  out DRYRUN desc ;;
  when (nonempty cmd) (print ("  Command: " +:+ cmd)).

(** ** Primitives of the operating system *)

(** A file-system primitive: recorded, then it fails or takes effect. *)
Definition fs_op (op : FsOp) : M unit :=
  fun s =>
    let s1 := emit (Fs op) s in
    let w := world s in
    if io_fault op w
    then (set_fs (apply_fs_failed op (short_write w) (fs w)) s1,
          inr (OSError "I/O error"))
    else (set_fs (apply_fs op (fs w)) s1, inl tt).

Definition lib_op (op : LibOp) : M unit :=
  fun s =>
    let s1 := emit (Lib op) s in
    match os_lib op (world s) with
    | (w', true) => (set_world w' s1, inl tt)
    | (w', false) => (set_world w' s1, inr (OSError "library call failed"))
    end.

(** [subprocess.run(c, check=check, capture_output=capture, text=True)]:
    without capture the streams are [None], here the empty string. *)
Definition subprocess_run (c : cmdline) (check capture : bool) : M CompletedProcess :=
  fun s =>
    let s1 := emit (Spawn c) s in
    match os_spawn c (world s) with
    | (w', Exited rc o e) =>
        let o' := if capture then o else "" in
        let e' := if capture then e else "" in
        if check && negb (rc =? 0)%Z
        then (set_world w' s1, inr (CalledProcessError rc o' e'))
        else (set_world w' s1, inl (mkCP c rc o' e'))
    | (w', SpawnFailed) => (set_world w' s1, inr (OSError "cannot execute"))
    end.

Definition path_exists (p : path) : M bool :=
  gets (fun s => match fs (world s) p with Some _ => true | None => false end).

Definition is_dir (p : path) : M bool :=
  gets (fun s => match fs (world s) p with Some Dir => true | _ => false end).

(** [with open(p, "r") as f: f.read()] *)
Definition read_text (p : path) : M string :=
  fun s => match fs (world s) p with
           | Some (File d _) => (s, inl d)
           | _ => (s, inr (OSError "cannot read"))
           end.

(** [urllib.request.urlopen(url)]: the request is recorded; the reply is
    read from the environment by the caller. *)
Definition urlopen (url : string) : M unit :=
  fun s => (emit (Net url) s, inl tt).

(** [tempfile.mkdtemp(prefix=prefix)] *)
Definition mkdtemp (prefix : string) : M path :=
  p ← gets (fun s => mkdtemp_name prefix (world s));
  fs_op (Mkdtemp p) ;;
  ret p.

(** [cfg[k]] *)
Definition cfg_get (cfg : Dict) (k : string) : M Val :=
  match cfg !! k with
  | Some v => ret v
  | None => raise (KeyError k)
  end.

(** [Path(v)] *)
Definition as_path (v : Val) : M path :=
  match v with
  | VStr s => ret (Path s)
  | _ => raise TypeError
  end.

(** The argument [dry_run=cfg["dry_run"]] of a call. *)
Definition cfg_dry_run (cfg : Dict) : M bool :=
  v ← cfg_get cfg "dry_run"; ret (truthy v).

(** ** Utility functions *)

(** [run_cmd(cmd, capture_output, check, shell=True, dry_run)] *)
Definition run_cmd (cmd : string) (capture_output check dry_run : bool) : M CompletedProcess :=
  debug "run_cmd called" ;;
  ex ← gets (fun s => executing (st s));
  if dry_run && negb ex then
    dry_run_print "Would run command" cmd ;;
    ret (mkCP (Shell cmd) 0 "" "")
  else
    info ("Executing command: " +:+ cmd) ;;
    try_except
      (result ← subprocess_run (Shell cmd) check capture_output;
       debug "Command completed" ;;
       when (nonempty (stdout result) && negb capture_output)
            (debug ("Command stdout: " +:+ stdout result)) ;;
       when (nonempty (stderr result))
            (warning ("Command stderr: " +:+ stderr result)) ;;
       ret result)
      is_CalledProcessError
      (fun e =>
         error "Command failed" ;;
         match e with
         | CalledProcessError _ o e' =>
             when (nonempty o) (error ("Failed command stdout: " +:+ o)) ;;
             when (nonempty e') (error ("Failed command stderr: " +:+ e'))
         | _ => ret tt
         end ;;
         raise e).

(** [sys.exit(code)] *)
Definition sys_exit {A} (code : Z) : M A := raise (SystemExit code).

Definition ensure_root (dry_run : bool) : M unit :=
  debug "Checking root privileges" ;;
  if dry_run then warning "Dry-run mode: not enforcing root privileges"
  else
    uid ← gets (fun s => geteuid (world s));
    if negb (uid =? 0)%Z then
      error "This script must be run as root (use sudo). Exiting." ;;
      sys_exit 1
    else info "Root privileges confirmed".

Definition timestamp : M string := gets (fun s => utcnow (world s)).

(** The temporary file that [atomic_write] uses for [p] at time [ts]. *)
Definition tmp_name (p : path) (ts : string) : path :=
  child (parent p) (".tmp." +:+ name p +:+ "." +:+ ts).

(** [atomic_write(path, data, mode, dry_run)] *)
Definition atomic_write (p : path) (data : string) (mode : N) (dry_run : bool) : M unit :=
  debug "atomic_write called" ;;
  ex ← gets (fun s => executing (st s));
  if dry_run && negb ex then
    dry_run_print ("Would write file " +:+ path_str p +:+ " (" +:+ len_str data +:+ " bytes)") ""
  else
    ts ← timestamp;
    let tmp := tmp_name p ts in
    debug "Creating temporary file" ;;
    fs_op (MkdirP (parent tmp)) ;;
    fs_op (OpenW tmp) ;;
    fs_op (WriteData tmp data) ;;
    fs_op (Chmod tmp mode) ;;
    fs_op (Replace tmp p) ;;
    info ("Wrote " +:+ path_str p +:+ " (" +:+ len_str data +:+ " bytes)") ;;
    debug "File write complete".

(** [max] of a list of strings, as [sorted(l)[-1]] picks it. *)
Definition str_max (l : list string) : string :=
  fold_right (fun a b => if String.leb a b then b else a) "" l.

(** [detect_php_version(dry_run)] *)
Definition detect_php_version (dry_run : bool) : M string :=
  debug "Detecting PHP version" ;;
  r1 ← try_except
         (debug "Attempting to detect PHP via php binary" ;;
          o ← subprocess_run
                (* the source quotes the dot with double quotes *)
                (Argv ["php"; "-r"; "echo PHP_MAJOR_VERSION.'.'.PHP_MINOR_VERSION;"])
                true true;
          let ver := str_strip (stdout o) in
          info ("Detected PHP version via php binary: " +:+ ver) ;;
          ret (Some ver))
         is_Exception
         (fun e => debug "PHP binary detection failed" ;; ret None);
  match r1 with
  | Some ver => ret ver
  | None =>
  r2 ← try_except
         (debug "Attempting to detect PHP via apt-cache policy" ;;
          o ← subprocess_run (Argv ["apt-cache"; "policy"; "php-fpm"]) true true;
          match re_search1 "Candidate:.*php(\d+\.\d+)" (stdout o) with
          | Some ver =>
              info ("Detected PHP version via apt-cache: " +:+ ver) ;;
              ret (Some ver)
          | None => ret None
          end)
         is_Exception
         (fun e => debug "apt-cache policy detection failed" ;; ret None);
  match r2 with
  | Some ver => ret ver
  | None =>
  r3 ← try_except
         (debug "Attempting to detect PHP via apt-cache search" ;;
          o ← subprocess_run
                (Argv ["apt-cache"; "search"; "--names-only"; "^php[0-9]+\.[0-9]+-fpm$"])
                true true;
          match re_findall "php(\d+\.\d+)-fpm" (stdout o) with
          | [] => ret None
          | versions =>
              let ver := str_max versions in
              info ("Using latest available php-fpm in apt cache: " +:+ ver) ;;
              debug "Available PHP versions found" ;;
              ret (Some ver)
          end)
         is_Exception
         (fun e => debug "apt-cache search detection failed" ;; ret None);
  match r3 with
  | Some ver => ret ver
  | None => warning "Falling back to PHP 8.1" ;; ret "8.1"
  end end end.

(** [fetch_latest_wordpress_download_url()]: the version and the URL. *)
Definition fetch_latest_wordpress_download_url : M (string * string) :=
  let api := "https://api.wordpress.org/core/version-check/1.7/" in
  debug "Fetching WordPress version info" ;;
  info "Querying WordPress version API..." ;;
  urlopen api ;;
  reply ← gets (fun s => wp_version_api (world s));
  found ← match reply with
          | Some (offer :: _) =>
              debug "WordPress API response received" ;;
              let version := default "latest" (current offer) in
              match download offer with
              | Some url =>
                  if nonempty url then
                    info ("Latest WordPress version: " +:+ version) ;;
                    debug "WordPress download URL" ;;
                    ret (Some (version, url))
                  else ret None
              | None => ret None
              end
          | Some [] => debug "WordPress API response received" ;; ret None
          | None =>
              warning "Failed to get WP version via API" ;;
              debug "WordPress API error details" ;;
              ret None
          end;
  match found with
  | Some r => ret r
  | None =>
      warning "Falling back to wordpress.org/latest.tar.gz" ;;
      ret ("latest", "https://wordpress.org/latest.tar.gz")
  end.

(** [download_and_extract_wp(download_url, dest, dry_run)].  The download,
    the extraction and the copy loop are calls into the environment. *)
Definition download_and_extract_wp (download_url : string) (dest : path) (dry_run : bool) : M unit :=
  debug "download_and_extract_wp called" ;;
  tmpdir ← mkdtemp "wpdl_";
  modify_state (fun t => set_tmp_dirs (tmp_dirs t ++ [path_str tmpdir]) t) ;;
  let is_zip := ends_with download_url ".zip" in
  let archive_ext := if is_zip then ".zip" else ".tar.gz" in
  let archive_path := child tmpdir ("wp" +:+ archive_ext) in
  debug "Created temporary directory" ;;
  ex ← gets (fun s => executing (st s));
  if dry_run && negb ex then
    dry_run_print ("Would download WordPress from " +:+ download_url +:+ " to "
                   +:+ path_str archive_path) ""
  else
    info ("Downloading WordPress from " +:+ download_url +:+ " ...") ;;
    try_except
      (lib_op (UrlRetrieve download_url archive_path) ;;
       info "Download complete")
      is_Exception
      (fun e =>
         error "Failed to download WordPress archive" ;;
         raise (RuntimeError ("Failed to download WordPress archive: " +:+ exn_str e))) ;;
    let extracted := child tmpdir "extracted" in
    fs_op (Mkdir extracted) ;;
    debug "Extracting archive" ;;
    try_except
      (lib_op (ExtractAll is_zip archive_path extracted) ;;
       info "Extraction complete")
      is_Exception
      (fun e =>
         error "Failed to extract WordPress archive" ;;
         raise (RuntimeError ("Failed to extract WordPress archive: " +:+ exn_str e))) ;;
    info ("Copying WordPress files to " +:+ path_str dest +:+ " ...") ;;
    fs_op (MkdirP dest) ;;
    lib_op (CopyInto extracted dest) ;;
    info "WordPress files copied" ;;
    success "WordPress downloaded and extracted".

(** [mysql_exec(sql, dry_run=dry_run)] *)
Definition mysql_exec (sql : string) (dry_run : bool) : M unit :=
  debug "mysql_exec called" ;;
  ex ← gets (fun s => executing (st s));
  if dry_run && negb ex then
    dry_run_print "Would run MySQL statement" ("sudo mysql -u root -e " +:+ sql +:+ "...")
  else
    let cmd := Argv ["sudo"; "mysql"; "-u"; "root"; "-e"; sql] in
    info ("Executing MySQL: " +:+ str_strip sql +:+ "...") ;;
    try_except
      (result ← subprocess_run cmd true true;
       debug "MySQL command completed" ;;
       when (nonempty (stdout result)) (debug ("MySQL stdout: " +:+ stdout result)))
      is_CalledProcessError
      (fun e => error "MySQL command failed" ;; raise e).

(** [backup_path(path)] *)
Definition backup_path (p : path) : M (option path) :=
  debug "backup_path called" ;;
  e ← path_exists p;
  if negb e then ret None
  else
    ts ← timestamp;
    let bak := with_name p (name p +:+ ".bak-" +:+ ts) in
    fs_op (Move p bak) ;;
    info ("Backed up " +:+ path_str p +:+ " -> " +:+ path_str bak) ;;
    ret (Some bak).

(** [remove_path(path, dry_run)] *)
Definition remove_path (p : path) (dry_run : bool) : M unit :=
  debug "remove_path called" ;;
  e ← path_exists p;
  if negb e then debug "Path does not exist, skipping removal"
  else
    ex ← gets (fun s => executing (st s));
    if dry_run && negb ex then dry_run_print "Would remove" (path_str p)
    else
      d ← is_dir p;
      if d then
        fs_op (Rmtree p) ;;
        info ("Removed directory " +:+ path_str p)
      else
        fs_op (Unlink p) ;;
        info ("Removed file " +:+ path_str p).

(** ** Step functions *)

Definition rule : string := "==================================================".

(** [show_plan(cfg)] *)
Definition show_plan (cfg : Dict) : M unit :=
  debug "show_plan called" ;;
  php ← path_exists (Path "/usr/bin/php");
  let php_source := if php then "installed" else "APT" in
  print (nl +:+ rule) ;;
  info "LEMP + WordPress installation plan" ;;
  print rule ;;
  dr ← cfg_get cfg "dry_run";
  print ("Mode: " +:+ (if truthy dr then "DRY-RUN (no changes)" else "EXECUTE")) ;;
  v ← cfg_get cfg "domain"; print ("Domain: " +:+ str_of v) ;;
  v ← cfg_get cfg "email"; print ("Email: " +:+ str_of v) ;;
  v ← cfg_get cfg "certbot"; print ("Install SSL (certbot): " +:+ str_of v) ;;
  v ← cfg_get cfg "web_root"; print ("Web root: " +:+ str_of v) ;;
  v ← cfg_get cfg "nginx_conf"; print ("Nginx config: " +:+ str_of v) ;;
  print "MySQL root: Socket authentication (passwordless via sudo)" ;;
  v ← cfg_get cfg "db_name"; print ("DB name: " +:+ str_of v) ;;
  v ← cfg_get cfg "db_user"; print ("DB user: " +:+ str_of v) ;;
  v ← cfg_get cfg "php_version";
  print ("PHP version (detected): " +:+ str_of v +:+ " (" +:+ php_source +:+ ")") ;;
  v ← cfg_get cfg "overwrite"; print ("Overwrite enabled: " +:+ str_of v) ;;
  print (rule +:+ nl).

Definition step_update_system (cfg : Dict) : M unit :=
  enter R_step_update_system ;;
  info "Step 1: Updating system packages" ;;
  debug "Starting system package update" ;;
  dr ← cfg_dry_run cfg;
  run_cmd "apt update && apt upgrade -y" false true dr ;;
  success "System packages updated".

Definition step_install_nginx (cfg : Dict) : M unit :=
  enter R_step_install_nginx ;;
  info "Step 2: Install and start Nginx" ;;
  debug "Installing Nginx package" ;;
  dr ← cfg_dry_run cfg;
  run_cmd "apt install -y nginx" false true dr ;;
  debug "Enabling Nginx service" ;;
  dr ← cfg_dry_run cfg;
  run_cmd "systemctl enable nginx" false true dr ;;
  debug "Starting Nginx service" ;;
  dr ← cfg_dry_run cfg;
  run_cmd "systemctl start nginx" false true dr ;;
  success "Nginx installed and started".

Definition step_install_mysql (cfg : Dict) : M unit :=
  enter R_step_install_mysql ;;
  info "Step 3: Install MySQL server and secure it" ;;
  debug "Installing MySQL server package" ;;
  dr ← cfg_dry_run cfg;
  run_cmd "apt install -y mysql-server" false true dr ;;
  dr ← cfg_dry_run cfg;
  if dr then
    dry_run_print "Would secure MySQL (ensure socket authentication for root and remove anonymous users / test db)" ""
  else
    debug "Securing MySQL installation" ;;
    try_except
      (debug "Configuring MySQL root for socket authentication (passwordless local access)" ;;
       subprocess_run
         (Argv ["sudo"; "mysql"; "-e";
                "ALTER USER 'root'@'localhost' IDENTIFIED WITH auth_socket;"])
         false true ;;
       info "MySQL root configured for socket authentication (passwordless with sudo)")
      is_Exception
      (fun e => warning ("Failed to configure socket authentication: " +:+ exn_str e)) ;;
    try_except
      (debug "Removing anonymous MySQL users" ;;
       dr ← cfg_dry_run cfg;
       mysql_exec "DELETE FROM mysql.user WHERE User='';" dr ;;
       debug "Removing remote root access - ensuring root can only connect from localhost via socket" ;;
       dr ← cfg_dry_run cfg;
       mysql_exec "DELETE FROM mysql.user WHERE User='root' AND Host NOT IN ('localhost');" dr ;;
       debug "Dropping test database" ;;
       dr ← cfg_dry_run cfg;
       mysql_exec "DROP DATABASE IF EXISTS test;" dr ;;
       debug "Removing test database privileges" ;;
       dr ← cfg_dry_run cfg;
       mysql_exec "DELETE FROM mysql.db WHERE Db='test' OR Db LIKE 'test\_%';" dr ;;
       debug "Flushing MySQL privileges" ;;
       dr ← cfg_dry_run cfg;
       mysql_exec "FLUSH PRIVILEGES;" dr ;;
       success "MySQL secured with socket authentication (root login only via sudo, no remote access)")
      is_CalledProcessError
      (fun e =>
         error "MySQL secure commands failed" ;;
         raise (RuntimeError ("MySQL secure commands failed: " +:+ exn_str e))).

Definition step_install_php (cfg : Dict) : M unit :=
  enter R_step_install_php ;;
  info "Step 4: Install PHP and extensions" ;;
  v ← cfg_get cfg "php_version";
  debug ("Installing PHP " +:+ str_of v +:+ " and extensions") ;;
  let pkgs := "php-fpm php-mysql php-curl php-gd php-mbstring php-xml php-xmlrpc php-soap php-intl php-zip" in
  dr ← cfg_dry_run cfg;
  run_cmd ("apt install -y " +:+ pkgs) false true dr ;;
  v ← cfg_get cfg "php_version";
  let php_ini := Path ("/etc/php/" +:+ str_of v +:+ "/fpm/php.ini") in
  debug "Configuring PHP settings" ;;
  dr ← cfg_dry_run cfg;
  (if dr then
     dry_run_print ("Would edit " +:+ path_str php_ini +:+
                    " to update upload_max_filesize/post_max_size/memory_limit/max_execution_time") ""
   else
     e ← path_exists php_ini;
     if negb e then
       warning (path_str php_ini +:+ " not found; skipping php.ini edits")
     else
       debug "Reading PHP ini file" ;;
       content ← read_text php_ini;
       let content := re_sub "upload_max_filesize\s*=\s*.*" "upload_max_filesize = 64M" content in
       let content := re_sub "post_max_size\s*=\s*.*" "post_max_size = 64M" content in
       let content := re_sub "memory_limit\s*=\s*.*" "memory_limit = 256M" content in
       let content := re_sub "max_execution_time\s*=\s*.*" "max_execution_time = 300" content in
       debug "PHP ini modifications complete" ;;
       dr ← cfg_dry_run cfg;
       atomic_write php_ini content 420 dr) ;;
  debug "Restarting PHP-FPM service" ;;
  v ← cfg_get cfg "php_version";
  dr ← cfg_dry_run cfg;
  run_cmd ("systemctl restart php" +:+ str_of v +:+ "-fpm") false true dr ;;
  success "PHP installed and configured".

Definition drop_sql (db user : Val) : string :=
  "DROP DATABASE IF EXISTS `" +:+ str_of db +:+ "`; DROP USER IF EXISTS '" +:+
  str_of user +:+ "'@'localhost'; FLUSH PRIVILEGES;".

Definition create_sql (db user passwd : Val) : string :=
  nl +:+ "CREATE DATABASE IF NOT EXISTS `" +:+ str_of db +:+
  "` DEFAULT CHARACTER SET utf8mb4 COLLATE utf8mb4_unicode_ci;" +:+ nl +:+
  "CREATE USER IF NOT EXISTS '" +:+ str_of user +:+ "'@'localhost' IDENTIFIED BY '" +:+
  str_of passwd +:+ "';" +:+ nl +:+
  "GRANT ALL PRIVILEGES ON `" +:+ str_of db +:+ "`.* TO '" +:+ str_of user +:+
  "'@'localhost';" +:+ nl +:+
  "FLUSH PRIVILEGES;" +:+ nl.

Definition step_create_database (cfg : Dict) : M unit :=
  enter R_step_create_database ;;
  info "Step 5: Create WordPress database and user" ;;
  db ← cfg_get cfg "db_name";
  user ← cfg_get cfg "db_user";
  passwd ← cfg_get cfg "db_pass";
  debug "Database creation requested" ;;
  modify_state (set_db_name db) ;;
  modify_state (set_db_user user) ;;
  ow ← cfg_get cfg "overwrite";
  when (truthy ow)
    (info "Overwrite requested: dropping existing database and user if they exist" ;;
     debug "Dropping database and user" ;;
     dr ← cfg_dry_run cfg;
     mysql_exec (drop_sql db user) dr) ;;
  debug "Creating database and user" ;;
  dr ← cfg_dry_run cfg;
  mysql_exec (create_sql db user passwd) dr ;;
  modify_state (set_created_db true) ;;
  success "Database creation step complete".

(** [str.replace(old, new)] with [new] taken from the configuration. *)
Definition as_str (v : Val) : M string :=
  match v with
  | VStr s => ret s
  | _ => raise TypeError
  end.

Definition step_download_and_install_wp (cfg : Dict) : M unit :=
  enter R_step_download_and_install_wp ;;
  info "Step 6: Download and install WordPress" ;;
  wr ← cfg_get cfg "web_root";
  webroot ← as_path wr;
  modify_state (set_web_root (VStr (path_str webroot))) ;;
  debug "WordPress installation requested" ;;
  vu ← fetch_latest_wordpress_download_url;
  let version := fst vu in
  let download_url := snd vu in
  info ("Will download WordPress version: " +:+ version +:+ " from " +:+ download_url) ;;
  e ← path_exists webroot;
  (if e then
     ow ← cfg_get cfg "overwrite";
     debug "Webroot already exists" ;;
     ow ← cfg_get cfg "overwrite";
     if truthy ow then
       info "Overwrite enabled: removing existing web root" ;;
       dr ← cfg_dry_run cfg;
       remove_path webroot dr
     else
       error "Web root already exists and overwrite not enabled" ;;
       raise (RuntimeError ("Web root " +:+ path_str webroot +:+
                            " already exists. Use --overwrite to replace."))
   else ret tt) ;;
  dr ← cfg_dry_run cfg;
  ex ← gets (fun s => executing (st s));
  (if dr && negb ex then
     dry_run_print ("Would create web root directory " +:+ path_str webroot) ""
   else
     debug "Creating web root directory" ;;
     fs_op (MkdirP webroot) ;;
     modify_state (fun t => set_created_paths (created_paths t ++ [path_str webroot]) t)) ;;
  dr ← cfg_dry_run cfg;
  download_and_extract_wp download_url webroot dr ;;
  let wp_sample := child webroot "wp-config-sample.php" in
  let wp_conf := child webroot "wp-config.php" in
  debug "Configuring WordPress" ;;
  e ← path_exists wp_sample;
  when e
    (dr ← cfg_dry_run cfg;
     ex ← gets (fun s => executing (st s));
     if dr && negb ex then
       dry_run_print ("Would create wp-config.php from " +:+ path_str wp_sample) ""
     else
       debug "Reading wp-config-sample.php" ;;
       conf ← read_text wp_sample;
       debug "Replacing database credentials in wp-config" ;;
       v ← cfg_get cfg "db_name"; v ← as_str v;
       let conf := str_replace "database_name_here" v conf in
       v ← cfg_get cfg "db_user"; v ← as_str v;
       let conf := str_replace "username_here" v conf in
       v ← cfg_get cfg "db_pass"; v ← as_str v;
       let conf := str_replace "password_here" v conf in
       conf ← try_except
                (info "Fetching WordPress salts from API..." ;;
                 urlopen "https://api.wordpress.org/secret-key/1.1/salt/" ;;
                 reply ← gets (fun s => wp_salts_api (world s));
                 match reply with
                 | Some salts =>
                     debug "WordPress salts fetched" ;;
                     ret (re_sub "(define\(\s*'AUTH_KEY'.*?define\(\s*'NONCE_SALT'.*?\);\s*)"
                                 (salts +:+ nl) conf)
                 | None => raise (OSError "salt request failed")
                 end)
                is_Exception
                (fun e =>
                   warning ("Failed to fetch salts from WP API: " +:+ exn_str e +:+
                            "; leaving sample salts (not ideal)") ;;
                   ret conf);
       dr ← cfg_dry_run cfg;
       atomic_write wp_conf conf 420 dr) ;;
  debug "Setting file ownership and permissions" ;;
  dr ← cfg_dry_run cfg;
  run_cmd ("chown -R www-data:www-data " +:+ path_str webroot) false true dr ;;
  dr ← cfg_dry_run cfg;
  run_cmd ("find " +:+ path_str webroot +:+ " -type d -exec chmod 755 {} \;") false true dr ;;
  dr ← cfg_dry_run cfg;
  run_cmd ("find " +:+ path_str webroot +:+ " -type f -exec chmod 644 {} \;") false true dr ;;
  success "WordPress files installed and permissions set".

(** The text of the generated site configuration. *)
Definition nginx_site (domain web_root php_version : string) : string :=
  String.concat nl
    [ "server {";
      "    listen 80;";
      "    listen [::]:80;";
      "    server_name " +:+ domain +:+ " www." +:+ domain +:+ ";";
      "";
      "    root " +:+ web_root +:+ ";";
      "    index index.php index.html index.htm;";
      "";
      "    # Upload size limits (matches PHP settings)";
      "    client_max_body_size 64M;";
      "";
      "    location / {";
      "        try_files $uri $uri/ /index.php?$args;";
      "    }";
      "";
      "    location ~ \.php$ {";
      "        include snippets/fastcgi-php.conf;";
      "        fastcgi_pass unix:/run/php/php" +:+ php_version +:+ "-fpm.sock;";
      "        fastcgi_param SCRIPT_FILENAME $document_root$fastcgi_script_name;";
      "        include fastcgi_params;";
      "    }";
      "";
      "    location ~ /\.ht {";
      "        deny all;";
      "    }";
      "";
      "    location = /favicon.ico {";
      "        log_not_found off;";
      "        access_log off;";
      "    }";
      "";
      "    location = /robots.txt {";
      "        allow all;";
      "        log_not_found off;";
      "        access_log off;";
      "    }";
      "";
      "    location ~* \.(css|gif|ico|jpeg|jpg|js|png)$ {";
      "        expires max;";
      "        log_not_found off;";
      "    }";
      "}";
      "" ].

Definition step_configure_nginx (cfg : Dict) : M unit :=
  enter R_step_configure_nginx ;;
  info "Step 7: Create Nginx site configuration for WordPress" ;;
  nc ← cfg_get cfg "nginx_conf";
  nginx_conf_path ← as_path nc;
  modify_state (set_nginx_conf_path (VStr (path_str nginx_conf_path))) ;;
  domain ← cfg_get cfg "domain";
  debug "Configuring Nginx" ;;
  domain ← cfg_get cfg "domain";
  wr ← cfg_get cfg "web_root";
  php ← cfg_get cfg "php_version";
  let nginx_conf := nginx_site (str_of domain) (str_of wr) (str_of php) in
  e ← path_exists nginx_conf_path;
  (if e then
     ow ← cfg_get cfg "overwrite";
     debug "Nginx config already exists" ;;
     ow ← cfg_get cfg "overwrite";
     if truthy ow then
       info "Overwrite: backing up and removing existing nginx config" ;;
       backup_path nginx_conf_path ;;
       ret tt
     else
       error "Nginx config already exists and overwrite not enabled" ;;
       raise (RuntimeError ("Nginx config " +:+ path_str nginx_conf_path +:+
                            " exists. Use --overwrite to replace."))
   else ret tt) ;;
  debug "Writing Nginx configuration" ;;
  dr ← cfg_dry_run cfg;
  atomic_write nginx_conf_path nginx_conf 420 dr ;;
  debug "Creating symlink to sites-enabled" ;;
  dr ← cfg_dry_run cfg;
  run_cmd ("ln -sf " +:+ path_str nginx_conf_path +:+ " /etc/nginx/sites-enabled/") false true dr ;;
  debug "Removing default Nginx site" ;;
  dr ← cfg_dry_run cfg;
  run_cmd "rm -f /etc/nginx/sites-enabled/default" false true dr ;;
  debug "Testing Nginx configuration" ;;
  dr ← cfg_dry_run cfg;
  run_cmd "nginx -t" false true dr ;;
  debug "Reloading Nginx" ;;
  dr ← cfg_dry_run cfg;
  run_cmd "systemctl reload nginx" false true dr ;;
  success "Nginx configured for site".

Definition certbot_cmd (domain email : Val) : string :=
  "certbot --nginx -d " +:+ str_of domain +:+ " -d www." +:+ str_of domain +:+
  " --non-interactive --agree-tos -m " +:+ str_of email +:+ " --redirect".

Definition step_install_ssl (cfg : Dict) : M unit :=
  enter R_step_install_ssl ;;
  cb ← cfg_get cfg "certbot";
  if negb (truthy cb) then info "SSL installation skipped (certbot not requested)"
  else
    info "Step 8: Install Certbot and obtain Let's Encrypt certificate" ;;
    domain ← cfg_get cfg "domain";
    debug "Installing Certbot" ;;
    dr ← cfg_dry_run cfg;
    run_cmd "apt install -y certbot python3-certbot-nginx" false true dr ;;
    dr ← cfg_dry_run cfg;
    if dr then
      domain ← cfg_get cfg "domain";
      email ← cfg_get cfg "email";
      dry_run_print "Would run certbot to obtain/renew certificates for domain"
                    (certbot_cmd domain email)
    else
      domain ← cfg_get cfg "domain";
      email ← cfg_get cfg "email";
      debug "Running Certbot for domain" ;;
      run_cmd (certbot_cmd domain email) false true false ;;
      success "SSL certificate installed".

Definition show_summary (cfg : Dict) : M unit :=
  debug "Showing installation summary" ;;
  print (nl +:+ rule) ;;
  info "Installation summary" ;;
  print rule ;;
  dr ← cfg_dry_run cfg;
  (if dr then info "DRY-RUN complete. No changes were made."
   else success "Installation steps finished (check for errors above).") ;;
  v ← cfg_get cfg "domain"; print ("Domain: " +:+ str_of v) ;;
  v ← cfg_get cfg "web_root"; print ("Web root: " +:+ str_of v) ;;
  v ← cfg_get cfg "nginx_conf"; print ("Nginx config: " +:+ str_of v) ;;
  db ← cfg_get cfg "db_name"; user ← cfg_get cfg "db_user";
  print ("Database: " +:+ str_of db +:+ " (user: " +:+ str_of user +:+ ")") ;;
  dr ← cfg_dry_run cfg;
  (if negb dr then
     cb ← cfg_get cfg "certbot";
     when (truthy cb) (v ← cfg_get cfg "domain"; print ("HTTPS: https://" +:+ str_of v))
   else ret tt) ;;
  print (rule +:+ nl).

(** ** Cleanup on failure *)

(** [cleanup_full(cfg)] *)
Definition cleanup_full (cfg : Dict) : M unit :=
  enter R_cleanup_full ;;
  warning "Running full cleanup (Option A)..." ;;
  debug "Full cleanup initiated" ;;
  (* remove web root if it was created *)
  wr ← cfg_get cfg "web_root";
  webroot ← as_path wr;
  e ← path_exists webroot;
  when e
    (debug "Removing web root during cleanup" ;;
     dr ← cfg_dry_run cfg;
     remove_path webroot dr) ;;
  (* remove nginx conf & symlink *)
  nc ← cfg_get cfg "nginx_conf";
  nginx_conf_path ← as_path nc;
  let symlink := child (Path "/etc/nginx/sites-enabled") (name nginx_conf_path) in
  e ← path_exists symlink;
  when e
    (debug "Removing Nginx symlink during cleanup" ;;
     dr ← cfg_dry_run cfg;
     remove_path symlink dr) ;;
  e ← path_exists nginx_conf_path;
  when e
    (debug "Removing Nginx config during cleanup" ;;
     dr ← cfg_dry_run cfg;
     remove_path nginx_conf_path dr) ;;
  (* drop DB and user if we created them or overwrite was requested *)
  ow ← cfg_get cfg "overwrite";
  cdb ← gets (fun s => created_db (st s));
  when (truthy ow || cdb)
    (db ← cfg_get cfg "db_name";
     user ← cfg_get cfg "db_user";
     debug "Dropping database and user during cleanup" ;;
     try_except
       (dr ← cfg_dry_run cfg;
        mysql_exec (drop_sql db user) dr)
       is_Exception
       (fun e => warning ("Failed to drop DB/user during cleanup: " +:+ exn_str e))) ;;
  (* remove tmp dirs *)
  debug "Removing temporary directories" ;;
  tds ← gets (fun s => tmp_dirs (st s));
  for_each tds (fun td =>
    try_except
      (let tdp := Path td in
       e ← path_exists tdp;
       when e (dr ← cfg_dry_run cfg; remove_path tdp dr))
      is_Exception
      (fun e => debug "Failed to remove temp dir")) ;;
  success "Cleanup complete".

(** ** Signal handler *)

(** [signal_handler(sig, frame)], installed for SIGINT and SIGTERM. *)
Definition signal_handler (sig : Z) : M unit :=
  warning ("Received signal " +:+ pretty sig +:+ ". Attempting cleanup...") ;;
  debug "Signal handler invoked" ;;
  st0 ← gets st;
  let cfg := default (∅ : Dict) (last_cfg st0) in
  try_except
    (cleanup_full cfg)
    is_Exception
    (fun e => error ("Cleanup failed during signal handling: " +:+ exn_str e)) ;;
  sys_exit 1.

(** ** Main runner *)

(** The parsed command line ([argparse]'s namespace). *)
Record Args := mkArgs {
  a_domain : string;
  a_email : option string;
  a_db_name : string;
  a_db_user : string;
  a_db_pass : string;
  a_certbot : bool;
  a_dry_run : option bool;
  a_overwrite : bool;
  a_verbose : bool
}.

(** The dict literal that [main] builds from the arguments. *)
Definition base_cfg (a : Args) (dry : bool) : Dict :=
  <["domain" := VStr (a_domain a)]>
  (<["email" := VStr (match a_email a with
                       | Some e => if nonempty e then e else "admin@" +:+ a_domain a
                       | None => "admin@" +:+ a_domain a
                       end)]>
  (<["db_name" := VStr (a_db_name a)]>
  (<["db_user" := VStr (a_db_user a)]>
  (<["db_pass" := VStr (a_db_pass a)]>
  (<["certbot" := VBool (a_certbot a)]>
  (<["dry_run" := VBool dry]>
  (<["overwrite" := VBool (a_overwrite a)]> ∅))))))).

(** The configuration once the PHP version and the paths are filled in. *)
Definition full_cfg (a : Args) (dry : bool) (php : string) : Dict :=
  <["nginx_conf" := VStr ("/etc/nginx/sites-available/" +:+ a_domain a)]>
  (<["web_root" := VStr ("/var/www/" +:+ a_domain a)]>
  (<["php_version" := VStr php]> (base_cfg a dry))).

(** The body of the [try] block: the eight steps in order. *)
Definition run_steps (cfg : Dict) : M unit :=
  step_update_system cfg ;;
  step_install_nginx cfg ;;
  step_install_mysql cfg ;;
  step_install_php cfg ;;
  step_create_database cfg ;;
  step_download_and_install_wp cfg ;;
  step_configure_nginx cfg ;;
  step_install_ssl cfg ;;
  info "All installation steps completed" ;;
  show_summary cfg.

(** The [except Exception as exc] clause. *)
Definition on_failure (cfg : Dict) (exc : Exn) : M unit :=
  error ("Installation failed: " +:+ exn_str exc) ;;
  debug "Exception details" ;;
  try_except
    (cleanup_full cfg)
    is_Exception
    (fun e => error ("Cleanup encountered errors: " +:+ exn_str e)) ;;
  sys_exit 1.

(** One turn of the loop of the [finally] clause. *)
Definition remove_tmp_dir (cfg : Dict) (td : string) : M unit :=
  try_except
    (let tdp := Path td in
     e ← path_exists tdp;
     when e
       (dr ← cfg_dry_run cfg;
        if dr then dry_run_print "Would remove temporary dir" (path_str tdp)
        else
          fs_op (Rmtree tdp) ;;
          debug "Removed temporary directory"))
    is_Exception
    (fun e => debug "Failed to remove temp dir in finally").

(** The [finally] clause. *)
Definition remove_tmp_dirs (cfg : Dict) : M unit :=
  debug "Cleaning up temporary directories" ;;
  tds ← gets (fun s => tmp_dirs (st s));
  for_each tds (remove_tmp_dir cfg).

(** The [try ... except ... finally] statement of [main]. *)
Definition install (cfg : Dict) : M unit :=
  finally
    (try_except (run_steps cfg) is_Exception (on_failure cfg))
    (remove_tmp_dirs cfg).

(** [main()], from the parsed arguments on. *)
Definition main (a : Args) : M unit :=
  debug "Application starting" ;;
  when (a_verbose a) (debug "Verbose logging enabled") ;;
  let dry := default true (a_dry_run a) in
  debug "Parsed arguments" ;;
  debug "Detecting PHP version" ;;
  php ← detect_php_version dry;
  let cfg := full_cfg a dry php in
  modify_state (set_last_cfg (Some cfg)) ;;
  modify_state (set_overwrite (VBool (a_overwrite a))) ;;
  debug "Configuration prepared" ;;
  show_plan cfg ;;
  (if negb dry then
     print "Continue with installation? (y/N) " ;;
     resp ← gets (fun s => stdin_line (world s));
     if negb (String.eqb (str_lower (str_strip resp)) "y") then
       warning "Installation cancelled by user." ;;
       sys_exit 0
     else ret tt
   else ret tt) ;;
  ensure_root dry ;;
  modify_state (set_executing (negb dry)) ;;
  ex ← gets (fun s => executing (st s));
  (if ex then info "Starting installation in EXECUTE mode"
   else info "Starting installation in DRY-RUN mode") ;;
  install cfg.

End Installer.

(** The exit status of the process for the outcome of [main]. *)
Definition exit_code (r : unit + Exn) : Z :=
  match r with
  | inl _ => 0
  | inr (SystemExit c) => c
  | inr _ => 1
  end.

(** * The vocabulary of the statements *)

(** An event that is not the entry of a routine. *)
Definition no_enter (e : Event) : Prop :=
  match e with Enter _ => False | _ => True end.

(** The routines entered along a trace, in order. *)
Definition entered (t : list Event) : list Routine :=
  omap (fun e => match e with Enter r => Some r | _ => None end) t.

Section Vocabulary.
Context `{Env}.

(** [s'] continues [s]: the trace grew by events that enter no routine. *)
Definition extends_by (s s' : Sys) : Prop :=
  exists t, trace s' = trace s ++ t /\ Forall no_enter t.

(** A computation is tame when it enters no routine and, if it raises,
    raises an [Exception] (it never leaves through [sys.exit]). *)
Definition tame {A} (m : M A) : Prop :=
  forall s, extends_by s (fst (m s)) /\
            forall e, snd (m s) = inr e -> is_Exception e = true.

(** A routine records its entry once and is tame afterwards. *)
Definition enters (r : Routine) {A} (m : M A) : Prop :=
  forall s,
    (exists t, trace (fst (m s)) = trace s ++ Enter r :: t /\ Forall no_enter t) /\
    forall e, snd (m s) = inr e -> is_Exception e = true.

(** The handler's view of the run: the two lines it logs first. *)
Definition signalled (sig : Z) (s : Sys) : Sys :=
  emit (Out DEBUG "Signal handler invoked")
       (emit (Out WARNING ("Received signal " +:+ pretty sig +:+ ". Attempting cleanup...")) s).

(** The state in which the [except] clause starts the cleanup: the state
    the failing step left, after the two lines that report the failure. *)
Definition failed_at (e : Exn) (s : Sys) : Sys :=
  emit (Out DEBUG "Exception details")
       (emit (Out ERROR ("Installation failed: " +:+ exn_str e)) s).

(** The primitives of an atomic write of [data] to [p] that starts in the
    world [w], in the order of the source. *)
Definition write_plan (p : path) (data : string) (mode : N) (w : World Ext) : list FsOp :=
  let tmp := tmp_name p (utcnow w) in
  [MkdirP (parent p); OpenW tmp; WriteData tmp data; Chmod tmp mode; Replace tmp p].

(** The file system after the first [n] primitives of a plan. *)
Definition replay (ops : list FsOp) (n : nat) (f : FS) : FS :=
  foldl (fun g op => apply_fs op g) f (take n ops).

(** Where [backup_path] moves [p] when it runs in the world [w]. *)
Definition backup_name (p : path) (w : World Ext) : path :=
  with_name p (name p +:+ ".bak-" +:+ utcnow w).

(** The steps of [main]'s [try] block, in the order of the source. *)
Definition pipeline : list (Routine * (Dict -> M unit)) :=
  [ (R_step_update_system, step_update_system);
    (R_step_install_nginx, step_install_nginx);
    (R_step_install_mysql, step_install_mysql);
    (R_step_install_php, step_install_php);
    (R_step_create_database, step_create_database);
    (R_step_download_and_install_wp, step_download_and_install_wp);
    (R_step_configure_nginx, step_configure_nginx);
    (R_step_install_ssl, step_install_ssl) ].

(** Running a list of steps one after the other. *)
Fixpoint run_all (l : list (Routine * (Dict -> M unit))) (cfg : Dict) : M unit :=
  match l with
  | [] => ret tt
  | (_, f) :: l' => bind (f cfg) (fun _ => run_all l' cfg)
  end.

Definition steps_enter (l : list (Routine * (Dict -> M unit))) : Prop :=
  Forall (fun rf => forall cfg, enters (fst rf) (snd rf cfg)) l.

(** The state in which the [finally] clause starts. *)
Definition before_finally (cfg : Dict) (s : Sys) : Sys :=
  fst (try_except (run_steps cfg) is_Exception (on_failure cfg) s).

End Vocabulary.

(** The keys that [show_summary] reads. *)
Definition summary_keys : list string :=
  ["dry_run"; "domain"; "web_root"; "nginx_conf"; "db_name"; "db_user"; "certbot"].

Definition has_keys (cfg : Dict) (keys : list string) : Prop :=
  Forall (fun k => is_Some (cfg !! k)) keys.

(** ** A concrete environment

    Used to run the installer on explicit inputs.  Child processes exit
    with the status [rc] gives them and leave the file system alone; a
    file-system primitive fails when [faulty] says so; a download, an
    extraction or a copy succeeds when [lib_ok] says so and then leaves
    its result in the file system. *)

Fixpoint fs_of_list (l : list (path * node)) : FS :=
  match l with
  | [] => fun _ => None
  | (p, n) :: l' => fs_set (fs_of_list l') p (Some n)
  end.

Definition demo_lib (op : LibOp) (f : FS) : FS :=
  match op with
  | UrlRetrieve _ dst => fs_set f dst (Some (File "archive" new_file_mode))
  | ExtractAll _ _ dst =>
      fs_set (fs_set f (child dst "wordpress") (Some Dir))
             (child (child dst "wordpress") "wp-config-sample.php")
             (Some (File "sample" new_file_mode))
  | CopyInto _ dst =>
      fs_set (fs_set f (child dst "index.php") (Some (File "index" new_file_mode)))
             (child dst "wp-config-sample.php")
             (Some (File "sample" new_file_mode))
  end.

Definition demo_env (faulty : FsOp -> bool) (lib_ok : LibOp -> bool)
    (rc : cmdline -> Z) : Env :=
  {| Ext := unit;
     os_spawn := fun c w => (w, Exited (rc c) "" "");
     io_fault := fun op _ => faulty op;
     short_write := fun _ => 3;
     os_lib := fun op w =>
       if lib_ok op then (mkWorld (demo_lib op (fs w)) tt, true) else (w, false);
     utcnow := fun _ => "20240101000000";
     mkdtemp_name := fun prefix _ => ["tmp"; prefix +:+ "k3x9"];
     wp_version_api := fun _ => None;
     wp_salts_api := fun _ => None;
     stdin_line := fun _ => "y";
     geteuid := fun _ => 0%Z;
     str_replace := fun _ _ s => s;
     str_strip := fun s => s;
     str_lower := fun s => s;
     re_sub := fun _ _ s => s;
     re_search1 := fun _ _ => None;
     re_findall := fun _ _ => [] |}.

Definition no_fault : FsOp -> bool := fun _ => false.
Definition all_ok : LibOp -> bool := fun _ => true.
Definition exit0 : cmdline -> Z := fun _ => 0%Z.

(** Environments: everything works; [os.chmod] fails; [shutil.rmtree]
    fails; the download fails; every command exits with status 2. *)
Definition env_ok : Env := demo_env no_fault all_ok exit0.

Definition env_chmod_fails : Env :=
  demo_env (fun op => match op with Chmod _ _ => true | _ => false end) all_ok exit0.

Definition env_rmtree_fails : Env :=
  demo_env (fun op => match op with Rmtree _ => true | _ => false end) all_ok exit0.

Definition env_download_fails : Env :=
  demo_env no_fault (fun op => match op with UrlRetrieve _ _ => false | _ => true end) exit0.

Definition env_exit2 : Env := demo_env no_fault all_ok (fun _ => 2%Z).

(** A host where PHP 8.1 is configured and nothing is deployed yet. *)
Definition fresh_host : World unit :=
  mkWorld (fs_of_list [ (["etc"; "php"; "8.1"; "fpm"; "php.ini"], File "memory_limit = 128M" 420);
                        (["etc"; "nginx"; "sites-available"], Dir);
                        (["var"; "www"], Dir) ]) tt.

(** The same host with a site for example.com already in place. *)
Definition used_host : World unit :=
  mkWorld (fs_of_list [ (["var"; "www"; "example.com"], Dir);
                        (["var"; "www"; "example.com"; "index.php"], File "old site" 420);
                        (["etc"; "nginx"; "sites-available"; "example.com"], File "old conf" 420);
                        (["etc"; "nginx"; "sites-available"], Dir);
                        (["var"; "www"], Dir) ]) tt.

(** example.com, with the mode and overwrite flags as arguments. *)
Definition example_args (dry : bool) (ow : bool) : Args :=
  mkArgs "example.com" None "wordpress" "wpuser" "WpPass123" false (Some dry) ow false.

Definition example_cfg (dry ow : bool) : Dict := full_cfg (example_args dry ow) dry "8.1".

(** The state of a run at the start of the pipeline. *)
Definition start (E : Env) (w : World (@Ext E)) (exec : bool) : @Sys E :=
  @mkSys E w (set_executing exec state0) [].

(** The state of the process when it starts. *)
Definition boot (E : Env) (w : World (@Ext E)) : @Sys E := @mkSys E w state0 [].

Definition site_root : path := ["var"; "www"; "example.com"].
Definition site_conf : path := ["etc"; "nginx"; "sites-available"; "example.com"].
Definition site_tmp : path := ["etc"; "nginx"; "sites-available"; ".tmp.example.com.20240101000000"].
Definition dl_tmp : path := ["tmp"; "wpdl_k3x9"].

(** A host where a file with the name of the writer's temporary file is
    already present next to the site configuration. *)
Definition host_with_leftover : World unit :=
  mkWorld (fs_set (fs used_host) site_tmp (Some (File "left over" 384))) tt.

(** The state in which the rollback of the C7 scenario starts: the site
    is deployed, the database was created and a download directory is
    recorded and present. *)
Definition deployed_host : World unit :=
  mkWorld (fs_set (fs_set (fs used_host) dl_tmp (Some Dir))
                  ["etc"; "nginx"; "sites-enabled"; "example.com"]
                  (Some (File "link" 420))) tt.

Definition deployed_state : State :=
  set_tmp_dirs ["/tmp/wpdl_k3x9"] (set_created_db true (set_executing true state0)).

(** The run of the C1 scenario: perform mode on a fresh host, where the
    download of the archive fails in step 6. *)
Definition failing_run_start : @Sys env_download_fails :=
  start env_download_fails fresh_host true.

Definition after_step5 : @Sys env_download_fails :=
  fst (@run_all env_download_fails (take 5 (@pipeline env_download_fails))
         (example_cfg false false) failing_run_start).

Definition after_step6 : @Sys env_download_fails :=
  fst (@step_download_and_install_wp env_download_fails (example_cfg false false) after_step5).

(** The file-system primitives attempted from state [s] to state [s']. *)
Definition fs_ops_since {E : Env} (s s' : @Sys E) : list Event :=
  List.filter (fun e => match e with Fs _ => true | _ => false end)
              (drop (length (trace s)) (trace s')).

Definition download_error : Exn :=
  RuntimeError "Failed to download WordPress archive: library call failed".

(** ** The vocabulary of the further properties *)

Section Frames.
Context `{Env}.

(** A computation keeps the relation [R] between the state it starts in
    and the state it leaves, from every state in which [I] holds, and
    leaves a state in which [I] holds again. *)
Definition keeps (I : Sys -> Prop) (R : Sys -> Sys -> Prop) {A} (m : M A) : Prop :=
  forall s, I s -> R s (fst (m s)) /\ I (fst (m s)).

Definition always : Sys -> Prop := fun _ => True.

(** The run is a simulation: [state["executing"]] is false. *)
Definition simulating (s : Sys) : Prop := executing (st s) = false.

(** From [s] to [s'] the run only logged or read: the world is the same
    and the trace grew by events that are no mutation. *)
Definition untouched (s s' : Sys) : Prop :=
  world s' = world s /\ exists t, trace s' = trace s ++ t /\ mutations t = [].

(** From [s] to [s'] every mutation attempted satisfies [P]. *)
Definition adds_only (P : Event -> Prop) (s s' : Sys) : Prop :=
  exists t, trace s' = trace s ++ t /\ Forall P (mutations t).

(** A relation between the [state] dicts of two states of the run. *)
Definition st_rel (Q : State -> State -> Prop) (s s' : Sys) : Prop := Q (st s) (st s').

(** The run went forward: the mode, the stored configuration and the
    overwrite flag are the same, and the two lists of created resources
    were only appended to. *)
Definition forward (t t' : State) : Prop :=
  executing t' = executing t /\ last_cfg t' = last_cfg t /\ overwrite t' = overwrite t /\
  (exists l, tmp_dirs t' = tmp_dirs t ++ l) /\
  (exists l, created_paths t' = created_paths t ++ l).

(** From [s] to [s'] nothing changed but the log. *)
Definition unchanged (s s' : Sys) : Prop := untouched s s' /\ st s' = st s.

(** The web root that [state] records is the same. *)
Definition same_web_root (t t' : State) : Prop := web_root t' = web_root t.

(** A computation that changes nothing: world and [state] are the same and
    no mutation is attempted. *)
Definition quiet {A} (m : M A) : Prop := keeps always unchanged m.

(** A computation that changes nothing outside the process while the run
    is a simulation. *)
Definition inert {A} (m : M A) : Prop := keeps simulating untouched m.

(** A computation that, while the run is a simulation, attempts only
    mutations that satisfy [P]. *)
Definition confined (P : Event -> Prop) {A} (m : M A) : Prop :=
  keeps simulating (adds_only P) m.

(** A computation that returns from every state. *)
Definition returns {A} (m : M A) : Prop := forall s, exists a, snd (m s) = inl a.

(** A computation that raises nothing but [Exception]s. *)
Definition safe {A} (m : M A) : Prop :=
  forall s e, snd (m s) = inr e -> is_Exception e = true.

(** The three probes of [detect_php_version], in the order of the source. *)
Definition php_probe : cmdline :=
  Argv ["php"; "-r"; "echo PHP_MAJOR_VERSION.'.'.PHP_MINOR_VERSION;"].
Definition apt_policy_probe : cmdline := Argv ["apt-cache"; "policy"; "php-fpm"].
Definition apt_search_probe : cmdline :=
  Argv ["apt-cache"; "search"; "--names-only"; "^php[0-9]+\.[0-9]+-fpm$"].
Definition php_probes : list cmdline := [php_probe; apt_policy_probe; apt_search_probe].

(** The child that [mysql_exec] starts for a statement. *)
Definition mysql_cmd (sql : string) : cmdline :=
  Argv ["sudo"; "mysql"; "-u"; "root"; "-e"; sql].

(** The standard output of a child that ran and exited with status 0. *)
Definition answer_of (r : SpawnResult) : option string :=
  match r with
  | Exited rc o _ => if (rc =? 0)%Z then Some o else None
  | SpawnFailed => None
  end.

(** What [subprocess.run(c, check=check, capture_output=capture)] returns
    or raises for the outcome [r] of the child. *)
Definition completed (check capture : bool) (c : cmdline) (r : SpawnResult)
    : CompletedProcess + Exn :=
  match r with
  | Exited rc o e =>
      let o' := if capture then o else "" in
      let e' := if capture then e else "" in
      if check && negb (rc =? 0)%Z
      then inr (CalledProcessError rc o' e')
      else inl (mkCP c rc o' e')
  | SpawnFailed => inr (OSError "cannot execute")
  end.

(** The mutations that a dry run can attempt: the probes of the PHP
    version, [tempfile.mkdtemp] and the move of [backup_path]. *)
Definition dry_run_mutation (e : Event) : Prop :=
  match e with
  | Spawn c => In c php_probes
  | Fs (Mkdtemp _) | Fs (Move _ _) => True
  | _ => False
  end.

(** When a computation that ends with a log line returns, that line is the
    last of the trace. *)
Definition ends_with_line (e : Event) {A} (m : M A) : Prop :=
  forall s s' a, m s = (s', inl a) -> exists t, trace s' = t ++ [e].

(** A primitive of the file system. *)
Definition is_fs_event (e : Event) : Prop :=
  match e with Fs _ => True | _ => False end.

End Frames.

(** A path that [str] and [Path] take to itself: no component is empty or
    holds a slash. *)
Fixpoint no_slash (s : string) : bool :=
  match s with
  | EmptyString => true
  | String c s' => negb (Ascii.eqb c "/"%char) && no_slash s'
  end.

Definition wf_component (c : string) : bool := nonempty c && no_slash c.

Definition wf_path (p : path) : bool := forallb wf_component p.

(** The keys that [show_plan] reads. *)
Definition plan_keys : list string :=
  ["dry_run"; "domain"; "email"; "certbot"; "web_root"; "nginx_conf";
   "db_name"; "db_user"; "php_version"; "overwrite"].

(** ** More concrete environments *)

(** A host given by the outcome of its child processes, the versions that
    the search of the package cache finds, the answer of the user, the
    user id, the primitives that fail and the reply of the version API. *)
Definition host_env (spawn : cmdline -> SpawnResult) (found : list string)
    (answer : string) (uid : Z) (faulty : FsOp -> bool)
    (api : option (list Offer)) : Env :=
  {| Ext := unit;
     os_spawn := fun c w => (w, spawn c);
     io_fault := fun op _ => faulty op;
     short_write := fun _ => 3;
     os_lib := fun op w => (mkWorld (demo_lib op (fs w)) tt, true);
     utcnow := fun _ => "20240101000000";
     mkdtemp_name := fun prefix _ => ["tmp"; prefix +:+ "k3x9"];
     wp_version_api := fun _ => api;
     wp_salts_api := fun _ => None;
     stdin_line := fun _ => answer;
     geteuid := fun _ => uid;
     str_replace := fun _ _ s => s;
     str_strip := fun s => s;
     str_lower := fun s => s;
     re_sub := fun _ _ s => s;
     re_search1 := fun _ _ => None;
     re_findall := fun _ _ => found |}.

Definition all_exit0 : cmdline -> SpawnResult := fun _ => Exited 0 "" "".

(** PHP 8.3 is installed. *)
Definition env_php83 : Env :=
  host_env (fun c => match c with
                     | Argv ("php" :: _) => Exited 0 "8.3" ""
                     | _ => SpawnFailed
                     end) [] "y" 0 no_fault None.

(** PHP is not installed; the package cache offers three versions. *)
Definition env_apt : Env :=
  host_env (fun c => match c with
                     | Argv ("apt-cache" :: _) =>
                         Exited 0 "php7.4-fpm php8.1-fpm php10.0-fpm" ""
                     | _ => SpawnFailed
                     end) ["7.4"; "8.1"; "10.0"] "y" 0 no_fault None.

(** No program can be started. *)
Definition env_bare : Env := host_env (fun _ => SpawnFailed) [] "y" 0 no_fault None.

(** The user answers no; the user is not root. *)
Definition env_declines : Env := host_env all_exit0 [] "n" 0 no_fault None.
Definition env_not_root : Env := host_env all_exit0 [] "y" 1000 no_fault None.

(** Shell commands work; the MySQL client exits with status 1. *)
Definition mysql_down : cmdline -> SpawnResult :=
  fun c => match c with
           | Shell _ => Exited 0 "" ""
           | Argv _ => Exited 1 "" "ERROR 2002"
           end.

Definition env_mysql_down : Env := host_env mysql_down [] "y" 0 no_fault None.

(** The MySQL client fails and the download directory cannot be removed. *)
Definition env_guarded_fail : Env :=
  host_env mysql_down [] "y" 0
           (fun op => match op with Rmtree p => path_eqb p dl_tmp | _ => false end) None.

(** The version API offers WordPress 6.5 as a zip archive. *)
Definition env_api : Env :=
  host_env all_exit0 [] "y" 0 no_fault
           (Some [mkOffer (Some "6.5") (Some "https://wordpress.org/wordpress-6.5.zip")]).

(** example.com with the certbot flag. *)
Definition certbot_cfg : Dict := <["certbot" := VBool true]> (example_cfg false false).

(** * Reasoning about computations *)

Arguments String.append : simpl never.
Arguments nginx_site : simpl never.
Arguments drop_sql : simpl never.
Arguments create_sql : simpl never.
Arguments certbot_cmd : simpl never.
Arguments path_str : simpl never.

Section Logic.
Context `{Env}.

Lemma extends_by_refl s : extends_by s s.
Proof. exists []. split; [by rewrite app_nil_r | constructor]. Qed.

Lemma extends_by_trans s1 s2 s3 :
  extends_by s1 s2 -> extends_by s2 s3 -> extends_by s1 s3.
Proof.
  intros (t1 & E1 & F1) (t2 & E2 & F2). exists (t1 ++ t2). split.
  - rewrite E2, E1. by rewrite app_assoc.
  - by apply Forall_app.
Qed.

Lemma extends_by_emit s e : no_enter e -> extends_by s (emit e s).
Proof. intros He. exists [e]. split; [done | by constructor]. Qed.

Lemma tame_ret {A} (a : A) : tame (ret a).
Proof. intros s. split; [apply extends_by_refl | discriminate]. Qed.

Lemma tame_raise {A} e : is_Exception e = true -> tame (@raise _ A e).
Proof.
  intros He s. split; [apply extends_by_refl |].
  simpl. intros e' [= <-]. exact He.
Qed.

Lemma tame_bind {A B} (m : M A) (k : A -> M B) :
  tame m -> (forall a, tame (k a)) -> tame (bind m k).
Proof.
  intros Hm Hk s. unfold bind. destruct (Hm s) as [Hx He].
  destruct (m s) as [s1 [a | e]]; simpl in *.
  - destruct (Hk a s1) as [Hx' He']. split; [by eapply extends_by_trans | done].
  - split; [done | intros e' [= <-]; by apply He].
Qed.

Lemma tame_try_except {A} (m : M A) c h :
  tame m ->
  (forall e, c e = true -> is_Exception e = true -> tame (h e)) ->
  tame (try_except m c h).
Proof.
  intros Hm Hh s. unfold try_except. destruct (Hm s) as [Hx He].
  destruct (m s) as [s1 [a | e]]; simpl in *.
  - split; [done | discriminate].
  - destruct (c e) eqn:Hc; simpl.
    + destruct (Hh e Hc (He e eq_refl) s1) as [Hx' He'].
      split; [by eapply extends_by_trans | done].
    + split; [done | exact He].
Qed.

Lemma tame_gets {A} (f : Sys -> A) : tame (gets f).
Proof. intros s. split; [apply extends_by_refl | discriminate]. Qed.

Lemma tame_modify_state f : tame (modify_state f).
Proof.
  intros s. split; [| discriminate]. exists []. simpl.
  split; [by rewrite app_nil_r | constructor].
Qed.

Lemma tame_out lvl msg : tame (out lvl msg).
Proof. intros s. split; [by apply extends_by_emit | discriminate]. Qed.

Lemma tame_urlopen url : tame (urlopen url).
Proof. intros s. split; [by apply extends_by_emit | discriminate]. Qed.

Lemma tame_fs_op op : tame (fs_op op).
Proof.
  intros s. unfold fs_op. destruct (io_fault op (world s)); simpl.
  - split; [by apply (extends_by_emit s (Fs op)) | by intros e [= <-]].
  - split; [by apply (extends_by_emit s (Fs op)) | discriminate].
Qed.

Lemma tame_lib_op op : tame (lib_op op).
Proof.
  intros s. unfold lib_op. destruct (os_lib op (world s)) as [w' [|]]; simpl.
  - split; [by apply (extends_by_emit s (Lib op)) | discriminate].
  - split; [by apply (extends_by_emit s (Lib op)) | by intros e [= <-]].
Qed.

Lemma tame_subprocess_run c check capture : tame (subprocess_run c check capture).
Proof.
  intros s. unfold subprocess_run.
  destruct (os_spawn c (world s)) as [w' [rc o e|]]; simpl.
  - destruct (check && negb (rc =? 0)%Z); simpl.
    + split; [by apply (extends_by_emit s (Spawn c)) | by intros e' [= <-]].
    + split; [by apply (extends_by_emit s (Spawn c)) | discriminate].
  - split; [by apply (extends_by_emit s (Spawn c)) | by intros e' [= <-]].
Qed.

Lemma tame_read_text p : tame (read_text p).
Proof.
  intros s. unfold read_text. destruct (fs (world s) p) as [[d m|]|]; simpl;
    (split; [apply extends_by_refl | (discriminate || by intros e [= <-])]).
Qed.

Lemma tame_cfg_get cfg k : tame (cfg_get cfg k).
Proof.
  unfold cfg_get. destruct (cfg !! k); [apply tame_ret | by apply tame_raise].
Qed.

Lemma tame_as_path v : tame (as_path v).
Proof. destruct v; simpl; try apply tame_ret; by apply tame_raise. Qed.

Lemma tame_as_str v : tame (as_str v).
Proof. destruct v; simpl; try apply tame_ret; by apply tame_raise. Qed.

Lemma tame_for_each {A} (l : list A) body :
  (forall x, tame (body x)) -> tame (for_each l body).
Proof.
  intros Hb. induction l as [| x l IH]; simpl.
  - apply tame_ret.
  - apply tame_bind; [apply Hb | intros _; exact IH].
Qed.

Lemma tame_when b m : tame m -> tame (when b m).
Proof. intros Hm. destruct b; simpl; [exact Hm | apply tame_ret]. Qed.

End Logic.

Create HintDb tame discriminated.

#[export] Hint Resolve tame_ret tame_gets tame_modify_state tame_out
  tame_urlopen tame_fs_op tame_lib_op tame_subprocess_run tame_read_text
  tame_cfg_get tame_as_path tame_as_str : tame.

(** Decompose a computation along its syntax. *)
Ltac tame_step :=
  lazymatch goal with
  | |- tame (bind _ _) => apply tame_bind; [| intros ?]
  | |- tame (try_except _ _ _) => apply tame_try_except; [| intros ? ? ?]
  | |- tame (for_each _ _) => apply tame_for_each; intros ?
  | |- tame (when _ _) => apply tame_when
  | |- tame (raise _) => apply tame_raise; first [reflexivity | assumption]
  | |- tame (if ?b then _ else _) => destruct b
  | |- tame (match ?x with _ => _ end) => destruct x
  | |- tame _ => first [ solve [auto with tame] ]
  end.

Ltac tame_auto := repeat tame_step.

Section TameFunctions.
Context `{Env}.

Lemma tame_debug msg : tame (debug msg).
Proof. apply tame_out. Qed.
Lemma tame_info msg : tame (info msg).
Proof. apply tame_out. Qed.
Lemma tame_success msg : tame (success msg).
Proof. apply tame_out. Qed.
Lemma tame_warning msg : tame (warning msg).
Proof. apply tame_out. Qed.
Lemma tame_error msg : tame (error msg).
Proof. apply tame_out. Qed.
Lemma tame_print msg : tame (print msg).
Proof. apply tame_out. Qed.
Hint Resolve tame_debug tame_info tame_success tame_warning tame_error tame_print : tame.

Lemma tame_dry_run_print desc cmd : tame (dry_run_print desc cmd).
Proof. unfold dry_run_print. tame_auto. Qed.
Hint Resolve tame_dry_run_print : tame.

Lemma tame_cfg_dry_run cfg : tame (cfg_dry_run cfg).
Proof. unfold cfg_dry_run. tame_auto. Qed.
Hint Resolve tame_cfg_dry_run : tame.

Lemma tame_run_cmd cmd c k d : tame (run_cmd cmd c k d).
Proof. unfold run_cmd. tame_auto. Qed.
Hint Resolve tame_run_cmd : tame.

Lemma tame_atomic_write p data mode d : tame (atomic_write p data mode d).
Proof. unfold atomic_write, timestamp. tame_auto. Qed.
Hint Resolve tame_atomic_write : tame.

Lemma tame_mkdtemp prefix : tame (mkdtemp prefix).
Proof. unfold mkdtemp. tame_auto. Qed.
Hint Resolve tame_mkdtemp : tame.

Lemma tame_path_exists p : tame (path_exists p).
Proof. apply tame_gets. Qed.
Lemma tame_is_dir p : tame (is_dir p).
Proof. apply tame_gets. Qed.
Hint Resolve tame_path_exists tame_is_dir : tame.

Lemma tame_fetch_latest : tame fetch_latest_wordpress_download_url.
Proof. unfold fetch_latest_wordpress_download_url. tame_auto. Qed.
Hint Resolve tame_fetch_latest : tame.

Lemma tame_download_and_extract_wp url dest d : tame (download_and_extract_wp url dest d).
Proof. unfold download_and_extract_wp. tame_auto. Qed.
Hint Resolve tame_download_and_extract_wp : tame.

Lemma tame_mysql_exec sql d : tame (mysql_exec sql d).
Proof. unfold mysql_exec. tame_auto. Qed.
Hint Resolve tame_mysql_exec : tame.

Lemma tame_backup_path p : tame (backup_path p).
Proof. unfold backup_path, timestamp. tame_auto. Qed.
Hint Resolve tame_backup_path : tame.

Lemma tame_remove_path p d : tame (remove_path p d).
Proof. unfold remove_path. tame_auto. Qed.
Hint Resolve tame_remove_path : tame.

Lemma tame_show_summary cfg : tame (show_summary cfg).
Proof. unfold show_summary. tame_auto. Qed.

Lemma tame_remove_tmp_dir cfg td : tame (remove_tmp_dir cfg td).
Proof. unfold remove_tmp_dir. tame_auto. Qed.
Hint Resolve tame_remove_tmp_dir : tame.

Lemma tame_remove_tmp_dirs cfg : tame (remove_tmp_dirs cfg).
Proof. unfold remove_tmp_dirs. tame_auto. Qed.

Lemma enters_intro r {A} (k : unit -> M A) :
  tame (k tt) -> enters r (bind (enter r) k).
Proof.
  intros Hk s. unfold bind, enter. destruct (Hk (emit (Enter r) s)) as [(t & E & F) He].
  split; [| exact He]. exists t. split; [| exact F].
  rewrite E. simpl. by rewrite <- app_assoc.
Qed.

Lemma enters_step_update_system cfg : enters R_step_update_system (step_update_system cfg).
Proof. unfold step_update_system. apply enters_intro. tame_auto. Qed.

Lemma enters_step_install_nginx cfg : enters R_step_install_nginx (step_install_nginx cfg).
Proof. unfold step_install_nginx. apply enters_intro. tame_auto. Qed.

Lemma enters_step_install_mysql cfg : enters R_step_install_mysql (step_install_mysql cfg).
Proof. unfold step_install_mysql. apply enters_intro. tame_auto. Qed.

Lemma enters_step_install_php cfg : enters R_step_install_php (step_install_php cfg).
Proof. unfold step_install_php. apply enters_intro. tame_auto. Qed.

Lemma enters_step_create_database cfg : enters R_step_create_database (step_create_database cfg).
Proof. unfold step_create_database. apply enters_intro. tame_auto. Qed.

Lemma enters_step_download_and_install_wp cfg :
  enters R_step_download_and_install_wp (step_download_and_install_wp cfg).
Proof. unfold step_download_and_install_wp. apply enters_intro. tame_auto. Qed.

Lemma enters_step_configure_nginx cfg : enters R_step_configure_nginx (step_configure_nginx cfg).
Proof. unfold step_configure_nginx. apply enters_intro. tame_auto. Qed.

Lemma enters_step_install_ssl cfg : enters R_step_install_ssl (step_install_ssl cfg).
Proof. unfold step_install_ssl. apply enters_intro. tame_auto. Qed.

Lemma enters_cleanup_full cfg : enters R_cleanup_full (cleanup_full cfg).
Proof. unfold cleanup_full. apply enters_intro. tame_auto. Qed.

End TameFunctions.

(** * The claims *)

Lemma mutations_app t1 t2 : mutations (t1 ++ t2) = mutations t1 ++ mutations t2.
Proof. apply List.filter_app. Qed.

Ltac mut_simpl :=
  cbn [fst snd trace emit set_fs set_world set_st world st];
  repeat rewrite mutations_app;
  cbn [mutations List.filter is_mutation app map firstn];
  repeat rewrite app_nil_r;
  repeat rewrite <- app_assoc;
  cbn [app].

(** Run the next statements of a computation whose outcome is named by
    the equation [E]. *)
Ltac exec E :=
  unfold dry_run_print, cfg_dry_run, timestamp, path_exists, is_dir, sys_exit,
         debug, info, success, warning, error, print, when in E;
  unfold bind, ret, raise, gets, modify_state, out, enter, urlopen,
         try_except, finally in E;
  cbn beta iota zeta delta [fst snd world st trace emit set_world set_fs set_st
                            andb orb negb truthy] in E.

Ltac split_ifs E :=
  repeat match type of E with
         | context [if ?b then _ else _] => destruct b; exec E
         end.

Section CommandExecutor.
Context `{Env}.

(** C8. [run_cmd] in SIMULATE mode (dry_run set and the run not executing)
    spawns nothing, leaves world and state as they are and returns a
    CompletedProcess with status 0.  In PERFORM mode it spawns the command
    exactly once and returns only when the child has finished (the world
    is the one the child left); a non-zero status raises
    CalledProcessError carrying that status when [check] is set, and is
    returned in the CompletedProcess when [check] is not set. *)
Theorem run_cmd_contract (cmd : string) (capture check dry : bool) (s : Sys) :
  let r := run_cmd cmd capture check dry s in
  (dry && negb (executing (st s)) = true ->
     snd r = inl (mkCP (Shell cmd) 0 "" "") /\
     world (fst r) = world s /\ st (fst r) = st s /\
     mutations (trace (fst r)) = mutations (trace s)) /\
  (dry && negb (executing (st s)) = false ->
     world (fst r) = fst (os_spawn (Shell cmd) (world s)) /\
     st (fst r) = st s /\
     mutations (trace (fst r)) = mutations (trace s) ++ [Spawn (Shell cmd)] /\
     forall rc o e, snd (os_spawn (Shell cmd) (world s)) = Exited rc o e ->
       (rc <> 0%Z -> check = true ->
          exists o' e', snd r = inr (CalledProcessError rc o' e')) /\
       (rc <> 0%Z -> check = false ->
          exists cp, snd r = inl cp /\ returncode cp = rc) /\
       (rc = 0%Z -> exists cp, snd r = inl cp /\ returncode cp = 0%Z)).
Proof.
  intros r. subst r.
  destruct (run_cmd cmd capture check dry s) as [s' r] eqn:E.
  unfold run_cmd in E. exec E. split; intros Hmode; rewrite Hmode in E; exec E.
  - split_ifs E; injection E as <- <-; simpl; repeat split; by mut_simpl.
  - unfold subprocess_run in E. exec E.
    destruct (os_spawn (Shell cmd) (world s)) as [w' [rc o e|]] eqn:Hsp; simpl fst; simpl snd.
    + destruct (Z.eqb_spec rc 0) as [Hrc | Hrc]; destruct check; exec E;
        split_ifs E; injection E as <- <-; simpl;
        (split; [reflexivity |]; split; [reflexivity |]; split; [by mut_simpl |]);
        intros rc' o' e' [= <- <- <-];
        repeat split; intros; first [contradiction | discriminate | by eauto].
    + exec E. injection E as <- <-. simpl. repeat split; by mut_simpl.
Qed.

End CommandExecutor.

(** ** Paths and the file system *)

Lemma path_eqb_eq p q : path_eqb p q = true <-> p = q.
Proof.
  revert q. induction p as [| a p IH]; intros [| b q]; simpl; try (split; congruence).
  rewrite andb_true_iff, String.eqb_eq, IH. split; [intros [-> ->]; done | intros [= -> ->]; done].
Qed.

Lemma path_eqb_refl p : path_eqb p p = true.
Proof. by apply path_eqb_eq. Qed.

Lemma path_eqb_neq p q : p <> q -> path_eqb p q = false.
Proof.
  intros Hne. destruct (path_eqb p q) eqn:E; [| done].
  apply path_eqb_eq in E. contradiction.
Qed.

Lemma is_prefix_length p q : is_prefix p q = true -> length p <= length q.
Proof.
  revert q. induction p as [| a p IH]; intros [| b q]; simpl; try lia; try discriminate.
  rewrite andb_true_iff. intros [_ Hp]. apply IH in Hp. lia.
Qed.

Lemma is_prefix_refl p : is_prefix p p = true.
Proof. induction p as [| a p IH]; simpl; [done |]. by rewrite String.eqb_refl, IH. Qed.

Lemma parent_shorter p : p <> [] -> length (parent p) < length p.
Proof.
  intros Hp. unfold parent.
  rewrite (app_removelast_last "" Hp) at 2. rewrite length_app. simpl. lia.
Qed.

Lemma not_prefix_of_parent p : p <> [] -> is_prefix p (parent p) = false.
Proof.
  intros Hp. destruct (is_prefix p (parent p)) eqn:E; [| done].
  apply is_prefix_length in E. pose proof (parent_shorter p Hp). lia.
Qed.

Lemma string_length_append a b :
  String.length (a +:+ b) = String.length a + String.length b.
Proof. induction a as [| c a IH]; simpl; [done | by rewrite IH]. Qed.

Lemma tmp_name_parent p ts : parent (tmp_name p ts) = parent p.
Proof. unfold tmp_name, child, parent. apply removelast_last. Qed.

Lemma tmp_name_name p ts : name (tmp_name p ts) = ".tmp." +:+ name p +:+ "." +:+ ts.
Proof. unfold tmp_name, child, name. apply last_last. Qed.

(** The temporary file is never the destination itself. *)
Lemma tmp_name_neq p ts : tmp_name p ts <> p.
Proof.
  intros E. pose proof (tmp_name_name p ts) as Hn. rewrite E in Hn.
  apply (f_equal String.length) in Hn.
  rewrite !string_length_append in Hn. simpl in Hn. lia.
Qed.

Lemma fs_set_same f p n : fs_set f p n p = n.
Proof. unfold fs_set. by rewrite path_eqb_refl. Qed.

Lemma fs_set_other f p n q : q <> p -> fs_set f p n q = f q.
Proof. intros Hne. unfold fs_set. by rewrite path_eqb_neq. Qed.

(** The primitives of the writer that leave another path alone. *)
Lemma apply_fs_MkdirP_other d f q : is_prefix q d = false -> apply_fs (MkdirP d) f q = f q.
Proof. intros Hq. simpl. by rewrite Hq. Qed.

Lemma apply_fs_OpenW_other t f q : q <> t -> apply_fs (OpenW t) f q = f q.
Proof. intros Hq. simpl. destruct (f t) as [[? ?|]|]; by apply fs_set_other. Qed.

Lemma apply_fs_WriteData_other t d f q : q <> t -> apply_fs (WriteData t d) f q = f q.
Proof. intros Hq. simpl. destruct (f t) as [[? ?|]|]; by apply fs_set_other. Qed.

Lemma apply_fs_Chmod_other t m f q : q <> t -> apply_fs (Chmod t m) f q = f q.
Proof. intros Hq. simpl. destruct (f t) as [[? ?|]|]; [by apply fs_set_other | done | done]. Qed.

Lemma apply_fs_OpenW_same t f : exists m, apply_fs (OpenW t) f t = Some (File "" m).
Proof. simpl. destruct (f t) as [[d m|]|]; eexists; apply fs_set_same. Qed.

Lemma apply_fs_WriteData_same t d f old m :
  f t = Some (File old m) -> apply_fs (WriteData t d) f t = Some (File (old +:+ d) m).
Proof. intros Hf. simpl. rewrite Hf. apply fs_set_same. Qed.

Lemma apply_fs_Chmod_same t m f d m0 :
  f t = Some (File d m0) -> apply_fs (Chmod t m) f t = Some (File d m).
Proof. intros Hf. simpl. rewrite Hf. apply fs_set_same. Qed.

Lemma apply_fs_Replace_dst src dst f : src <> dst -> apply_fs (Replace src dst) f dst = f src.
Proof. intros Hne. simpl. rewrite fs_set_other by done. apply fs_set_same. Qed.

Lemma apply_fs_Replace_src src dst f : apply_fs (Replace src dst) f src = None.
Proof. simpl. apply fs_set_same. Qed.

(** The file systems that the writer goes through. *)
Lemma writer_steps (p : path) (data : string) (mode : N) (ts : string) (f0 : FS) :
  p <> [] ->
  let tmp := tmp_name p ts in
  let f1 := apply_fs (MkdirP (parent p)) f0 in
  let f2 := apply_fs (OpenW tmp) f1 in
  let f3 := apply_fs (WriteData tmp data) f2 in
  let f4 := apply_fs (Chmod tmp mode) f3 in
  let f5 := apply_fs (Replace tmp p) f4 in
  f1 p = f0 p /\ f2 p = f0 p /\ f3 p = f0 p /\ f4 p = f0 p /\
  f5 p = Some (File data mode) /\ f5 tmp = None /\
  (exists m, f2 tmp = Some (File "" m) /\ f3 tmp = Some (File data m)) /\
  f4 tmp = Some (File data mode) /\
  forall n, apply_fs_failed (WriteData tmp data) n f2 p = f0 p /\
            exists m, apply_fs_failed (WriteData tmp data) n f2 tmp =
                      Some (File (String.substring 0 n data) m).
Proof.
  intros Hp tmp f1 f2 f3 f4 f5.
  assert (Hne : p <> tmp) by (intros E; by apply (tmp_name_neq p ts)).
  assert (H1 : f1 p = f0 p)
    by (apply apply_fs_MkdirP_other; by apply not_prefix_of_parent).
  assert (H2 : f2 p = f0 p)
    by (unfold f2; rewrite apply_fs_OpenW_other by done; exact H1).
  assert (H3 : f3 p = f0 p)
    by (unfold f3; rewrite apply_fs_WriteData_other by done; exact H2).
  assert (H4 : f4 p = f0 p)
    by (unfold f4; rewrite apply_fs_Chmod_other by done; exact H3).
  destruct (apply_fs_OpenW_same tmp f1) as [m Hm]. fold f2 in Hm.
  assert (H3t : f3 tmp = Some (File data m))
    by (unfold f3; by rewrite (apply_fs_WriteData_same tmp data f2 "" m Hm)).
  assert (H4t : f4 tmp = Some (File data mode))
    by (unfold f4; by rewrite (apply_fs_Chmod_same tmp mode f3 data m H3t)).
  repeat split; try done.
  - unfold f5. rewrite apply_fs_Replace_dst by done. exact H4t.
  - apply apply_fs_Replace_src.
  - by exists m.
  - unfold apply_fs_failed. rewrite apply_fs_WriteData_other by done. exact H2.
  - exists m. unfold apply_fs_failed.
    by rewrite (apply_fs_WriteData_same tmp _ f2 "" m Hm).
Qed.

Section AtomicWriter.
Context `{Env}.

(** C3, as amended.  In perform mode [atomic_write] works on the file
    [.tmp.<name>.<UTC time to the second>] in the directory of the
    destination, which is never the destination itself; it attempts, in
    this order and stopping at the first I/O error: create the missing
    parent directories, open the temporary file, write the content, set
    the requested mode on the temporary file, rename it over the
    destination.  After every prefix of these primitives, and so also in
    the world that a failed or interrupted call leaves, the destination
    holds its previous content or the whole new content with the requested
    mode; when no primitive fails the call returns, the destination holds
    the new content and the temporary file is gone. *)
Theorem atomic_write_perform (p : path) (data : string) (mode : N) (dry : bool) (s : Sys) :
  p <> [] ->
  dry && negb (executing (st s)) = false ->
  let tmp := tmp_name p (utcnow (world s)) in
  let plan := write_plan p data mode (world s) in
  let r := atomic_write p data mode dry s in
  let old := fs (world s) p in
  (parent tmp = parent p /\
   name tmp = ".tmp." +:+ name p +:+ "." +:+ utcnow (world s) /\
   tmp <> p) /\
  (exists n, mutations (trace (fst r)) = mutations (trace s) ++ map Fs (take n plan)) /\
  (forall n, replay plan n (fs (world s)) p = old \/
             replay plan n (fs (world s)) p = Some (File data mode)) /\
  (fs (world (fst r)) p = old \/ fs (world (fst r)) p = Some (File data mode)) /\
  ((forall op w, io_fault op w = false) ->
     snd r = inl tt /\
     mutations (trace (fst r)) = mutations (trace s) ++ map Fs plan /\
     fs (world (fst r)) = replay plan 5 (fs (world s)) /\
     fs (world (fst r)) p = Some (File data mode) /\
     fs (world (fst r)) tmp = None).
Proof.
  intros Hp Hmode tmp plan r old.
  destruct (writer_steps p data mode (utcnow (world s)) (fs (world s)) Hp)
    as (H1 & H2 & H3 & H4 & H5 & H5t & (m & H2t & H3t) & H4t & Hw).
  fold tmp in H2, H3, H4, H5, H5t, H2t, H3t, H4t, Hw.
  split; [| split; [| split; [| split]]].
  - split; [apply tmp_name_parent |]. split; [apply tmp_name_name | apply tmp_name_neq].
  - subst r. destruct (atomic_write p data mode dry s) as [s' r] eqn:E.
    unfold atomic_write in E. exec E. rewrite Hmode in E.
    rewrite tmp_name_parent in E. fold tmp in E. unfold fs_op in E. exec E.
    split_ifs E; injection E as <- <-; unfold plan, write_plan; fold tmp; simpl.
    all:  first [ exists 1; by mut_simpl | exists 2; by mut_simpl | exists 3; by mut_simpl
            | exists 4; by mut_simpl | exists 5; by mut_simpl ].
  - intros n. unfold replay, plan, write_plan. fold tmp.
    do 5 (destruct n as [| n]; [cbn [firstn foldl]; auto |]). cbn [firstn foldl].
    rewrite take_nil. cbn [foldl]. auto.
  - subst r. destruct (atomic_write p data mode dry s) as [s' r] eqn:E.
    unfold atomic_write in E. exec E. rewrite Hmode in E.
    rewrite tmp_name_parent in E. fold tmp in E. unfold fs_op in E. exec E.
    split_ifs E; injection E as <- <-; simpl; auto.
    left. apply Hw.
  - intros Hok. subst r. destruct (atomic_write p data mode dry s) as [s' r] eqn:E.
    unfold atomic_write in E. exec E. rewrite Hmode in E.
    rewrite tmp_name_parent in E. fold tmp in E. unfold fs_op in E. exec E.
    rewrite !Hok in E. injection E as <- <-. simpl.
    repeat split; try done. by mut_simpl.
Qed.

(** C4, as amended.  When the temporary file has been created and the
    write then fails with an I/O error (while writing, while setting the
    mode, or in the rename), the destination is left as it was and the
    temporary file is left behind, with the part of the content that was
    written. *)
Theorem atomic_write_failure_leaves_tmp (p : path) (data : string) (mode : N)
    (dry : bool) (s : Sys) (e : Exn) :
  p <> [] ->
  dry && negb (executing (st s)) = false ->
  let tmp := tmp_name p (utcnow (world s)) in
  let r := atomic_write p data mode dry s in
  (forall w, io_fault (MkdirP (parent p)) w = false) ->
  (forall w, io_fault (OpenW tmp) w = false) ->
  snd r = inr e ->
  e = OSError "I/O error" /\
  fs (world (fst r)) p = fs (world s) p /\
  exists d m, fs (world (fst r)) tmp = Some (File d m) /\
              (d = data \/ exists n, d = String.substring 0 n data).
Proof.
  intros Hp Hmode tmp r Hmk Hop Hr.
  destruct (writer_steps p data mode (utcnow (world s)) (fs (world s)) Hp)
    as (H1 & H2 & H3 & H4 & H5 & H5t & (m & H2t & H3t) & H4t & Hw).
  fold tmp in H2, H3, H4, H5, H5t, H2t, H3t, H4t, Hw.
  subst r. destruct (atomic_write p data mode dry s) as [s' r] eqn:E.
  unfold atomic_write in E. exec E. rewrite Hmode in E.
  rewrite tmp_name_parent in E. fold tmp in E. unfold fs_op in E. exec E.
  rewrite Hmk, Hop in E.
  split_ifs E; injection E as <- <-; simpl in *; try discriminate;
    injection Hr as <-; (split; [done |]).
  - destruct (Hw (short_write (mkWorld (apply_fs (OpenW tmp)
               (apply_fs (MkdirP (parent p)) (fs (world s)))) (ext (world s)))))
      as [Hwp [m' Hwt]].
    split; [exact Hwp |]. eexists _, m'. split; [exact Hwt |]. right. by eexists.
  - split; [exact H3 |]. exists data, m. split; [exact H3t | by left].
  - split; [exact H4 |]. exists data, mode. split; [exact H4t | by left].
Qed.

End AtomicWriter.

(** ** Running a computation statement by statement *)

Section Stepping.
Context `{Env}.

Lemma run_ret {A B} (a : A) (k : A -> M B) s : bind (ret a) k s = k a s.
Proof. reflexivity. Qed.

Lemma run_raise {A B} e (k : A -> M B) s : bind (raise e) k s = (s, inr e).
Proof. reflexivity. Qed.

Lemma run_out {B} lvl msg (k : unit -> M B) s :
  bind (out lvl msg) k s = k tt (emit (Out lvl msg) s).
Proof. reflexivity. Qed.

Lemma run_enter {B} r (k : unit -> M B) s :
  bind (enter r) k s = k tt (emit (Enter r) s).
Proof. reflexivity. Qed.

Lemma run_urlopen {B} url (k : unit -> M B) s :
  bind (urlopen url) k s = k tt (emit (Net url) s).
Proof. reflexivity. Qed.

Lemma run_gets {A B} (f : Sys -> A) (k : A -> M B) s : bind (gets f) k s = k (f s) s.
Proof. reflexivity. Qed.

Lemma run_modify_state {B} f (k : unit -> M B) s :
  bind (modify_state f) k s = k tt (set_st f s).
Proof. reflexivity. Qed.

Lemma run_assoc {A B C} (m : M A) (f : A -> M B) (g : B -> M C) s :
  bind (bind m f) g s = bind m (fun x => bind (f x) g) s.
Proof. unfold bind. by destruct (m s) as [s1 [a | e]]. Qed.

Lemma run_cfg_get {B} (cfg : Dict) key v (k : Val -> M B) s :
  cfg !! key = Some v -> bind (cfg_get cfg key) k s = k v s.
Proof. intros Hk. unfold cfg_get. by rewrite Hk. Qed.

Lemma run_cfg_get_missing {B} (cfg : Dict) key (k : Val -> M B) s :
  cfg !! key = None -> bind (cfg_get cfg key) k s = (s, inr (KeyError key)).
Proof. intros Hk. unfold cfg_get. by rewrite Hk. Qed.

Lemma run_as_path {B} w (k : path -> M B) s : bind (as_path (VStr w)) k s = k (Path w) s.
Proof. reflexivity. Qed.

Lemma run_fs_op_ok {B} op (k : unit -> M B) s :
  io_fault op (world s) = false ->
  bind (fs_op op) k s = k tt (set_fs (apply_fs op (fs (world s))) (emit (Fs op) s)).
Proof. intros Hf. unfold bind, fs_op. by rewrite Hf. Qed.

Lemma run_fs_op_fault {B} op (k : unit -> M B) s :
  io_fault op (world s) = true ->
  bind (fs_op op) k s =
  (set_fs (apply_fs_failed op (short_write (world s)) (fs (world s))) (emit (Fs op) s),
   inr (OSError "I/O error")).
Proof. intros Hf. unfold bind, fs_op. by rewrite Hf. Qed.

(** What follows a tame statement only adds to its trace. *)
Lemma tame_trace {A} (m : M A) s :
  tame m -> exists t, trace (fst (m s)) = trace s ++ t /\ Forall no_enter t.
Proof. intros Hm. apply (Hm s). Qed.

End Stepping.

#[export] Hint Resolve tame_debug tame_info tame_success tame_warning tame_error
  tame_print tame_dry_run_print tame_cfg_dry_run tame_run_cmd tame_atomic_write
  tame_mkdtemp tame_path_exists tame_is_dir tame_fetch_latest
  tame_download_and_extract_wp tame_mysql_exec tame_backup_path tame_remove_path
  tame_show_summary tame_remove_tmp_dir tame_remove_tmp_dirs : tame.

Ltac replace_lhs E lem :=
  let E' := fresh "E" in
  pose proof (eq_trans (eq_sym lem) E) as E'; clear E; rename E' into E.

Ltac reduce_state E :=
  cbn [when fst snd world st trace emit set_world set_fs set_st
       andb orb negb truthy fs ext executing created_db tmp_dirs
       set_web_root set_nginx_conf_path set_tmp_dirs set_created_db
       set_db_name set_db_user set_created_paths set_executing
       set_overwrite set_last_cfg last_cfg] in E.

(** Run the statement at the head of the computation in [E]. *)
Ltac step1 E :=
  lazymatch type of E with
  | bind (bind ?m ?f) ?g ?s = _ => replace_lhs E (run_assoc m f g s)
  | bind (debug ?m) ?k ?s = _ => replace_lhs E (run_out DEBUG m k s); cbv beta in E
  | bind (info ?m) ?k ?s = _ => replace_lhs E (run_out INFO m k s); cbv beta in E
  | bind (success ?m) ?k ?s = _ => replace_lhs E (run_out SUCCESS m k s); cbv beta in E
  | bind (warning ?m) ?k ?s = _ => replace_lhs E (run_out WARNING m k s); cbv beta in E
  | bind (error ?m) ?k ?s = _ => replace_lhs E (run_out ERROR m k s); cbv beta in E
  | bind (print ?m) ?k ?s = _ => replace_lhs E (run_out STDOUT m k s); cbv beta in E
  | bind (dry_run_print _ _) _ _ = _ => unfold dry_run_print at 1 in E
  | bind (cfg_dry_run _) _ _ = _ => unfold cfg_dry_run at 1 in E
  | bind timestamp _ _ = _ => unfold timestamp at 1 in E
  | bind (path_exists _) _ _ = _ => unfold path_exists at 1 in E
  | bind (is_dir _) _ _ = _ => unfold is_dir at 1 in E
  | bind (sys_exit _) _ _ = _ => unfold sys_exit at 1 in E
  | bind (ret ?a) ?k ?s = _ => replace_lhs E (run_ret a k s); cbv beta in E
  | bind (raise ?e) ?k ?s = _ => replace_lhs E (run_raise e k s)
  | bind (out ?l ?m) ?k ?s = _ => replace_lhs E (run_out l m k s); cbv beta in E
  | bind (enter ?r) ?k ?s = _ => replace_lhs E (run_enter r k s); cbv beta in E
  | bind (urlopen ?u) ?k ?s = _ => replace_lhs E (run_urlopen u k s); cbv beta in E
  | bind (gets ?f) ?k ?s = _ =>
      replace_lhs E (run_gets f k s); cbv beta in E; reduce_state E
  | bind (modify_state ?f) ?k ?s = _ =>
      replace_lhs E (run_modify_state f k s); cbv beta in E
  | bind (as_path (VStr ?w)) ?k ?s = _ => replace_lhs E (run_as_path w k s); cbv beta in E
  | bind (cfg_get ?cfg ?key) ?k ?s = _ =>
      first
        [ match goal with
          | Hk : cfg !! key = Some ?v |- _ =>
              replace_lhs E (run_cfg_get cfg key v k s Hk); cbv beta in E
          end
        | match goal with
          | Hk : cfg !! key = None |- _ =>
              replace_lhs E (run_cfg_get_missing cfg key k s Hk)
          end ]
  | bind (fs_op ?op) ?k ?s = _ =>
      first
        [ let Hok := fresh "Hok" in
          assert (Hok : io_fault op (world s) = false)
            by (cbn [world emit set_fs set_world set_st]; eauto);
          replace_lhs E (run_fs_op_ok op k s Hok); cbv beta in E; clear Hok;
          reduce_state E
        | let Hko := fresh "Hko" in
          assert (Hko : io_fault op (world s) = true)
            by (cbn [world emit set_fs set_world set_st]; eauto);
          replace_lhs E (run_fs_op_fault op k s Hko); clear Hko;
          reduce_state E ]
  | bind (when true ?m) ?k ?s = _ => change (bind m k s) with (bind m k s) in E; cbn [when] in E
  | bind (when false ?m) ?k ?s = _ => cbn [when] in E
  | bind (if true then ?a else ?b) ?k ?s = _ => cbv iota in E
  | bind (if false then ?a else ?b) ?k ?s = _ => cbv iota in E
  | bind (if ?c then ?a else ?b) ?k ?s = _ => progress reduce_state E
  | (if true then _ else _) _ = _ => cbv iota in E
  | (if false then _ else _) _ = _ => cbv iota in E
  | when true _ _ = _ => cbn [when] in E
  | when false _ _ = _ => cbn [when] in E
  | ret _ _ = _ => unfold ret at 1 in E
  | raise _ _ = _ => unfold raise at 1 in E
  | out _ _ _ = _ => unfold out at 1 in E
  | debug _ _ = _ => unfold debug at 1 in E
  | info _ _ = _ => unfold info at 1 in E
  | success _ _ = _ => unfold success at 1 in E
  | warning _ _ = _ => unfold warning at 1 in E
  | error _ _ = _ => unfold error at 1 in E
  | print _ _ = _ => unfold print at 1 in E
  | dry_run_print _ _ _ = _ => unfold dry_run_print at 1 in E
  | sys_exit _ _ = _ => unfold sys_exit at 1 in E
  end.

Ltac step E := repeat step1 E.

(** The statements that remain in [E] are tame: name what they add to the
    trace. *)
Ltac rest_is_tame E t Ht :=
  cbv beta in E;
  lazymatch type of E with
  | ?m ?s0 = _ =>
      let Hm := fresh "Hm" in
      assert (Hm : tame m) by tame_auto;
      destruct (tame_trace m s0 Hm) as (t & Ht & _);
      rewrite E in Ht; cbn [fst] in Ht; clear Hm
  end.

Section SignalInterceptor.
Context `{Env}.

(** C9. On SIGINT or SIGTERM the handler first logs the signal, then runs
    [cleanup_full] once, on the configuration last stored in [state] (the
    empty dict when none was stored) and on the state and world as they
    are at that moment, and ends the process with status 1 whatever the
    cleanup did.  When no configuration was stored yet, the cleanup
    changes neither the world nor the state and attempts no mutation. *)
Theorem signal_handler_contract (sig : Z) (s : Sys) :
  let cfg := default (∅ : Dict) (last_cfg (st s)) in
  let r := signal_handler sig s in
  snd r = inr (SystemExit 1) /\ exit_code (snd r) = 1%Z /\
  (exists t, trace (fst r) = trace (signalled sig s) ++ Enter R_cleanup_full :: t /\
             Forall no_enter t) /\
  world (fst r) = world (fst (cleanup_full cfg (signalled sig s))) /\
  st (fst r) = st (fst (cleanup_full cfg (signalled sig s))) /\
  (last_cfg (st s) = None ->
     world (fst r) = world s /\ st (fst r) = st s /\
     mutations (trace (fst r)) = mutations (trace s)).
Proof.
  intros cfg r. subst r.
  destruct (signal_handler sig s) as [s' r] eqn:E.
  unfold signal_handler in E. step E. fold (signalled sig s) in E. fold cfg in E.
  destruct (enters_cleanup_full cfg (signalled sig s)) as [(t & Ht & Hne) Hex].
  assert (Hnone : last_cfg (st s) = None ->
            cleanup_full cfg (signalled sig s) =
            (emit (Out DEBUG "Full cleanup initiated")
               (emit (Out WARNING "Running full cleanup (Option A)...")
                  (emit (Enter R_cleanup_full) (signalled sig s))),
             inr (KeyError "web_root"))).
  { intros Hl. subst cfg. rewrite Hl. simpl default.
    destruct (cleanup_full ∅ (signalled sig s)) as [s2 r2] eqn:E2.
    unfold cleanup_full in E2.
    assert (Hk : (∅ : Dict) !! "web_root" = None) by apply lookup_empty.
    step E2. by rewrite <- E2. }
  unfold try_except, bind in E.
  destruct (cleanup_full cfg (signalled sig s)) as [s2 [[] | e]] eqn:Ec; simpl in *.
  - injection E as <- <-.
    split; [done |]. split; [done |]. split; [by exists t |].
    split; [done |]. split; [done |].
    intros Hl. specialize (Hnone Hl). discriminate.
  - rewrite (Hex e eq_refl) in E. simpl in E. injection E as <- <-.
    split; [done |]. split; [done |]. split.
    { exists (t ++ [Out ERROR ("Cleanup failed during signal handling: " +:+ exn_str e)]).
      simpl. rewrite Ht. split; [by rewrite <- app_assoc |].
      apply Forall_app. split; [done | by repeat constructor]. }
    split; [done |]. split; [done |].
    intros Hl. specialize (Hnone Hl). injection Hnone as -> _. simpl.
    repeat split. by mut_simpl.
Qed.

End SignalInterceptor.

Lemma world_eta {E} (w : World E) : mkWorld (fs w) (ext w) = w.
Proof. by destruct w. Qed.

Section Rollback.
Context `{Env}.

(** C7, on the code.  In perform mode, when the web root is a directory
    and its removal fails, [cleanup_full] raises at once: the removal of
    the web root is the only mutation it attempts.  The symlink, the site
    configuration, the database and the temporary directories are not
    undone, whatever [cfg] and [state] record. *)
Theorem cleanup_full_stops_at_failed_undo (cfg : Dict) (wr : string) (dr : Val) (s : Sys) :
  cfg !! "web_root" = Some (VStr wr) ->
  cfg !! "dry_run" = Some dr ->
  truthy dr = false ->
  fs (world s) (Path wr) = Some Dir ->
  io_fault (Rmtree (Path wr)) (world s) = true ->
  let r := cleanup_full cfg s in
  snd r = inr (OSError "I/O error") /\
  world (fst r) = world s /\ st (fst r) = st s /\
  mutations (trace (fst r)) = mutations (trace s) ++ [Fs (Rmtree (Path wr))].
Proof.
  intros Hwr Hdr Htr Hfs Hfault r. subst r.
  destruct (cleanup_full cfg s) as [s' r] eqn:E.
  unfold cleanup_full in E. step E. rewrite Hfs in E. step E.
  unfold remove_path at 1 in E. step E. rewrite Hfs, Htr in E. step E.
  rewrite Hfs in E. step E.
  injection E as <- <-. simpl. rewrite world_eta. repeat split. by mut_simpl.
Qed.

End Rollback.

Section Calls.
Context `{Env}.

Lemma run_call {A B} (m : M A) (k : A -> M B) s s1 a :
  m s = (s1, inl a) -> bind m k s = k a s1.
Proof. intros Hm. unfold bind. by rewrite Hm. Qed.

(** The version query reads the network and logs; it changes nothing and
    always returns. *)
Lemma fetch_latest_quiet s :
  exists t vu,
    fetch_latest_wordpress_download_url s =
      (mkSys (world s) (st s) (trace s ++ t), inl vu) /\
    mutations t = [] /\ Forall no_enter t.
Proof.
  destruct (fetch_latest_wordpress_download_url s) as [s' r] eqn:E.
  unfold fetch_latest_wordpress_download_url in E. step E.
  destruct (wp_version_api (world s)) as [[| o l] |]; cbv beta iota in E; step E.
  - injection E as <- <-. eexists _, _. split.
    + unfold emit; cbn [world st trace]. repeat rewrite <- app_assoc. reflexivity.
    + split; [reflexivity | repeat constructor].
  - destruct (download o) as [url |]; cbv beta iota in E; step E.
    + destruct (nonempty url); cbv beta iota in E; step E;
        injection E as <- <-; eexists _, _; (split;
          [ unfold emit; cbn [world st trace]; repeat rewrite <- app_assoc; reflexivity
          | split; [reflexivity | repeat constructor] ]).
    + injection E as <- <-. eexists _, _. split.
      * unfold emit; cbn [world st trace]. repeat rewrite <- app_assoc. reflexivity.
      * split; [reflexivity | repeat constructor].
  - injection E as <- <-. eexists _, _. split.
    + unfold emit; cbn [world st trace]. repeat rewrite <- app_assoc. reflexivity.
    + split; [reflexivity | repeat constructor].
Qed.

End Calls.

(** The call at the head of [E] returns as [Hf] says. *)
Ltac call E Hf :=
  lazymatch type of E with
  | bind ?m ?k ?s = _ => replace_lhs E (run_call m k s _ _ Hf); cbv beta in E
  end.

(** Removing a directory tree and creating the directory again leaves an
    empty directory. *)
Lemma rmtree_mkdir (p : path) (f : FS) :
  apply_fs (MkdirP p) (apply_fs (Rmtree p) f) p = Some Dir /\
  forall q, is_prefix p q = true -> q <> p ->
            apply_fs (MkdirP p) (apply_fs (Rmtree p) f) q = None.
Proof.
  split.
  - simpl. by rewrite !is_prefix_refl.
  - intros q Hpq Hne. simpl. rewrite Hpq.
    destruct (is_prefix q p) eqn:Hqp; [| done].
    exfalso. apply Hne. clear Hne f.
    revert q Hpq Hqp. induction p as [| a p IH]; intros [| b q]; simpl; try done.
    rewrite !andb_true_iff, !String.eqb_eq. intros [-> Hpq] [_ Hqp].
    f_equal. by apply IH.
Qed.

Section ConflictPolicy.
Context `{Env}.

(** C5.  Perform mode ([cfg["dry_run"]] false).
    Deployment step with the web root present as a directory: without
    overwrite the step raises RuntimeError (the conflict), the world is
    untouched and no mutation is attempted; with overwrite the first
    mutation is the removal of the web-root tree and, once that succeeded,
    the next one creates the web root again, which leaves an empty
    directory.
    nginx step with the site configuration present: without overwrite the
    step raises RuntimeError, the world is untouched and no mutation is
    attempted; with overwrite the first mutation moves the configuration
    to its backup name and, on a file system without I/O errors, the next
    ones are those of the atomic write of the new configuration, ending
    with the rename over the configuration path. *)
Theorem overwrite_policy (cfg : Dict) (wr nc : string) (ow dr domain php : Val) (s : Sys) :
  cfg !! "web_root" = Some (VStr wr) ->
  cfg !! "nginx_conf" = Some (VStr nc) ->
  cfg !! "overwrite" = Some ow ->
  cfg !! "dry_run" = Some dr ->
  truthy dr = false ->
  cfg !! "domain" = Some domain ->
  cfg !! "php_version" = Some php ->
  let webroot := Path wr in
  let conf := Path nc in
  (fs (world s) webroot = Some Dir ->
     let r := step_download_and_install_wp cfg s in
     (truthy ow = false ->
        (exists msg, snd r = inr (RuntimeError msg)) /\
        world (fst r) = world s /\
        mutations (trace (fst r)) = mutations (trace s)) /\
     (truthy ow = true ->
        (exists rest, mutations (trace (fst r)) =
                      mutations (trace s) ++ Fs (Rmtree webroot) :: rest) /\
        (io_fault (Rmtree webroot) (world s) = false ->
           exists rest, mutations (trace (fst r)) =
                        mutations (trace s) ++
                        Fs (Rmtree webroot) :: Fs (MkdirP webroot) :: rest) /\
        apply_fs (MkdirP webroot) (apply_fs (Rmtree webroot) (fs (world s))) webroot
          = Some Dir)) /\
  (is_Some (fs (world s) conf) ->
     let r := step_configure_nginx cfg s in
     (truthy ow = false ->
        (exists msg, snd r = inr (RuntimeError msg)) /\
        world (fst r) = world s /\
        mutations (trace (fst r)) = mutations (trace s)) /\
     (truthy ow = true ->
        let bak := backup_name conf (world s) in
        let w1 := mkWorld (apply_fs (Move conf bak) (fs (world s))) (ext (world s)) in
        let content := nginx_site (str_of domain) wr (str_of php) in
        (exists rest, mutations (trace (fst r)) =
                      mutations (trace s) ++ Fs (Move conf bak) :: rest) /\
        ((forall op w, io_fault op w = false) ->
           exists rest, mutations (trace (fst r)) =
                        mutations (trace s) ++
                        Fs (Move conf bak) :: map Fs (write_plan conf content 420 w1) ++ rest))).
Proof.
  intros Hwr Hnc How Hdr Htr Hdom Hphp webroot conf. split.
  - intros Hfs r. subst r.
    destruct (step_download_and_install_wp cfg s) as [s' r] eqn:E.
    unfold step_download_and_install_wp in E. step E. fold webroot in E.
    match type of E with
    | bind _ _ ?s1 = _ => destruct (fetch_latest_quiet s1) as (tf & vu & Hf & Hmf & _)
    end.
    call E Hf. step E.
    rewrite Hfs in E. step E.
    split.
    + intros Hno. rewrite Hno in E. step E. injection E as <- <-. simpl.
      split; [by eexists |]. split; [reflexivity |]. mut_simpl. rewrite Hmf. by mut_simpl.
    + intros Hyes. rewrite Hyes in E. step E.
      unfold remove_path at 1 in E. step E. rewrite Hfs in E. step E.
      rewrite Htr in E. step E. rewrite Hfs in E. step E.
      split; [| split; [| apply rmtree_mkdir]].
      * destruct (io_fault (Rmtree webroot) (world s)) eqn:Hrm.
        -- step E. injection E as <- <-. simpl. exists []. mut_simpl. rewrite Hmf. by mut_simpl.
        -- step E. rest_is_tame E t Ht. cbn [fst]. rewrite Ht. exists (mutations t).
           simpl. mut_simpl. rewrite Hmf. by mut_simpl.
      * intros Hrm. step E. rewrite Htr in E. step E.
        destruct (io_fault (MkdirP webroot)
                    (mkWorld (apply_fs (Rmtree webroot) (fs (world s))) (ext (world s)))) eqn:Hmk.
        -- step E. injection E as <- <-. simpl. exists []. mut_simpl. rewrite Hmf. by mut_simpl.
        -- step E. rest_is_tame E t Ht. cbn [fst]. rewrite Ht. exists (mutations t).
           simpl. mut_simpl. rewrite Hmf. by mut_simpl.
  - intros [n Hfs] r. subst r.
    destruct (step_configure_nginx cfg s) as [s' r] eqn:E.
    unfold step_configure_nginx in E. step E. fold conf in E.
    rewrite Hfs in E. step E.
    split.
    + intros Hno. rewrite Hno in E. step E. injection E as <- <-. simpl.
      split; [by eexists |]. split; [reflexivity |]. by mut_simpl.
    + intros Hyes bak w1 content. rewrite Hyes in E. step E.
      unfold backup_path at 1 in E. step E. rewrite Hfs in E. step E.
      fold (backup_name conf (world s)) in E. fold bak in E.
      split.
      * destruct (io_fault (Move conf bak) (world s)) eqn:Hmv.
        -- step E. injection E as <- <-. simpl. exists []. by mut_simpl.
        -- step E. rest_is_tame E t Ht. cbn [fst]. rewrite Ht. exists (mutations t).
           simpl. by mut_simpl.
      * intros Hok. step E. fold w1 in E.
        unfold atomic_write at 1 in E. step E. rewrite Htr in E. step E.
        fold w1 in E. rewrite tmp_name_parent in E. step E.
        rest_is_tame E t Ht. cbn [fst]. rewrite Ht. exists (mutations t).
        unfold write_plan. by mut_simpl.
Qed.

End ConflictPolicy.

(** ** The pipeline *)

Lemma entered_app t1 t2 : entered (t1 ++ t2) = entered t1 ++ entered t2.
Proof. apply omap_app. Qed.

Lemma entered_no_enter t : Forall no_enter t -> entered t = [].
Proof.
  induction 1 as [| e t He _ IH]; [done |].
  unfold entered in *. destruct e; simpl in *; try done.
Qed.

Section Pipeline.
Context `{Env}.

Lemma bind_ext {A B} (m : M A) (k k' : A -> M B) s :
  (forall a s', k a s' = k' a s') -> bind m k s = bind m k' s.
Proof. intros Hk. unfold bind. destruct (m s) as [s1 [a | e]]; [apply Hk | done]. Qed.

(** [run_steps] runs the pipeline and then prints the summary. *)
Lemma run_steps_pipeline cfg s :
  run_steps cfg s =
  bind (run_all pipeline cfg)
       (fun _ => bind (info "All installation steps completed")
                      (fun _ => show_summary cfg)) s.
Proof.
  unfold run_steps, pipeline, run_all.
  repeat (rewrite run_assoc; apply bind_ext; intros [] ?).
  reflexivity.
Qed.

Lemma pipeline_enters : steps_enter pipeline.
Proof.
  unfold steps_enter, pipeline.
  constructor; [intros cfg; apply enters_step_update_system |].
  constructor; [intros cfg; apply enters_step_install_nginx |].
  constructor; [intros cfg; apply enters_step_install_mysql |].
  constructor; [intros cfg; apply enters_step_install_php |].
  constructor; [intros cfg; apply enters_step_create_database |].
  constructor; [intros cfg; apply enters_step_download_and_install_wp |].
  constructor; [intros cfg; apply enters_step_configure_nginx |].
  constructor; [intros cfg; apply enters_step_install_ssl |].
  constructor.
Qed.

Lemma enters_entered {A} r (m : M A) s :
  enters r m -> entered (trace (fst (m s))) = entered (trace s) ++ [r].
Proof.
  intros Hm. destruct (Hm s) as [(t & Ht & Hne) _]. rewrite Ht.
  rewrite entered_app. change (Enter r :: t) with ([Enter r] ++ t).
  rewrite entered_app, (entered_no_enter t Hne). by rewrite app_nil_r.
Qed.

Lemma tame_entered {A} (m : M A) s :
  tame m -> entered (trace (fst (m s))) = entered (trace s).
Proof.
  intros Hm. destruct (Hm s) as [(t & Ht & Hne) _]. rewrite Ht.
  by rewrite entered_app, (entered_no_enter t Hne), app_nil_r.
Qed.

(** Steps that complete were entered once each, in order. *)
Lemma run_all_completed l cfg s s' :
  steps_enter l ->
  run_all l cfg s = (s', inl tt) ->
  entered (trace s') = entered (trace s) ++ map fst l.
Proof.
  intros Hl. revert s. induction Hl as [| [r f] l Hf _ IH]; intros s; simpl.
  - intros [= <-]. by rewrite app_nil_r.
  - unfold bind. pose proof (enters_entered r (f cfg) s (Hf cfg)) as He.
    destruct (f cfg s) as [s1 [[] | e]]; [| discriminate].
    intros Hr. rewrite (IH _ Hr). simpl in He. rewrite He. by rewrite <- app_assoc.
Qed.

(** When step [k] raises after the steps before it completed, the whole
    pipeline raises the same exception in the same state. *)
Lemma run_all_fails_at l cfg k r f s s1 s2 e :
  l !! k = Some (r, f) ->
  run_all (take k l) cfg s = (s1, inl tt) ->
  f cfg s1 = (s2, inr e) ->
  run_all l cfg s = (s2, inr e).
Proof.
  revert k s. induction l as [| [r' f'] l IH]; intros [| k] s; simpl; try done.
  - intros [= -> ->] [= ->] Hf. unfold bind. by rewrite Hf.
  - intros Hk. unfold bind. destruct (f' cfg s) as [s0 [[] | e0]]; [| discriminate].
    intros Hpre Hf. by eapply IH.
Qed.

Lemma for_each_returns {A} (l : list A) (body : A -> M unit) s :
  (forall x s', snd (body x s') = inl tt) -> snd (for_each l body s) = inl tt.
Proof.
  intros Hb. revert s. induction l as [| x l IH]; intros s; [done |].
  cbn [for_each]. unfold bind. specialize (Hb x s).
  destruct (body x s) as [s1 [[] | e]]; [apply IH | discriminate].
Qed.

(** A handler for [Exception] that only logs catches whatever a tame
    body raises. *)
Lemma try_except_returns (m : M unit) (h : Exn -> M unit) s :
  tame m -> (forall e s', snd (h e s') = inl tt) ->
  snd (try_except m is_Exception h s) = inl tt.
Proof.
  intros Hm Hh. unfold try_except. destruct (Hm s) as [_ Hex].
  destruct (m s) as [s1 [[] | e]]; [done |].
  simpl in Hex. rewrite (Hex e eq_refl). apply Hh.
Qed.

(** The [finally] clause never raises. *)
Lemma remove_tmp_dirs_returns cfg s : snd (remove_tmp_dirs cfg s) = inl tt.
Proof.
  destruct (remove_tmp_dirs cfg s) as [s' r] eqn:E.
  unfold remove_tmp_dirs in E. step E.
  match type of E with
  | for_each ?l ?body ?s0 = _ =>
      assert (Hr : snd (for_each l body s0) = inl tt)
  end.
  { apply for_each_returns. intros td s1. unfold remove_tmp_dir.
    apply try_except_returns; [tame_auto | done]. }
  by rewrite E in Hr.
Qed.

(** The guarded call of [cleanup_full] in a handler that only logs. *)
Lemma cleanup_guarded cfg (msg : Exn -> string) s :
  exists s4 t,
    try_except (cleanup_full cfg) is_Exception (fun e => error (msg e)) s = (s4, inl tt) /\
    world s4 = world (fst (cleanup_full cfg s)) /\
    st s4 = st (fst (cleanup_full cfg s)) /\
    trace s4 = trace s ++ Enter R_cleanup_full :: t /\ Forall no_enter t.
Proof.
  destruct (enters_cleanup_full cfg s) as [(t & Ht & Hne) Hex].
  unfold try_except. destruct (cleanup_full cfg s) as [s2 [[] | e]]; simpl in *.
  - exists s2, t. by repeat split.
  - rewrite (Hex e eq_refl). unfold error, out.
    eexists _, (t ++ [Out ERROR (msg e)]). split; [reflexivity |]. simpl.
    repeat split; try done.
    + rewrite Ht. by rewrite <- app_assoc.
    + apply Forall_app. split; [done | by repeat constructor].
Qed.

End Pipeline.

Section RunOutcome.
Context `{Env}.

Lemma show_summary_returns cfg s :
  has_keys cfg summary_keys ->
  exists s', show_summary cfg s = (s', inl tt).
Proof.
  unfold has_keys, summary_keys. intros Hk.
  repeat match goal with
         | Hk : Forall _ (_ :: _) |- _ =>
             let v := fresh "v" in let Hv := fresh "Hv" in
             apply Forall_cons in Hk; destruct Hk as [[v Hv] Hk]
         end.
  destruct (show_summary cfg s) as [s' r] eqn:E.
  unfold show_summary in E. step E.
  destruct (truthy v) eqn:Hd; step E; rewrite Hd in E; step E.
  - injection E as <- <-. by eexists.
  - destruct (truthy v5); step E; injection E as <- <-; by eexists.
Qed.

(** C1, as amended.  Failure: when step [k] of the pipeline raises after
    the steps before it completed, the routines entered during the run are
    exactly the steps up to [k], once each and in order, followed by
    [cleanup_full] once; no later step is entered.  The cleanup starts in
    the world and the [state] that the failing step left, which holds what
    the completed steps recorded and also what step [k] recorded before it
    raised; the [finally] clause runs after it and the process exits with
    status 1.
    Success: when all eight steps complete, exactly the eight steps are
    entered, [cleanup_full] is not, and the exit status is 0. *)
Theorem install_outcome (cfg : Dict) (s : Sys) :
  let res := install cfg s in
  (forall k r step s1 s2 e,
     pipeline !! k = Some (r, step) ->
     run_all (take k pipeline) cfg s = (s1, inl tt) ->
     step cfg s1 = (s2, inr e) ->
     entered (trace (fst res)) =
       entered (trace s) ++ map fst (take (S k) pipeline) ++ [R_cleanup_full] /\
     (exists s4,
        world s4 = world (fst (cleanup_full cfg (failed_at e s2))) /\
        st s4 = st (fst (cleanup_full cfg (failed_at e s2))) /\
        fst res = fst (remove_tmp_dirs cfg s4)) /\
     snd res = inr (SystemExit 1) /\ exit_code (snd res) = 1%Z) /\
  (forall s1,
     has_keys cfg summary_keys ->
     run_all pipeline cfg s = (s1, inl tt) ->
     entered (trace (fst res)) = entered (trace s) ++ map fst pipeline /\
     snd res = inl tt /\ exit_code (snd res) = 0%Z).
Proof.
  intros res. subst res. split.
  - intros k r step s1 s2 e Hk Hpre Hstep.
    assert (Hpre_l : steps_enter (take k pipeline))
      by (apply Forall_take, pipeline_enters).
    pose proof (run_all_completed _ _ _ _ Hpre_l Hpre) as Hent1.
    assert (Hstep_e : enters r (step cfg)).
    { pose proof pipeline_enters as Hp. unfold steps_enter in Hp.
      rewrite Forall_lookup in Hp. apply (Hp k (r, step) Hk). }
    pose proof (enters_entered r (step cfg) s1 Hstep_e) as Hent2.
    rewrite Hstep in Hent2. cbn [fst] in Hent2.
    destruct (Hstep_e s1) as [_ Hex]. rewrite Hstep in Hex.
    specialize (Hex e eq_refl).
    pose proof (run_all_fails_at _ _ _ _ _ _ _ _ _ Hk Hpre Hstep) as Hall.
    assert (Hrs : run_steps cfg s = (s2, inr e)).
    { rewrite run_steps_pipeline. unfold bind at 1. by rewrite Hall. }
    destruct (cleanup_guarded cfg (fun e0 => "Cleanup encountered errors: " +:+ exn_str e0)
                (failed_at e s2)) as (s4 & t & Hc & Hw & Hst & Ht & Hne).
    assert (Hfail : on_failure cfg e s2 = (s4, inr (SystemExit 1))).
    { destruct (on_failure cfg e s2) as [s' r'] eqn:E.
      unfold on_failure in E. step E. fold (failed_at e s2) in E.
      call E Hc. by rewrite <- E. }
    pose proof (remove_tmp_dirs_returns cfg s4) as Hfin.
    pose proof (tame_entered (remove_tmp_dirs cfg) s4 (tame_remove_tmp_dirs cfg)) as Hent3.
    unfold install, finally, try_except. rewrite Hrs, Hex, Hfail.
    destruct (remove_tmp_dirs cfg s4) as [s5 r5] eqn:Hrm. cbn [fst snd] in *. subst r5.
    cbn [fst snd]. split; [| split; [| by split]].
    + rewrite Hent3, Ht, entered_app. change (Enter R_cleanup_full :: t)
        with ([Enter R_cleanup_full] ++ t).
      rewrite entered_app, (entered_no_enter t Hne), app_nil_r.
      unfold failed_at. cbn [trace emit]. rewrite !entered_app. cbn [entered omap].
      rewrite !app_nil_r, Hent2, Hent1.
      erewrite take_S_r by exact Hk. rewrite map_app. cbn [map fst entered omap].
      rewrite <- !app_assoc. reflexivity.
    + exists s4. split; [exact Hw |]. split; [exact Hst | by rewrite Hrm].
  - intros s1 Hkeys Hall.
    pose proof (run_all_completed _ _ _ _ pipeline_enters Hall) as Hent1.
    destruct (show_summary_returns cfg
                (emit (Out INFO "All installation steps completed") s1) Hkeys)
      as [s2 Hsum].
    pose proof (tame_entered (show_summary cfg)
                  (emit (Out INFO "All installation steps completed") s1)
                  (tame_show_summary cfg)) as Hent2.
    rewrite Hsum in Hent2. cbn [fst trace emit] in Hent2.
    assert (Hrs : run_steps cfg s = (s2, inl tt)).
    { rewrite run_steps_pipeline. unfold bind at 1. rewrite Hall.
      unfold bind, info, out. exact Hsum. }
    pose proof (remove_tmp_dirs_returns cfg s2) as Hfin.
    pose proof (tame_entered (remove_tmp_dirs cfg) s2 (tame_remove_tmp_dirs cfg)) as Hent3.
    unfold install, finally, try_except. rewrite Hrs.
    destruct (remove_tmp_dirs cfg s2) as [s5 r5]. cbn [fst snd] in *. subst r5.
    cbn [fst snd]. split; [| by split].
    rewrite Hent3, Hent2, entered_app. cbn [entered omap].
    by rewrite app_nil_r, Hent1.
Qed.

End RunOutcome.

Section FinalPhase.
Context `{Env}.

Lemma rmtree_absent (p q : path) (f : FS) :
  f q = None -> apply_fs (Rmtree p) f q = None.
Proof. intros Hq. simpl. by destruct (is_prefix p q). Qed.

Lemma rmtree_gone (p : path) (f : FS) : apply_fs (Rmtree p) f p = None.
Proof. simpl. by rewrite is_prefix_refl. Qed.

(** One turn of the [finally] loop in perform mode. *)
Lemma remove_tmp_dir_perform cfg dr td s :
  cfg !! "dry_run" = Some dr -> truthy dr = false ->
  let s' := fst (remove_tmp_dir cfg td s) in
  exists t,
    trace s' = trace s ++ t /\ st s' = st s /\
    (forall q, fs (world s) q = None -> fs (world s') q = None) /\
    (fs (world s') (Path td) = None \/ In (Fs (Rmtree (Path td))) t) /\
    ((forall op w, io_fault op w = false) -> fs (world s') (Path td) = None).
Proof.
  intros Hdr Htr s'. subst s'.
  destruct (remove_tmp_dir cfg td s) as [s' r] eqn:E.
  unfold remove_tmp_dir, try_except in E.
  match type of E with
  | match ?m s with _ => _ end = _ => destruct (m s) as [s1 r1] eqn:E1
  end.
  step E1. destruct (fs (world s) (Path td)) as [n |] eqn:Hfs; step E1.
  - rewrite Htr in E1. step E1.
    destruct (io_fault (Rmtree (Path td)) (world s)) eqn:Hf; step E1.
    + injection E1 as <- <-. cbn [is_Exception] in E. step E. injection E as <- <-.
      eexists [_; _]. cbn [fst snd trace emit set_fs set_world world st fs apply_fs_failed].
      split; [by rewrite <- app_assoc |]. split; [done |]. split; [done |].
      split; [right; by left |]. intros Hok. by rewrite Hok in Hf.
    + injection E1 as <- <-. injection E as <- <-.
      eexists [_; _]. cbn [fst snd trace emit set_fs set_world world st fs].
      split; [by rewrite <- app_assoc |]. split; [done |].
      split; [intros q; apply rmtree_absent |].
      split; [right; by left |]. intros _. apply rmtree_gone.
  - injection E1 as <- <-. injection E as <- <-. exists []. cbn [fst].
    split; [by rewrite app_nil_r |]. repeat split; auto.
Qed.

(** One turn of the [finally] loop in dry-run mode. *)
Lemma remove_tmp_dir_dry cfg dr td s :
  cfg !! "dry_run" = Some dr -> truthy dr = true ->
  let s' := fst (remove_tmp_dir cfg td s) in
  exists t, trace s' = trace s ++ t /\ st s' = st s /\ world s' = world s /\
            mutations t = [].
Proof.
  intros Hdr Htr s'. subst s'.
  destruct (remove_tmp_dir cfg td s) as [s' r] eqn:E.
  unfold remove_tmp_dir, try_except in E.
  match type of E with
  | match ?m s with _ => _ end = _ => destruct (m s) as [s1 r1] eqn:E1
  end.
  step E1. destruct (fs (world s) (Path td)) as [n |] eqn:Hfs; step E1.
  - rewrite Htr in E1. step E1.
    destruct (nonempty (path_str (Path td))); step E1;
      injection E1 as <- <-; injection E as <- <-;
      [eexists [_; _] | eexists [_]];
      cbn [fst trace emit world st]; (split; [by rewrite <- ?app_assoc |]); by repeat split.
  - injection E1 as <- <-. injection E as <- <-. exists []. cbn [fst].
    split; [by rewrite app_nil_r |]. by repeat split.
Qed.

Lemma for_each_remove_perform cfg dr l s :
  cfg !! "dry_run" = Some dr -> truthy dr = false ->
  let s' := fst (for_each l (remove_tmp_dir cfg) s) in
  exists t,
    trace s' = trace s ++ t /\ st s' = st s /\
    (forall q, fs (world s) q = None -> fs (world s') q = None) /\
    (forall td, In td l -> fs (world s') (Path td) = None \/ In (Fs (Rmtree (Path td))) t) /\
    ((forall op w, io_fault op w = false) ->
       forall td, In td l -> fs (world s') (Path td) = None).
Proof.
  intros Hdr Htr. revert s. induction l as [| td l IH]; intros s s'; subst s'.
  - exists []. cbn [for_each ret fst]. split; [by rewrite app_nil_r |].
    split; [done |]. split; [auto |]. split; [intros td [] | intros _ td []].
  - cbn [for_each]. unfold bind.
    destruct (remove_tmp_dir_perform cfg dr td s Hdr Htr) as (t1 & Ht1 & Hs1 & Ha1 & Hd1 & Hr1).
    assert (Hret : snd (remove_tmp_dir cfg td s) = inl tt).
    { unfold remove_tmp_dir. apply try_except_returns; [tame_auto | done]. }
    destruct (remove_tmp_dir cfg td s) as [s1 r1]. cbn [fst snd] in *. subst r1.
    destruct (IH s1) as (t2 & Ht2 & Hs2 & Ha2 & Hd2 & Hr2).
    exists (t1 ++ t2). split; [by rewrite Ht2, Ht1, app_assoc |].
    split; [by rewrite Hs2 |]. split; [intros q Hq; by apply Ha2, Ha1 |]. split.
    + intros td' [<- | Hin].
      * destruct Hd1 as [Hn | Hi]; [left; by apply Ha2 | right; apply in_app_iff; by left].
      * destruct (Hd2 td' Hin) as [Hn | Hi]; [by left | right; apply in_app_iff; by right].
    + intros Hok td' [<- | Hin]; [apply Ha2; by apply Hr1 | by apply Hr2].
Qed.

Lemma for_each_remove_dry cfg dr l s :
  cfg !! "dry_run" = Some dr -> truthy dr = true ->
  let s' := fst (for_each l (remove_tmp_dir cfg) s) in
  exists t, trace s' = trace s ++ t /\ st s' = st s /\ world s' = world s /\
            mutations t = [].
Proof.
  intros Hdr Htr. revert s. induction l as [| td l IH]; intros s s'; subst s'.
  - exists []. cbn [for_each ret fst]. split; [by rewrite app_nil_r |]. by repeat split.
  - cbn [for_each]. unfold bind.
    destruct (remove_tmp_dir_dry cfg dr td s Hdr Htr) as (t1 & Ht1 & Hs1 & Hw1 & Hm1).
    assert (Hret : snd (remove_tmp_dir cfg td s) = inl tt).
    { unfold remove_tmp_dir. apply try_except_returns; [tame_auto | done]. }
    destruct (remove_tmp_dir cfg td s) as [s1 r1]. cbn [fst snd] in *. subst r1.
    destruct (IH s1) as (t2 & Ht2 & Hs2 & Hw2 & Hm2).
    exists (t1 ++ t2). split; [by rewrite Ht2, Ht1, app_assoc |].
    split; [by rewrite Hs2 |]. split; [by rewrite Hw2 |].
    by rewrite mutations_app, Hm1, Hm2.
Qed.


End FinalPhase.

(** * The claims on concrete runs *)

(** C8, witness: a command that exits with status 2 under [check]. *)
Lemma run_cmd_contract_witness :
  false && negb (executing (st (start env_exit2 fresh_host true))) = false /\
  (exists o e, snd (@run_cmd env_exit2 "nginx -t" false true false
                      (start env_exit2 fresh_host true))
               = inr (CalledProcessError 2 o e)) /\
  snd (@run_cmd env_exit2 "nginx -t" false true true (start env_exit2 fresh_host false))
  = inl (mkCP (Shell "nginx -t") 0 "" "").
Proof.
  split; [reflexivity |]. split.
  - destruct (@run_cmd_contract env_exit2 "nginx -t" false true false
                (start env_exit2 fresh_host true)) as [_ Hp].
    destruct (Hp eq_refl) as (_ & _ & _ & Hrc).
    destruct (Hrc 2%Z "" "" eq_refl) as (Hraise & _).
    apply Hraise; [discriminate | reflexivity].
  - destruct (@run_cmd_contract env_exit2 "nginx -t" false true true
                (start env_exit2 fresh_host false)) as [Hs _].
    destruct (Hs eq_refl) as (Hr & _). exact Hr.
Defined.

(** C9, witness: a signal before [main] stored the configuration. *)
Lemma signal_handler_contract_witness :
  last_cfg (st (boot env_ok used_host)) = None /\
  world (fst (@signal_handler env_ok 2 (boot env_ok used_host))) = used_host /\
  exit_code (snd (@signal_handler env_ok 2 (boot env_ok used_host))) = 1%Z.
Proof.
  split; [reflexivity |].
  destruct (@signal_handler_contract env_ok 2 (boot env_ok used_host))
    as (_ & Hexit & _ & _ & _ & Hnone).
  destruct (Hnone eq_refl) as (Hw & _). split; [exact Hw | exact Hexit].
Defined.

(** C3, counterexample: the temporary file that the writer opens can be a
    file that exists already; it is truncated, and gone after the rename. *)
Lemma atomic_write_tmp_name_taken :
  let s := start env_ok host_with_leftover true in
  let r := @atomic_write env_ok site_conf "server {}" 420 false s in
  tmp_name site_conf (@utcnow env_ok (world s)) = site_tmp /\
  fs (world s) site_tmp = Some (File "left over" 384) /\
  mutations (trace (fst r)) =
    [Fs (MkdirP (parent site_conf)); Fs (OpenW site_tmp);
     Fs (WriteData site_tmp "server {}"); Fs (Chmod site_tmp 420);
     Fs (Replace site_tmp site_conf)] /\
  snd r = inl tt /\
  fs (world (fst r)) site_tmp = None.
Proof. vm_compute. repeat split. Qed.

(** C3, witness. *)
Lemma atomic_write_perform_witness :
  site_conf <> [] /\
  false && negb (executing (st (start env_ok used_host true))) = false /\
  fs (world (fst (@atomic_write env_ok site_conf "server {}" 420 false
                    (start env_ok used_host true)))) site_conf
  = Some (File "server {}" 420).
Proof.
  split; [discriminate |]. split; [reflexivity |].
  destruct (@atomic_write_perform env_ok site_conf "server {}" 420 false
              (start env_ok used_host true) ltac:(discriminate) eq_refl)
    as (_ & _ & _ & _ & Hok).
  destruct (Hok ltac:(reflexivity)) as (_ & _ & _ & Hp & _). exact Hp.
Defined.

(** C4, counterexample: [os.chmod] fails after the temporary file was
    written; the call raises, the destination is as before, and the
    temporary file is still there with the whole content. *)
Lemma atomic_write_leaves_tmp_behind :
  let s := start env_chmod_fails used_host true in
  let r := @atomic_write env_chmod_fails site_conf "server {}" 384 false s in
  snd r = inr (OSError "I/O error") /\
  fs (world (fst r)) site_conf = Some (File "old conf" 420) /\
  fs (world (fst r)) site_tmp = Some (File "server {}" 420) /\
  fs (world (fst r)) site_tmp <> None.
Proof. vm_compute. repeat split. discriminate. Qed.

(** C4, witness. *)
Lemma atomic_write_failure_leaves_tmp_witness :
  site_conf <> [] /\
  snd (@atomic_write env_chmod_fails site_conf "server {}" 384 false
         (start env_chmod_fails used_host true)) = inr (OSError "I/O error") /\
  exists d m,
    fs (world (fst (@atomic_write env_chmod_fails site_conf "server {}" 384 false
                      (start env_chmod_fails used_host true)))) site_tmp
    = Some (File d m).
Proof.
  split; [discriminate |]. split; [reflexivity |].
  destruct (@atomic_write_failure_leaves_tmp env_chmod_fails site_conf "server {}" 384 false
              (start env_chmod_fails used_host true) (OSError "I/O error")
              ltac:(discriminate) eq_refl ltac:(reflexivity) ltac:(reflexivity) eq_refl)
    as (_ & _ & d & m & Hd & _).
  exists d, m. exact Hd.
Defined.

(** C5, witness: the deployment step on a host where the web root exists,
    in perform mode, without and with overwrite. *)
Lemma overwrite_policy_witness :
  fs (world (start env_ok used_host true)) (Path "/var/www/example.com") = Some Dir /\
  (exists msg, snd (@step_download_and_install_wp env_ok (example_cfg false false)
                      (start env_ok used_host true)) = inr (RuntimeError msg)) /\
  (exists rest,
     mutations (trace (fst (@step_download_and_install_wp env_ok (example_cfg false true)
                              (start env_ok used_host true)))) =
     mutations (trace (start env_ok used_host true)) ++
     Fs (Rmtree (Path "/var/www/example.com")) ::
     Fs (MkdirP (Path "/var/www/example.com")) :: rest).
Proof.
  split; [reflexivity |]. split.
  - destruct (@overwrite_policy env_ok (example_cfg false false)
                "/var/www/example.com" "/etc/nginx/sites-available/example.com"
                (VBool false) (VBool false) (VStr "example.com") (VStr "8.1")
                (start env_ok used_host true)
                ltac:(vm_compute; reflexivity) ltac:(vm_compute; reflexivity)
                ltac:(vm_compute; reflexivity) ltac:(vm_compute; reflexivity)
                eq_refl
                ltac:(vm_compute; reflexivity) ltac:(vm_compute; reflexivity))
      as [Hwp _].
    destruct (Hwp ltac:(reflexivity)) as [Hno _].
    destruct (Hno eq_refl) as (Hmsg & _). exact Hmsg.
  - destruct (@overwrite_policy env_ok (example_cfg false true)
                "/var/www/example.com" "/etc/nginx/sites-available/example.com"
                (VBool true) (VBool false) (VStr "example.com") (VStr "8.1")
                (start env_ok used_host true)
                ltac:(vm_compute; reflexivity) ltac:(vm_compute; reflexivity)
                ltac:(vm_compute; reflexivity) ltac:(vm_compute; reflexivity)
                eq_refl
                ltac:(vm_compute; reflexivity) ltac:(vm_compute; reflexivity))
      as [Hwp _].
    destruct (Hwp ltac:(reflexivity)) as [_ Hyes].
    destruct (Hyes eq_refl) as (_ & Hrest & _).
    exact (Hrest ltac:(reflexivity)).
Defined.

(** C7, witness: the removal of the web root fails; the symlink, the site
    configuration, the database and the download directory are left. *)
Lemma cleanup_full_stops_at_failed_undo_witness :
  let s := @mkSys env_rmtree_fails deployed_host deployed_state [] in
  let r := @cleanup_full env_rmtree_fails (example_cfg false false) s in
  fs (world s) (Path "/var/www/example.com") = Some Dir /\
  snd r = inr (OSError "I/O error") /\
  mutations (trace (fst r)) = [Fs (Rmtree site_root)] /\
  fs (world (fst r)) site_conf = Some (File "old conf" 420) /\
  fs (world (fst r)) ["etc"; "nginx"; "sites-enabled"; "example.com"] = Some (File "link" 420) /\
  fs (world (fst r)) dl_tmp = Some Dir /\
  created_db (st (fst r)) = true.
Proof.
  intros s r.
  destruct (@cleanup_full_stops_at_failed_undo env_rmtree_fails (example_cfg false false)
              "/var/www/example.com" (VBool false) s
              ltac:(vm_compute; reflexivity) ltac:(vm_compute; reflexivity)
              eq_refl ltac:(reflexivity) ltac:(reflexivity))
    as (Hr & Hw & Hs & Hm).
  fold r in Hr, Hw, Hs, Hm.
  split; [reflexivity |]. split; [exact Hr |]. split; [exact Hm |].
  rewrite Hw, Hs. repeat split.
Defined.

(** C6, on the code: Scenario B.  example.com in perform mode without
    overwrite, on a host where the web root and its content exist before
    the run.  The deployment step raises the conflict, the run created no
    path, the exit status is 1, and the cleanup has removed the tree that
    was there before the run, with the site configuration that was there
    before the run. *)
Theorem scenario_conflict_removes_existing_web_root :
  let res := @main env_ok (example_args false false) (boot env_ok used_host) in
  fs used_host site_root = Some Dir /\
  fs used_host (child site_root "index.php") = Some (File "old site" 420) /\
  created_paths (st (fst res)) = [] /\
  exit_code (snd res) = 1%Z /\
  entered (trace (fst res)) =
    [R_step_update_system; R_step_install_nginx; R_step_install_mysql;
     R_step_install_php; R_step_create_database; R_step_download_and_install_wp;
     R_cleanup_full] /\
  fs (world (fst res)) site_root = None /\
  fs (world (fst res)) (child site_root "index.php") = None /\
  fs (world (fst res)) site_conf = None.
Proof. vm_compute. repeat split. Qed.

(** C2, on the code: example.com in dry-run mode with overwrite, on a host
    where the site exists.  The run ends with status 0 and reports that no
    changes were made, but [tempfile.mkdtemp] has created a directory that
    is still there, and [backup_path] has moved the existing site
    configuration away. *)
Theorem dry_run_mutates_file_system :
  let res := @main env_ok (example_args true true) (boot env_ok used_host) in
  exit_code (snd res) = 0%Z /\
  executing (st (fst res)) = false /\
  In (Out INFO "DRY-RUN complete. No changes were made.") (trace (fst res)) /\
  List.filter (fun e => match e with Fs _ => true | _ => false end) (trace (fst res)) =
    [Fs (Mkdtemp dl_tmp);
     Fs (Move site_conf (with_name site_conf "example.com.bak-20240101000000"))] /\
  fs used_host dl_tmp = None /\
  fs (world (fst res)) dl_tmp = Some Dir /\
  fs used_host site_conf = Some (File "old conf" 420) /\
  fs (world (fst res)) site_conf = None /\
  fs (world (fst res)) (with_name site_conf "example.com.bak-20240101000000")
    = Some (File "old conf" 420).
Proof.
  vm_compute. repeat split.
  repeat (first [left; reflexivity | right]).
Qed.

(** C1, counterexample: the [state] on which the cleanup works is not the
    one that the completed steps left.  Step 6 records its download
    directory and the web root before it raises; the cleanup that [main]
    runs removes both, and a cleanup run on the [state] as it was after
    step 5 would not attempt the removal of the download directory. *)
Lemma cleanup_sees_records_of_failing_step :
  @run_all env_download_fails (take 5 (@pipeline env_download_fails))
     (example_cfg false false) failing_run_start = (after_step5, inl tt) /\
  @step_download_and_install_wp env_download_fails (example_cfg false false) after_step5
    = (after_step6, inr download_error) /\
  tmp_dirs (st after_step5) = [] /\
  tmp_dirs (st after_step6) = ["/tmp/wpdl_k3x9"] /\
  st after_step6 <> st after_step5 /\
  fs_ops_since (failed_at download_error after_step6)
    (fst (@cleanup_full env_download_fails (example_cfg false false)
            (failed_at download_error after_step6))) =
    [Fs (Rmtree site_root); Fs (Rmtree dl_tmp)] /\
  (let s6' := @mkSys env_download_fails (world after_step6) (st after_step5)
                     (trace after_step6) in
   fs_ops_since (failed_at download_error s6')
     (fst (@cleanup_full env_download_fails (example_cfg false false)
             (failed_at download_error s6'))) =
     [Fs (Rmtree site_root)]).
Proof.
  split; [vm_compute; reflexivity |]. split; [vm_compute; reflexivity |].
  split; [vm_compute; reflexivity |]. split; [vm_compute; reflexivity |].
  split; [| split; vm_compute; reflexivity].
  intros Heq. apply (f_equal tmp_dirs) in Heq. vm_compute in Heq. discriminate.
Qed.

(** C1, witness: the same run through [install]. *)
Lemma install_outcome_witness :
  @pipeline env_download_fails !! 5 =
    Some (R_step_download_and_install_wp, @step_download_and_install_wp env_download_fails) /\
  entered (trace (fst (@install env_download_fails (example_cfg false false)
                         failing_run_start))) =
    [R_step_update_system; R_step_install_nginx; R_step_install_mysql;
     R_step_install_php; R_step_create_database; R_step_download_and_install_wp;
     R_cleanup_full] /\
  exit_code (snd (@install env_download_fails (example_cfg false false) failing_run_start))
    = 1%Z.
Proof.
  split; [reflexivity |].
  destruct (@install_outcome env_download_fails (example_cfg false false) failing_run_start)
    as [Hfail _].
  destruct (Hfail 5 R_step_download_and_install_wp
              (@step_download_and_install_wp env_download_fails)
              after_step5 after_step6 download_error
              eq_refl ltac:(vm_compute; reflexivity) ltac:(vm_compute; reflexivity))
    as (Hent & _ & _ & Hexit).
  split; [exact Hent | exact Hexit].
Defined.



(** * Further properties of the installer *)

(** * Further properties of the code *)

(** ** Relations that a computation keeps *)

Section Keeps.
Context `{Env}.
Variable I : Sys -> Prop.
Variable R : Sys -> Sys -> Prop.
Hypothesis R_refl : forall s, R s s.
Hypothesis R_trans : forall s1 s2 s3, R s1 s2 -> R s2 s3 -> R s1 s3.
Hypothesis R_emit : forall s e, is_mutation e = false -> R s (emit e s).
Hypothesis I_emit : forall s e, is_mutation e = false -> I s -> I (emit e s).

Lemma keeps_ret {A} (a : A) : keeps I R (ret a).
Proof using R_refl. intros s Hs. by split. Qed.

Lemma keeps_raise {A} e : keeps I R (@raise _ A e).
Proof using R_refl. intros s Hs. by split. Qed.

Lemma keeps_gets {A} (f : Sys -> A) : keeps I R (gets f).
Proof using R_refl. intros s Hs. by split. Qed.

Lemma keeps_bind {A B} (m : M A) (k : A -> M B) :
  keeps I R m -> (forall a, keeps I R (k a)) -> keeps I R (bind m k).
Proof using R_trans.
  intros Hm Hk s Hs. unfold bind. destruct (Hm s Hs) as [Hr Hi].
  destruct (m s) as [s1 [a | e]]; cbn [fst] in *; [| by split].
  destruct (Hk a s1 Hi) as [Hr' Hi']. split; [by eapply R_trans | done].
Qed.

Lemma keeps_try_except {A} (m : M A) c h :
  keeps I R m -> (forall e, keeps I R (h e)) -> keeps I R (try_except m c h).
Proof using R_trans.
  intros Hm Hh s Hs. unfold try_except. destruct (Hm s Hs) as [Hr Hi].
  destruct (m s) as [s1 [a | e]]; cbn [fst] in *; [by split |].
  destruct (c e); [| by split].
  destruct (Hh e s1 Hi) as [Hr' Hi']. split; [by eapply R_trans | done].
Qed.

Lemma keeps_finally {A} (m : M A) fin :
  keeps I R m -> keeps I R fin -> keeps I R (finally m fin).
Proof using R_trans.
  intros Hm Hf s Hs. unfold finally. destruct (Hm s Hs) as [Hr Hi].
  destruct (m s) as [s1 r]; cbn [fst] in *.
  destruct (Hf s1 Hi) as [Hr' Hi'].
  destruct (fin s1) as [s2 [[] | e]]; cbn [fst] in *; (split; [by eapply R_trans | done]).
Qed.

Lemma keeps_for_each {A} (l : list A) body :
  (forall x, keeps I R (body x)) -> keeps I R (for_each l body).
Proof using R_refl R_trans.
  intros Hb. induction l as [| x l IH]; cbn [for_each].
  - apply keeps_ret.
  - apply keeps_bind; [apply Hb | intros _; exact IH].
Qed.

Lemma keeps_when b m : keeps I R m -> keeps I R (when b m).
Proof using R_refl. intros Hm. destruct b; cbn [when]; [exact Hm | apply keeps_ret]. Qed.

Lemma keeps_out lvl msg : keeps I R (out lvl msg).
Proof using R_emit I_emit. intros s Hs. split; [by apply R_emit | by apply I_emit]. Qed.

Lemma keeps_enter r : keeps I R (enter r).
Proof using R_emit I_emit. intros s Hs. split; [by apply R_emit | by apply I_emit]. Qed.

Lemma keeps_urlopen url : keeps I R (urlopen url).
Proof using R_emit I_emit. intros s Hs. split; [by apply R_emit | by apply I_emit]. Qed.

Lemma keeps_read_text p : keeps I R (read_text p).
Proof using R_refl.
  intros s Hs. unfold read_text. destruct (fs (world s) p) as [[d m |] |]; by split.
Qed.

Lemma keeps_cfg_get cfg k : keeps I R (cfg_get cfg k).
Proof using R_refl.
  unfold cfg_get. destruct (cfg !! k); [apply keeps_ret | apply keeps_raise].
Qed.

Lemma keeps_as_path v : keeps I R (as_path v).
Proof using R_refl. destruct v; cbn [as_path]; first [apply keeps_ret | apply keeps_raise]. Qed.

Lemma keeps_as_str v : keeps I R (as_str v).
Proof using R_refl. destruct v; cbn [as_str]; first [apply keeps_ret | apply keeps_raise]. Qed.

(** The mode argument of a call, when the configuration holds it. *)
Lemma keeps_cfg_dry_run {A} (cfg : Dict) v (k : bool -> M A) :
  cfg !! "dry_run" = Some v -> keeps I R (k (truthy v)) ->
  keeps I R (bind (cfg_dry_run cfg) k).
Proof.
  intros Hv Hk s Hs. unfold bind, cfg_dry_run, cfg_get. rewrite Hv. apply (Hk s Hs).
Qed.

End Keeps.

Section KeepsSimulating.
Context `{Env}.
Variable R : Sys -> Sys -> Prop.

(** While the run is a simulation, [state.get("executing", False)] is
    false. *)
Lemma keeps_gets_executing {A} (k : bool -> M A) :
  keeps simulating R (k false) ->
  keeps simulating R (bind (gets (fun s => executing (st s))) k).
Proof. intros Hk s Hs. unfold bind, gets. rewrite Hs. apply (Hk s Hs). Qed.

End KeepsSimulating.

Create HintDb keeps discriminated.

Section Relations.
Context `{Env}.

Lemma untouched_refl s : untouched s s.
Proof. split; [done |]. exists []. by rewrite app_nil_r. Qed.

Lemma untouched_trans s1 s2 s3 : untouched s1 s2 -> untouched s2 s3 -> untouched s1 s3.
Proof.
  intros [W1 (t1 & T1 & M1)] [W2 (t2 & T2 & M2)]. split; [congruence |].
  exists (t1 ++ t2). split; [by rewrite T2, T1, app_assoc |].
  by rewrite mutations_app, M1, M2.
Qed.

Lemma untouched_emit s e : is_mutation e = false -> untouched s (emit e s).
Proof.
  intros He. split; [done |]. exists [e]. split; [done |].
  unfold mutations. cbn [List.filter]. by rewrite He.
Qed.

Lemma untouched_mutations s s' :
  untouched s s' -> mutations (trace s') = mutations (trace s).
Proof. intros [_ (t & -> & Hm)]. by rewrite mutations_app, Hm, app_nil_r. Qed.

Lemma simulating_emit s e : is_mutation e = false -> simulating s -> simulating (emit e s).
Proof. done. Qed.

Lemma always_emit s e : is_mutation e = false -> always s -> always (emit e s).
Proof. done. Qed.

Lemma unchanged_refl s : unchanged s s.
Proof. split; [apply untouched_refl | done]. Qed.

Lemma unchanged_trans s1 s2 s3 : unchanged s1 s2 -> unchanged s2 s3 -> unchanged s1 s3.
Proof.
  intros [U1 S1] [U2 S2]. split; [by eapply untouched_trans | congruence].
Qed.

Lemma unchanged_emit s e : is_mutation e = false -> unchanged s (emit e s).
Proof. intros He. split; [by apply untouched_emit | done]. Qed.

Lemma adds_only_refl P s : adds_only P s s.
Proof. exists []. split; [by rewrite app_nil_r | constructor]. Qed.

Lemma adds_only_trans P s1 s2 s3 :
  adds_only P s1 s2 -> adds_only P s2 s3 -> adds_only P s1 s3.
Proof.
  intros (t1 & T1 & F1) (t2 & T2 & F2). exists (t1 ++ t2).
  split; [by rewrite T2, T1, app_assoc |].
  rewrite mutations_app. by apply Forall_app.
Qed.

Lemma adds_only_emit P s e : is_mutation e = false -> adds_only P s (emit e s).
Proof.
  intros He. exists [e]. split; [done |].
  unfold mutations. cbn [List.filter]. rewrite He. constructor.
Qed.

Lemma untouched_adds_only P s s' : untouched s s' -> adds_only P s s'.
Proof. intros [_ (t & T & Hm)]. exists t. split; [done |]. rewrite Hm. constructor. Qed.

Lemma st_rel_refl Q s : (forall t, Q t t) -> st_rel Q s s.
Proof. intros HQ. apply HQ. Qed.

Lemma st_rel_trans Q s1 s2 s3 :
  (forall t1 t2 t3, Q t1 t2 -> Q t2 t3 -> Q t1 t3) ->
  st_rel Q s1 s2 -> st_rel Q s2 s3 -> st_rel Q s1 s3.
Proof. intros HQ. apply HQ. Qed.

Lemma st_rel_emit Q s e : (forall t, Q t t) -> is_mutation e = false -> st_rel Q s (emit e s).
Proof. intros HQ _. apply HQ. Qed.

Lemma forward_refl t : forward t t.
Proof. repeat split; exists []; by rewrite app_nil_r. Qed.

Lemma forward_trans t1 t2 t3 : forward t1 t2 -> forward t2 t3 -> forward t1 t3.
Proof.
  intros (E1 & L1 & O1 & (a1 & A1) & (b1 & B1)) (E2 & L2 & O2 & (a2 & A2) & (b2 & B2)).
  split; [congruence |]. split; [congruence |]. split; [congruence |]. split.
  - exists (a1 ++ a2). by rewrite A2, A1, app_assoc.
  - exists (b1 ++ b2). by rewrite B2, B1, app_assoc.
Qed.

(** A computation that is inert is confined to any set of mutations. *)
Lemma inert_confined P {A} (m : M A) :
  keeps simulating untouched m -> keeps simulating (adds_only P) m.
Proof.
  intros Hm s Hs. destruct (Hm s Hs) as [Hu Hi]. split; [by apply untouched_adds_only | done].
Qed.

(** A computation that changes nothing is inert. *)
Lemma quiet_inert {A} (m : M A) : keeps always unchanged m -> keeps simulating untouched m.
Proof.
  intros Hm s Hs. destruct (Hm s I) as [[Hu Hst] _]. split; [done |].
  unfold simulating. by rewrite Hst.
Qed.

(** Assignments to [state]. *)
Lemma keeps_modify_state_st Q f :
  (forall t, Q t (f t)) -> keeps always (st_rel Q) (modify_state f).
Proof. intros Hf s _. split; [apply Hf | done]. Qed.

Lemma keeps_modify_state_sim f :
  (forall t, executing (f t) = executing t) -> keeps simulating untouched (modify_state f).
Proof.
  intros Hf s Hs. split.
  - split; [done |]. exists []. cbn [fst modify_state set_st trace]. by rewrite app_nil_r.
  - unfold simulating. cbn [fst modify_state set_st st]. by rewrite Hf.
Qed.

(** The primitives that act on the world leave [state] alone. *)
Lemma keeps_fs_op_st Q op : (forall t, Q t t) -> keeps always (st_rel Q) (fs_op op).
Proof.
  intros HQ s _. split; [| done]. unfold st_rel, fs_op.
  destruct (io_fault op (world s)); apply HQ.
Qed.

Lemma keeps_lib_op_st Q op : (forall t, Q t t) -> keeps always (st_rel Q) (lib_op op).
Proof.
  intros HQ s _. split; [| done]. unfold st_rel, lib_op.
  destruct (os_lib op (world s)) as [w' [|]]; apply HQ.
Qed.

Lemma keeps_subprocess_run_st Q c check capture :
  (forall t, Q t t) -> keeps always (st_rel Q) (subprocess_run c check capture).
Proof.
  intros HQ s _. split; [| done]. unfold st_rel, subprocess_run.
  destruct (os_spawn c (world s)) as [w' [rc o e |]]; [| apply HQ].
  destruct (check && negb (rc =? 0)%Z); apply HQ.
Qed.

(** A file-system primitive that the set [P] allows. *)
Lemma keeps_fs_op_adds P op : P (Fs op) -> keeps simulating (adds_only P) (fs_op op).
Proof.
  intros HP s Hs. unfold fs_op.
  destruct (io_fault op (world s)); (split; [| done]); exists [Fs op];
    (split; [done | by repeat constructor]).
Qed.

End Relations.

#[export] Hint Resolve untouched_refl untouched_trans untouched_emit simulating_emit
  always_emit unchanged_refl unchanged_trans unchanged_emit adds_only_refl
  adds_only_trans adds_only_emit st_rel_refl st_rel_trans st_rel_emit
  forward_refl forward_trans eq_trans : keeps.

#[export] Hint Resolve keeps_ret keeps_raise keeps_gets keeps_out keeps_enter
  keeps_urlopen keeps_read_text keeps_cfg_get keeps_as_path keeps_as_str
  keeps_fs_op_st keeps_lib_op_st keeps_subprocess_run_st : keeps.

Ltac keeps_side := solve [eauto 6 with keeps].

(** Decompose a computation along its syntax; the mode is read from the
    hypotheses on the configuration when they are there. *)
Ltac keeps_step :=
  cbv beta;
  lazymatch goal with
  | |- keeps simulating _ (bind (gets (fun s => executing (st s))) _) =>
      apply keeps_gets_executing; cbv beta; cbn [andb negb orb]
  | |- keeps _ _ (bind (cfg_dry_run ?cfg) _) =>
      first
        [ match goal with
          | Hv : cfg !! "dry_run" = Some ?v, Ht : truthy ?v = _ |- _ =>
              apply (keeps_cfg_dry_run _ _ cfg v _ Hv); cbv beta; rewrite ?Ht;
              cbn [andb negb orb]
          end
        | apply keeps_bind; [keeps_side | | intros ?] ]
  | |- keeps _ _ (bind _ _) => apply keeps_bind; [keeps_side | | intros ?]
  | |- keeps _ _ (try_except _ _ _) => apply keeps_try_except; [keeps_side | | intros ?]
  | |- keeps _ _ (finally _ _) => apply keeps_finally; [keeps_side | |]
  | |- keeps _ _ (for_each _ _) => apply keeps_for_each; [keeps_side | keeps_side | intros ?]
  | |- keeps _ _ (when _ _) => apply keeps_when; [keeps_side |]
  | |- keeps _ _ (if ?b then _ else _) => destruct b
  | |- keeps _ _ (match ?x with _ => _ end) => destruct x
  | |- keeps _ _ _ => solve [eauto 6 with keeps]
  end.

Ltac keeps_auto := repeat keeps_step.

Section KeepsLogging.
Context `{Env}.
Variable I : Sys -> Prop.
Variable R : Sys -> Sys -> Prop.
Hypothesis R_refl : forall s, R s s.
Hypothesis R_trans : forall s1 s2 s3, R s1 s2 -> R s2 s3 -> R s1 s3.
Hypothesis R_emit : forall s e, is_mutation e = false -> R s (emit e s).
Hypothesis I_emit : forall s e, is_mutation e = false -> I s -> I (emit e s).

Lemma keeps_debug msg : keeps I R (debug msg).
Proof using R_emit I_emit. by apply keeps_out. Qed.
Lemma keeps_info msg : keeps I R (info msg).
Proof using R_emit I_emit. by apply keeps_out. Qed.
Lemma keeps_success msg : keeps I R (success msg).
Proof using R_emit I_emit. by apply keeps_out. Qed.
Lemma keeps_warning msg : keeps I R (warning msg).
Proof using R_emit I_emit. by apply keeps_out. Qed.
Lemma keeps_error msg : keeps I R (error msg).
Proof using R_emit I_emit. by apply keeps_out. Qed.
Lemma keeps_print msg : keeps I R (print msg).
Proof using R_emit I_emit. by apply keeps_out. Qed.

Lemma keeps_dry_run_print desc cmd : keeps I R (dry_run_print desc cmd).
Proof using R_refl R_trans R_emit I_emit.
  unfold dry_run_print. apply keeps_bind; [done | by apply keeps_out |].
  intros _. apply keeps_when; [done | by apply keeps_out].
Qed.

Lemma keeps_path_exists p : keeps I R (path_exists p).
Proof using R_refl. by apply keeps_gets. Qed.
Lemma keeps_is_dir p : keeps I R (is_dir p).
Proof using R_refl. by apply keeps_gets. Qed.
Lemma keeps_timestamp : keeps I R timestamp.
Proof using R_refl. by apply keeps_gets. Qed.
Lemma keeps_sys_exit {A} c : keeps I R (@sys_exit _ A c).
Proof using R_refl. by apply keeps_raise. Qed.

Lemma keeps_cfg_dry_run_any cfg : keeps I R (cfg_dry_run cfg).
Proof using R_refl R_trans.
  unfold cfg_dry_run. apply keeps_bind; [done | by apply keeps_cfg_get |].
  intros v. by apply keeps_ret.
Qed.

Hint Resolve R_refl R_trans R_emit I_emit : keeps.
Hint Resolve keeps_debug keeps_info keeps_success keeps_warning keeps_error
  keeps_print keeps_dry_run_print keeps_path_exists keeps_is_dir keeps_timestamp
  keeps_sys_exit keeps_cfg_dry_run_any : keeps.

(** The functions that only read and log. *)
Lemma keeps_fetch_latest : keeps I R fetch_latest_wordpress_download_url.
Proof using R_refl R_trans R_emit I_emit.
  unfold fetch_latest_wordpress_download_url. keeps_auto.
Qed.

Lemma keeps_show_plan cfg : keeps I R (show_plan cfg).
Proof using R_refl R_trans R_emit I_emit. unfold show_plan. keeps_auto. Qed.

Lemma keeps_show_summary cfg : keeps I R (show_summary cfg).
Proof using R_refl R_trans R_emit I_emit. unfold show_summary. keeps_auto. Qed.

Lemma keeps_ensure_root d : keeps I R (ensure_root d).
Proof using R_refl R_trans R_emit I_emit. unfold ensure_root. keeps_auto. Qed.

End KeepsLogging.

#[export] Hint Resolve keeps_debug keeps_info keeps_success keeps_warning keeps_error
  keeps_print keeps_dry_run_print keeps_path_exists keeps_is_dir keeps_timestamp
  keeps_sys_exit keeps_cfg_dry_run_any keeps_fetch_latest keeps_show_plan
  keeps_show_summary keeps_ensure_root : keeps.

(** ** What the functions leave alone *)

Ltac solve_forward :=
  unfold forward; cbn;
  repeat split; first [reflexivity | by (exists []; rewrite app_nil_r) | by eexists].

#[export] Hint Extern 1 (keeps always (st_rel forward) (modify_state _)) =>
  apply keeps_modify_state_st; intros ?; solve_forward : keeps.
#[export] Hint Extern 1 (keeps simulating untouched (modify_state _)) =>
  apply keeps_modify_state_sim; intros ?; reflexivity : keeps.
#[export] Hint Extern 1 (keeps simulating (adds_only _) (fs_op _)) =>
  apply keeps_fs_op_adds; exact I : keeps.
#[export] Hint Extern 9 (keeps simulating (adds_only _) _) =>
  apply inert_confined; solve [eauto 6 with keeps] : keeps.

(** The functions of the installer leave [state] alone, or only add to
    it: every relation on [state] that is reflexive and transitive is
    kept by the functions that do not assign to it. *)
Section StateFrame.
Context `{Env}.
Variable Q : State -> State -> Prop.
Hypothesis Q_refl : forall t, Q t t.
Hypothesis Q_trans : forall t1 t2 t3, Q t1 t2 -> Q t2 t3 -> Q t1 t3.
Hint Resolve Q_refl Q_trans : keeps.

Lemma st_run_cmd cmd c k d : keeps always (st_rel Q) (run_cmd cmd c k d).
Proof using Q_refl Q_trans. unfold run_cmd. keeps_auto. Qed.

Lemma st_atomic_write p data mode d : keeps always (st_rel Q) (atomic_write p data mode d).
Proof using Q_refl Q_trans. unfold atomic_write. keeps_auto. Qed.

Lemma st_mysql_exec sql d : keeps always (st_rel Q) (mysql_exec sql d).
Proof using Q_refl Q_trans. unfold mysql_exec. keeps_auto. Qed.

Lemma st_remove_path p d : keeps always (st_rel Q) (remove_path p d).
Proof using Q_refl Q_trans. unfold remove_path. keeps_auto. Qed.

Lemma st_backup_path p : keeps always (st_rel Q) (backup_path p).
Proof using Q_refl Q_trans. unfold backup_path. keeps_auto. Qed.

Lemma st_detect_php_version d : keeps always (st_rel Q) (detect_php_version d).
Proof using Q_refl Q_trans. unfold detect_php_version. keeps_auto. Qed.

Hint Resolve st_run_cmd st_atomic_write st_mysql_exec st_remove_path st_backup_path
  : keeps.

Lemma st_cleanup_full cfg : keeps always (st_rel Q) (cleanup_full cfg).
Proof using Q_refl Q_trans. unfold cleanup_full. keeps_auto. Qed.

Lemma st_remove_tmp_dirs cfg : keeps always (st_rel Q) (remove_tmp_dirs cfg).
Proof using Q_refl Q_trans. unfold remove_tmp_dirs, remove_tmp_dir. keeps_auto. Qed.

Lemma st_step_update_system cfg : keeps always (st_rel Q) (step_update_system cfg).
Proof using Q_refl Q_trans. unfold step_update_system. keeps_auto. Qed.

Lemma st_step_install_nginx cfg : keeps always (st_rel Q) (step_install_nginx cfg).
Proof using Q_refl Q_trans. unfold step_install_nginx. keeps_auto. Qed.

Lemma st_step_install_mysql cfg : keeps always (st_rel Q) (step_install_mysql cfg).
Proof using Q_refl Q_trans. unfold step_install_mysql. keeps_auto. Qed.

Lemma st_step_install_php cfg : keeps always (st_rel Q) (step_install_php cfg).
Proof using Q_refl Q_trans. unfold step_install_php. keeps_auto. Qed.

Lemma st_step_install_ssl cfg : keeps always (st_rel Q) (step_install_ssl cfg).
Proof using Q_refl Q_trans. unfold step_install_ssl. keeps_auto. Qed.

End StateFrame.

#[export] Hint Resolve st_run_cmd st_atomic_write st_mysql_exec st_remove_path
  st_backup_path st_detect_php_version st_cleanup_full st_remove_tmp_dirs st_step_update_system
  st_step_install_nginx st_step_install_mysql st_step_install_php
  st_step_install_ssl : keeps.

Section Forward.
Context `{Env}.

Lemma forward_mkdtemp prefix : keeps always (st_rel forward) (mkdtemp prefix).
Proof. unfold mkdtemp. keeps_auto. Qed.
Hint Resolve forward_mkdtemp : keeps.

Lemma forward_download_and_extract_wp url dest d :
  keeps always (st_rel forward) (download_and_extract_wp url dest d).
Proof. unfold download_and_extract_wp. keeps_auto. Qed.
Hint Resolve forward_download_and_extract_wp : keeps.

Lemma forward_step_create_database cfg :
  keeps always (st_rel forward) (step_create_database cfg).
Proof. unfold step_create_database. keeps_auto. Qed.

Lemma forward_step_download_and_install_wp cfg :
  keeps always (st_rel forward) (step_download_and_install_wp cfg).
Proof. unfold step_download_and_install_wp. keeps_auto. Qed.

Lemma forward_step_configure_nginx cfg :
  keeps always (st_rel forward) (step_configure_nginx cfg).
Proof. unfold step_configure_nginx. keeps_auto. Qed.

Hint Resolve forward_step_create_database forward_step_download_and_install_wp
  forward_step_configure_nginx : keeps.

Lemma forward_install cfg : keeps always (st_rel forward) (install cfg).
Proof. unfold install, run_steps, on_failure. keeps_auto. Qed.

End Forward.

(** ** Simulation *)

Section Simulation.
Context `{Env}.

Lemma inert_run_cmd cmd c k : keeps simulating untouched (run_cmd cmd c k true).
Proof. unfold run_cmd. keeps_auto. Qed.

Lemma inert_atomic_write p data mode :
  keeps simulating untouched (atomic_write p data mode true).
Proof. unfold atomic_write. keeps_auto. Qed.

Lemma inert_mysql_exec sql : keeps simulating untouched (mysql_exec sql true).
Proof. unfold mysql_exec. keeps_auto. Qed.

Lemma inert_remove_path p : keeps simulating untouched (remove_path p true).
Proof. unfold remove_path. keeps_auto. Qed.

Hint Resolve inert_run_cmd inert_atomic_write inert_mysql_exec inert_remove_path
  : keeps.

Section DryRun.
Variable cfg : Dict.
Variable dr : Val.
Hypothesis Hdr : cfg !! "dry_run" = Some dr.
Hypothesis Htr : truthy dr = true.

Lemma inert_step_update_system : keeps simulating untouched (step_update_system cfg).
Proof using Hdr Htr. unfold step_update_system. keeps_auto. Qed.

Lemma inert_step_install_nginx : keeps simulating untouched (step_install_nginx cfg).
Proof using Hdr Htr. unfold step_install_nginx. keeps_auto. Qed.

Lemma inert_step_install_mysql : keeps simulating untouched (step_install_mysql cfg).
Proof using Hdr Htr. unfold step_install_mysql. keeps_auto. Qed.

Lemma inert_step_install_php : keeps simulating untouched (step_install_php cfg).
Proof using Hdr Htr. unfold step_install_php. keeps_auto. Qed.

Lemma inert_step_create_database : keeps simulating untouched (step_create_database cfg).
Proof using Hdr Htr. unfold step_create_database. keeps_auto. Qed.

Lemma inert_step_install_ssl : keeps simulating untouched (step_install_ssl cfg).
Proof using Hdr Htr. unfold step_install_ssl. keeps_auto. Qed.

Lemma inert_cleanup_full : keeps simulating untouched (cleanup_full cfg).
Proof using Hdr Htr. unfold cleanup_full. keeps_auto. Qed.

Lemma inert_remove_tmp_dirs : keeps simulating untouched (remove_tmp_dirs cfg).
Proof using Hdr Htr. unfold remove_tmp_dirs, remove_tmp_dir. keeps_auto. Qed.

Hint Resolve inert_step_update_system inert_step_install_nginx inert_step_install_mysql
  inert_step_install_php inert_step_create_database inert_step_install_ssl
  inert_cleanup_full inert_remove_tmp_dirs : keeps.

Lemma confined_download_and_extract_wp url dest :
  keeps simulating (adds_only dry_run_mutation) (download_and_extract_wp url dest true).
Proof. unfold download_and_extract_wp, mkdtemp. keeps_auto. Qed.

Lemma confined_backup_path p :
  keeps simulating (adds_only dry_run_mutation) (backup_path p).
Proof. unfold backup_path. keeps_auto. Qed.

Hint Resolve confined_download_and_extract_wp confined_backup_path : keeps.

Lemma confined_step_download_and_install_wp :
  keeps simulating (adds_only dry_run_mutation) (step_download_and_install_wp cfg).
Proof using Hdr Htr. unfold step_download_and_install_wp. keeps_auto. Qed.

Lemma confined_step_configure_nginx :
  keeps simulating (adds_only dry_run_mutation) (step_configure_nginx cfg).
Proof using Hdr Htr. unfold step_configure_nginx. keeps_auto. Qed.

Hint Resolve confined_step_download_and_install_wp confined_step_configure_nginx : keeps.

Lemma confined_install : keeps simulating (adds_only dry_run_mutation) (install cfg).
Proof using Hdr Htr. unfold install, run_steps, on_failure. keeps_auto. Qed.

End DryRun.
End Simulation.

Section StartOfSimulation.
Context `{Env}.

(** From the assignment [state["executing"] = False] on, the run is a
    simulation. *)
Lemma keeps_start_simulation (R : Sys -> Sys -> Prop) {A} (k : unit -> M A) :
  (forall s1 s2 s3, R s1 s2 -> R s2 s3 -> R s1 s3) ->
  (forall s f, R s (set_st f s)) ->
  keeps simulating R (k tt) ->
  keeps always R (bind (modify_state (set_executing false)) k).
Proof.
  intros Htrans Hset Hk s _. unfold bind, modify_state.
  destruct (Hk (set_st (set_executing false) s) eq_refl) as [Hr _].
  split; [| done]. eapply Htrans; [apply Hset | exact Hr].
Qed.

Lemma adds_only_set_st P s f : adds_only P s (set_st f s).
Proof. exists []. split; [by rewrite app_nil_r | constructor]. Qed.

Lemma keeps_modify_state_adds P f : keeps always (adds_only P) (modify_state f).
Proof. intros s _. split; [apply adds_only_set_st | done]. Qed.

Lemma keeps_subprocess_run_adds P c check capture :
  P (Spawn c) -> keeps always (adds_only P) (subprocess_run c check capture).
Proof.
  intros HP s _. split; [| done]. unfold subprocess_run.
  destruct (os_spawn c (world s)) as [w' [rc o e |]];
    [destruct (check && negb (rc =? 0)%Z) |];
    exists [Spawn c]; (split; [done | by repeat constructor]).
Qed.

(** The probes of the PHP version are the only mutations that
    [detect_php_version] attempts. *)
Lemma confined_detect_php_version d :
  keeps always (adds_only dry_run_mutation) (detect_php_version d).
Proof.
  assert (Hp : forall c check capture, In c php_probes ->
            keeps always (adds_only dry_run_mutation) (subprocess_run c check capture))
    by (intros; by apply keeps_subprocess_run_adds).
  unfold detect_php_version.
  repeat first
    [ apply Hp; cbn; tauto
    | keeps_step ].
Qed.

Lemma main_dry_run_confined a :
  a_dry_run a <> Some false -> keeps always (adds_only dry_run_mutation) (main a).
Proof.
  intros Hd.
  assert (Hdry : default true (a_dry_run a) = true)
    by (destruct (a_dry_run a) as [[|] |]; done).
  unfold main. rewrite Hdry. cbn [negb]. cbv zeta.
  apply keeps_bind; [keeps_side | keeps_side | intros _].
  apply keeps_bind; [keeps_side | keeps_auto | intros _].
  apply keeps_bind; [keeps_side | keeps_side | intros _].
  apply keeps_bind; [keeps_side | keeps_side | intros _].
  apply keeps_bind; [keeps_side | apply confined_detect_php_version | intros php].
  assert (Hv : full_cfg a true php !! "dry_run" = Some (VBool true)) by reflexivity.
  assert (Ht : truthy (VBool true) = true) by reflexivity.
  apply keeps_bind; [keeps_side | apply keeps_modify_state_adds | intros _].
  apply keeps_bind; [keeps_side | apply keeps_modify_state_adds | intros _].
  apply keeps_bind; [keeps_side | keeps_side | intros _].
  apply keeps_bind; [keeps_side | keeps_side | intros _].
  apply keeps_bind; [keeps_side | keeps_side | intros _].
  apply keeps_bind; [keeps_side | keeps_side | intros _].
  apply keeps_start_simulation; [keeps_side | apply adds_only_set_st |].
  apply keeps_gets_executing. cbv beta iota.
  apply keeps_bind; [keeps_side | keeps_side | intros _].
  by apply (confined_install (full_cfg a true php) (VBool true)).
Qed.

(** X1. In a dry run every step but the deployment and the nginx step
    changes nothing: when [cfg["dry_run"]] is true and the run is not
    executing, the steps that update the system, install nginx, MySQL and
    PHP, create the database and install the certificate leave the world
    as it is, attempt no mutation (no child process, no file-system
    primitive, no download) and leave the run in simulation. *)
Theorem dry_run_steps_change_nothing (cfg : Dict) (dr : Val) (step : Dict -> M unit)
    (s : Sys) :
  cfg !! "dry_run" = Some dr -> truthy dr = true ->
  In step [step_update_system; step_install_nginx; step_install_mysql;
           step_install_php; step_create_database; step_install_ssl] ->
  executing (st s) = false ->
  let s' := fst (step cfg s) in
  world s' = world s /\ mutations (trace s') = mutations (trace s) /\
  executing (st s') = false.
Proof.
  intros Hdr Htr Hin Hs s'. subst s'.
  assert (Hk : keeps simulating untouched (step cfg)).
  { cbn [In] in Hin.
    destruct Hin as [<- | [<- | [<- | [<- | [<- | [<- | []]]]]]].
    - by eapply inert_step_update_system.
    - by eapply inert_step_install_nginx.
    - by eapply inert_step_install_mysql.
    - by eapply inert_step_install_php.
    - by eapply inert_step_create_database.
    - by eapply inert_step_install_ssl. }
  destruct (Hk s Hs) as [Hu Hi]. destruct Hu as [Hw Ht].
  split; [exact Hw |]. split; [by apply untouched_mutations | exact Hi].
Qed.

(** X2. The cleanup honours the mode: in a dry run [cleanup_full] only
    reports; the world is as before and no mutation is attempted, whatever
    exists on the host and whatever [state] records. *)
Theorem cleanup_full_dry_run_changes_nothing (cfg : Dict) (dr : Val) (s : Sys) :
  cfg !! "dry_run" = Some dr -> truthy dr = true ->
  executing (st s) = false ->
  let s' := fst (cleanup_full cfg s) in
  world s' = world s /\ mutations (trace s') = mutations (trace s).
Proof.
  intros Hdr Htr Hs s'. subst s'.
  destruct (inert_cleanup_full cfg dr Hdr Htr s Hs) as [Hu _].
  split; [apply Hu | by apply untouched_mutations].
Qed.

(** X3. A dry run of [main] attempts no mutation but the probes of the
    PHP version, [tempfile.mkdtemp] and the move of [backup_path]: it
    starts no other child process, downloads nothing, writes and removes
    no file. *)
Theorem dry_run_attempts_only_probes_mkdtemp_and_backup (a : Args) (s : Sys) :
  a_dry_run a <> Some false ->
  exists t, trace (fst (main a s)) = trace s ++ t /\
            Forall dry_run_mutation (mutations t).
Proof. intros Hd. by destruct (main_dry_run_confined a Hd s I) as [Hr _]. Qed.

(** X4. [cleanup_full] never assigns to [state]: after a cleanup, in
    either mode and however it ended, [state] still records the database
    as created and still lists the paths and temporary directories that
    the cleanup removed. *)
Theorem cleanup_full_keeps_state (cfg : Dict) (s : Sys) :
  st (fst (cleanup_full cfg s)) = st s.
Proof.
  assert (Hk : keeps always (st_rel eq) (cleanup_full cfg)) by keeps_side.
  destruct (Hk s I) as [Hq _]. symmetry. exact Hq.
Qed.

(** X5. The [try]/[except]/[finally] statement of [main] never changes the
    mode of the run, the stored configuration or the overwrite flag, and
    it only appends to the lists of created paths and of temporary
    directories, in either mode and whether the steps succeed or fail. *)
Theorem install_only_appends_to_state (cfg : Dict) (s : Sys) :
  let t := st s in
  let t' := st (fst (install cfg s)) in
  executing t' = executing t /\ last_cfg t' = last_cfg t /\ overwrite t' = overwrite t /\
  (exists l, tmp_dirs t' = tmp_dirs t ++ l) /\
  (exists l, created_paths t' = created_paths t ++ l).
Proof. intros t t'. by destruct (forward_install cfg s I) as [Hf _]. Qed.

End StartOfSimulation.

(** ** Calls, guarded calls and child processes *)

Section Guarded.
Context `{Env}.

Lemma run_try_returns {A B} (body : M A) c h (k : A -> M B) s s1 a :
  body s = (s1, inl a) -> bind (try_except body c h) k s = k a s1.
Proof. intros Hb. unfold bind, try_except. by rewrite Hb. Qed.

Lemma run_try_caught {A B} (body : M A) c h (k : A -> M B) s s1 e :
  body s = (s1, inr e) -> c e = true -> bind (try_except body c h) k s = bind (h e) k s1.
Proof. intros Hb Hc. unfold bind, try_except. by rewrite Hb, Hc. Qed.

Lemma run_try_passed {A B} (body : M A) c h (k : A -> M B) s s1 e :
  body s = (s1, inr e) -> c e = false -> bind (try_except body c h) k s = (s1, inr e).
Proof. intros Hb Hc. unfold bind, try_except. by rewrite Hb, Hc. Qed.

(** [subprocess.run]: the child is started once; the call returns or
    raises as its outcome says. *)
Lemma run_subprocess c check capture s :
  subprocess_run c check capture s =
  (set_world (fst (os_spawn c (world s))) (emit (Spawn c) s),
   completed check capture c (snd (os_spawn c (world s)))).
Proof.
  unfold subprocess_run, completed.
  destruct (os_spawn c (world s)) as [w' [rc o e |]]; cbn [fst snd]; [| done].
  by destruct (check && negb (rc =? 0)%Z).
Qed.

Lemma completed_Exception check capture c r e :
  completed check capture c r = inr e -> is_Exception e = true.
Proof.
  destruct r as [rc o e' |]; cbn [completed];
    [destruct (check && negb (rc =? 0)%Z) |]; by intros [= <-].
Qed.

Lemma completed_answer c r cp :
  completed true true c r = inl cp -> answer_of r = Some (stdout cp).
Proof.
  destruct r as [rc o e' |]; cbn [completed answer_of andb]; [| done].
  destruct (rc =? 0)%Z; cbn [negb]; [by intros [= <-] | done].
Qed.

Lemma completed_no_answer c r e : completed true true c r = inr e -> answer_of r = None.
Proof.
  destruct r as [rc o e' |]; cbn [completed answer_of andb]; [| done].
  by destruct (rc =? 0)%Z.
Qed.

(** One probe of [detect_php_version]: the child is started once; when it
    exits with status 0 its output is read by [f], which only logs; every
    failure is caught. *)
Lemma probe_try c (f : CompletedProcess -> M (option string)) (g : string -> option string)
    (m1 m2 : string) s :
  (forall cp s1, exists t,
      f cp s1 = (mkSys (world s1) (st s1) (trace s1 ++ t), inl (g (stdout cp))) /\
      mutations t = [] /\ Forall no_enter t) ->
  exists t,
    try_except (debug m1 ;; o ← subprocess_run c true true; f o) is_Exception
               (fun e => debug m2 ;; ret None) s =
    (mkSys (fst (os_spawn c (world s))) (st s) (trace s ++ t),
     inl (match answer_of (snd (os_spawn c (world s))) with
          | Some o => g o
          | None => None
          end)) /\
    mutations t = [Spawn c] /\ Forall no_enter t.
Proof.
  intros Hf. unfold try_except, debug, out, ret.
  unfold bind at 1 2. rewrite run_subprocess.
  destruct (completed true true c (snd (os_spawn c (world (emit (Out DEBUG m1) s)))))
    as [cp | e] eqn:Hc.
  - destruct (Hf cp (set_world (fst (os_spawn c (world (emit (Out DEBUG m1) s))))
                       (emit (Spawn c) (emit (Out DEBUG m1) s)))) as (t & Ht & Hm & Hn).
    rewrite Ht. cbn [world st trace emit set_world] in *.
    rewrite (completed_answer _ _ _ Hc).
    exists ([Out DEBUG m1; Spawn c] ++ t). split; [by rewrite <- !app_assoc |]. split.
    + rewrite mutations_app, Hm. reflexivity.
    + apply Forall_app. split; [by repeat constructor | done].
  - rewrite (completed_Exception _ _ _ _ _ Hc). unfold bind.
    cbn [world st trace emit set_world] in *.
    rewrite (completed_no_answer _ _ _ Hc).
    exists [Out DEBUG m1; Spawn c; Out DEBUG m2].
    split; [unfold emit, set_world; cbn [world st trace]; by rewrite <- !app_assoc |].
    split; [reflexivity | by repeat constructor].
Qed.

(** What the three probes do with the output of their child. *)
Lemma first_probe_reads cp s1 :
  exists t,
    (let ver := str_strip (stdout cp) in
     info ("Detected PHP version via php binary: " +:+ ver) ;; ret (Some ver)) s1 =
    (mkSys (world s1) (st s1) (trace s1 ++ t), inl (Some (str_strip (stdout cp)))) /\
    mutations t = [] /\ Forall no_enter t.
Proof.
  cbv zeta. unfold bind, info, out, ret, emit. cbn [world st trace].
  eexists. split; [reflexivity |]. split; [reflexivity | by repeat constructor].
Qed.

Lemma second_probe_reads cp s1 :
  exists t,
    match re_search1 "Candidate:.*php(\d+\.\d+)" (stdout cp) with
    | Some ver => info ("Detected PHP version via apt-cache: " +:+ ver) ;; ret (Some ver)
    | None => ret None
    end s1 =
    (mkSys (world s1) (st s1) (trace s1 ++ t),
     inl (re_search1 "Candidate:.*php(\d+\.\d+)" (stdout cp))) /\
    mutations t = [] /\ Forall no_enter t.
Proof.
  destruct (re_search1 _ _) as [ver |].
  - unfold bind, info, out, ret, emit. cbn [world st trace].
    eexists. split; [reflexivity |]. split; [reflexivity | by repeat constructor].
  - exists []. destruct s1 as [w0 st0 tr0]. unfold ret. cbn [world st trace]. rewrite app_nil_r. by repeat split.
Qed.

Lemma third_probe_reads cp s1 :
  exists t,
    match re_findall "php(\d+\.\d+)-fpm" (stdout cp) with
    | [] => ret None
    | versions =>
        let ver := str_max versions in
        info ("Using latest available php-fpm in apt cache: " +:+ ver) ;;
        debug "Available PHP versions found" ;;
        ret (Some ver)
    end s1 =
    (mkSys (world s1) (st s1) (trace s1 ++ t),
     inl (match re_findall "php(\d+\.\d+)-fpm" (stdout cp) with
          | [] => None
          | versions => Some (str_max versions)
          end)) /\
    mutations t = [] /\ Forall no_enter t.
Proof.
  destruct (re_findall _ _) as [| v l].
  - exists []. destruct s1 as [w0 st0 tr0]. unfold ret. cbn [world st trace]. rewrite app_nil_r. by repeat split.
  - cbv zeta. unfold bind, info, debug, out, ret, emit. cbn [world st trace].
    eexists [_; _]. split; [by rewrite <- !app_assoc |].
    split; [reflexivity | by repeat constructor].
Qed.

End Guarded.

(** ** The order of strings *)

Lemma ascii_compare_lt_trans a b c :
  Ascii.compare a b = Lt -> Ascii.compare b c = Lt -> Ascii.compare a c = Lt.
Proof.
  unfold Ascii.compare. rewrite !N.compare_lt_iff. lia.
Qed.

Lemma string_compare_refl a : String.compare a a = Eq.
Proof.
  induction a as [| c a IH]; cbn [String.compare]; [done |].
  unfold Ascii.compare. by rewrite N.compare_refl.
Qed.

Lemma string_compare_lt_trans a b c :
  String.compare a b = Lt -> String.compare b c = Lt -> String.compare a c = Lt.
Proof.
  revert b c. induction a as [| x a IH]; intros [| y b] [| z c]; cbn [String.compare];
    try done.
  destruct (Ascii.compare x y) eqn:Hxy; try done.
  - apply Ascii.compare_eq_iff in Hxy. subst y.
    destruct (Ascii.compare x z) eqn:Hxz; try done. apply IH.
  - destruct (Ascii.compare y z) eqn:Hyz; try done.
    + apply Ascii.compare_eq_iff in Hyz. subst z. by rewrite Hxy.
    + by rewrite (ascii_compare_lt_trans x y z Hxy Hyz).
Qed.

Lemma string_leb_refl a : String.leb a a = true.
Proof. unfold String.leb. by rewrite string_compare_refl. Qed.

Lemma string_leb_trans a b c :
  String.leb a b = true -> String.leb b c = true -> String.leb a c = true.
Proof.
  unfold String.leb.
  destruct (String.compare a b) eqn:Hab; try done;
    destruct (String.compare b c) eqn:Hbc; try done; intros _ _.
  - apply String.compare_eq_iff in Hab, Hbc. subst. by rewrite string_compare_refl.
  - apply String.compare_eq_iff in Hab. subst. by rewrite Hbc.
  - apply String.compare_eq_iff in Hbc. subst. by rewrite Hab.
  - by rewrite (string_compare_lt_trans a b c Hab Hbc).
Qed.

Lemma string_leb_empty a : String.leb a "" = true -> a = "".
Proof. by destruct a. Qed.

(** [sorted(l)[-1]] is an element of [l] that no element exceeds. *)
Lemma str_max_in l : l <> [] -> In (str_max l) l.
Proof.
  induction l as [| a l IH]; [done |]. intros _. unfold str_max. cbn [fold_right].
  fold (str_max l). destruct (String.leb a (str_max l)) eqn:Hle; [| by left].
  destruct l as [| b l]; [| right; by apply IH].
  left. by apply string_leb_empty.
Qed.

Lemma str_max_upper l x : In x l -> String.leb x (str_max l) = true.
Proof.
  induction l as [| a l IH]; [done |]. unfold str_max. cbn [fold_right].
  fold (str_max l). intros [<- | Hin].
  - destruct (String.leb a (str_max l)) eqn:Hle; [done | apply string_leb_refl].
  - specialize (IH Hin). destruct (String.leb a (str_max l)) eqn:Hle; [done |].
    destruct (String.leb_total a (str_max l)) as [Hl | Hl]; [congruence |].
    by eapply string_leb_trans.
Qed.

(** ** The detection of the PHP version *)

(** The probe at the head of the computation in [E]. *)
Ltac probe E g Hreads t Hp Hm Hn :=
  lazymatch type of E with
  | bind (try_except (bind (debug ?m1) (fun _ => bind (subprocess_run ?c true true) ?f))
                     is_Exception (fun e => bind (debug ?m2) (fun _ => ret None))) ?k ?s0 = _ =>
      destruct (probe_try c f g m1 m2 s0 Hreads) as (t & Hp & Hm & Hn);
      call E Hp; clear Hp; cbn [world st trace emit] in E
  end.

Section PhpVersion.
Context `{Env}.

(** The whole of [detect_php_version], probe by probe. *)
Lemma detect_php_version_outcome (d : bool) (s : Sys) :
  let r1 := os_spawn php_probe (world s) in
  let r2 := os_spawn apt_policy_probe (fst r1) in
  let r3 := os_spawn apt_search_probe (fst r2) in
  let v1 := match answer_of (snd r1) with
            | Some o => Some (str_strip o)
            | None => None
            end in
  let v2 := match answer_of (snd r2) with
            | Some o => re_search1 "Candidate:.*php(\d+\.\d+)" o
            | None => None
            end in
  let v3 := match answer_of (snd r3) with
            | Some o => match re_findall "php(\d+\.\d+)-fpm" o with
                        | [] => None
                        | versions => Some (str_max versions)
                        end
            | None => None
            end in
  exists t,
    detect_php_version d s =
      match v1, v2 with
      | Some ver, _ => (mkSys (fst r1) (st s) (trace s ++ t), inl ver)
      | None, Some ver => (mkSys (fst r2) (st s) (trace s ++ t), inl ver)
      | None, None => (mkSys (fst r3) (st s) (trace s ++ t), inl (default "8.1" v3))
      end /\
    mutations t =
      map Spawn (take (match v1, v2 with Some _, _ => 1 | None, Some _ => 2 | _, _ => 3 end)
                      php_probes) /\
    Forall no_enter t /\
    (v1 = None -> v2 = None -> v3 = None ->
     exists t', t = t' ++ [Out WARNING "Falling back to PHP 8.1"]).
Proof.
  intros r1 r2 r3 v1 v2 v3.
  destruct (detect_php_version d s) as [s' r] eqn:E.
  unfold detect_php_version in E. step E.
  probe E (fun o => Some (str_strip o)) first_probe_reads t1 Hp1 Hm1 Hn1.
  fold php_probe r1 in E. fold v1 in E.
  destruct v1 as [ver1 |] eqn:Hv1.
  { step E. rewrite <- E. eexists. split; [by rewrite <- !app_assoc |].
    split; [by rewrite mutations_app, Hm1 |].
    split; [apply Forall_app; split; [by repeat constructor | done] | done]. }
  probe E (fun o => re_search1 "Candidate:.*php(\d+\.\d+)" o) second_probe_reads t2 Hp2 Hm2 Hn2.
  fold apt_policy_probe r2 in E. fold v2 in E.
  destruct v2 as [ver2 |] eqn:Hv2.
  { step E. rewrite <- E. eexists. split; [by rewrite <- !app_assoc |].
    split; [by rewrite !mutations_app, Hm1, Hm2 |].
    split; [| done].
    repeat (apply Forall_app; split); by repeat constructor. }
  probe E (fun o => match re_findall "php(\d+\.\d+)-fpm" o with
                    | [] => None
                    | versions => Some (str_max versions)
                    end) third_probe_reads t3 Hp3 Hm3 Hn3.
  fold apt_search_probe r3 in E. fold v3 in E.
  destruct v3 as [ver3 |] eqn:Hv3.
  { step E. rewrite <- E. eexists. split; [by rewrite <- !app_assoc |].
    split; [by rewrite !mutations_app, Hm1, Hm2, Hm3 |].
    split; [| done].
    repeat (apply Forall_app; split); by repeat constructor. }
  step E. rewrite <- E. eexists. split.
  { unfold emit; cbn [world st trace default]. by rewrite <- !app_assoc. }
  split; [by rewrite !mutations_app, Hm1, Hm2, Hm3 |].
  split; [repeat (apply Forall_app; split); by repeat constructor |].
  intros _ _ _. eexists. by rewrite !app_assoc.
Qed.

(** X6. [detect_php_version] always returns a version: every failure of
    a probe is caught.  It starts one, two or three child processes, the
    probes in the order of the source, and nothing else; it leaves [state]
    alone; and it does the same in a dry run as in a real one. *)
Theorem detect_php_version_always_returns (d : bool) (s : Sys) :
  let r := detect_php_version d s in
  (exists ver, snd r = inl ver) /\
  (exists n, 1 <= n <= 3 /\
     mutations (trace (fst r)) = mutations (trace s) ++ map Spawn (take n php_probes)) /\
  st (fst r) = st s /\
  detect_php_version true s = detect_php_version false s.
Proof.
  intros r. subst r.
  destruct (detect_php_version_outcome d s) as (t & Hr & Hm & _). cbv zeta in Hr, Hm.
  split; [| split; [| split; [| reflexivity]]].
  - rewrite Hr. repeat case_match; by eexists.
  - revert Hm. rewrite Hr. repeat case_match; intros Hm; cbn [fst trace];
      rewrite mutations_app, Hm;
      first [ exists 1; split; [lia | done] | exists 2; split; [lia | done]
            | exists 3; split; [lia | done] ].
  - rewrite Hr. by repeat case_match.
Qed.


(** X8. The third probe picks the greatest version in the order of
    strings: when the first two probes yield nothing and the search of the
    package cache finds the versions [l], the result is an element of [l]
    that no element of [l] exceeds ([sorted(versions)[-1]]). *)
Theorem detect_php_version_picks_greatest (d : bool) (s : Sys) (o : string) :
  let r1 := os_spawn php_probe (world s) in
  let r2 := os_spawn apt_policy_probe (fst r1) in
  let r3 := os_spawn apt_search_probe (fst r2) in
  let l := re_findall "php(\d+\.\d+)-fpm" o in
  answer_of (snd r1) = None ->
  (forall o2, answer_of (snd r2) = Some o2 ->
              re_search1 "Candidate:.*php(\d+\.\d+)" o2 = None) ->
  answer_of (snd r3) = Some o ->
  l <> [] ->
  exists ver, snd (detect_php_version d s) = inl ver /\ In ver l /\
              forall x, In x l -> String.leb x ver = true.
Proof.
  intros r1 r2 r3 l H1 H2 H3 Hl.
  destruct (detect_php_version_outcome d s) as (t & Hr & _).
  cbv zeta in Hr. fold r1 r2 r3 in Hr. rewrite H1, H3 in Hr. fold l in Hr.
  assert (Hv2 : match answer_of (snd r2) with
                | Some o2 => re_search1 "Candidate:.*php(\d+\.\d+)" o2
                | None => None
                end = None).
  { destruct (answer_of (snd r2)) as [o2 |] eqn:Ha; [by apply H2 | done]. }
  rewrite Hv2 in Hr. rewrite Hr. exists (str_max l).
  split; [by destruct l |]. split; [by apply str_max_in | apply str_max_upper].
Qed.

End PhpVersion.

(** ** The utility functions, call by call *)

(** The state that a sequence of log lines and primitives leaves. *)
Ltac no_enters :=
  repeat lazymatch goal with
         | |- Forall _ (_ ++ _) => apply Forall_app; split
         | |- Forall _ (_ :: _) => constructor; [exact I |]
         | |- Forall _ [] => constructor
         | |- Forall _ _ => assumption
         end.

Lemma sys_eq `{Env} (x : Sys) w t tr :
  world x = w -> st x = t -> trace x = tr -> x = mkSys w t tr.
Proof. destruct x as [w0 t0 tr0]. cbn. by intros -> -> ->. Qed.

Lemma sys_pair_eq `{Env} {A} (x : Sys) w t tr (v v' : A) :
  world x = w -> st x = t -> trace x = tr -> v = v' -> (x, v) = (mkSys w t tr, v').
Proof. intros Hw Ht Htr ->. f_equal. by apply sys_eq. Qed.

Ltac norm_proj := cbn [world st trace emit set_world set_fs set_st fs ext].

Ltac norm_trace := norm_proj; rewrite <- ?app_assoc.

Ltac trace_eq :=
  apply sys_eq; [norm_proj; reflexivity | norm_proj; reflexivity | norm_trace; reflexivity].

(** The outcome is explicit: name the events that were added. *)
Ltac added_events :=
  eexists; split;
  [ apply sys_pair_eq;
    [norm_proj; reflexivity | norm_proj; reflexivity | norm_trace; reflexivity | reflexivity]
  | split; [reflexivity | no_enters] ].

Section Calls2.
Context `{Env}.

Lemma sys_eta (s : Sys) : mkSys (world s) (st s) (trace s) = s.
Proof. by destruct s. Qed.

Lemma run_cmd_simulated cmd c k dry s :
  dry && negb (executing (st s)) = true ->
  exists t,
    run_cmd cmd c k dry s =
      (mkSys (world s) (st s) (trace s ++ t), inl (mkCP (Shell cmd) 0 "" "")) /\
    mutations t = [] /\ Forall no_enter t.
Proof.
  intros Hmode. destruct (run_cmd cmd c k dry s) as [s' r] eqn:E.
  unfold run_cmd in E. exec E. rewrite Hmode in E. exec E.
  split_ifs E; injection E as <- <-; added_events.
Qed.

Lemma run_cmd_performed cmd c k dry s :
  dry && negb (executing (st s)) = false ->
  exists t,
    run_cmd cmd c k dry s =
      (mkSys (fst (os_spawn (Shell cmd) (world s))) (st s) (trace s ++ t),
       completed k c (Shell cmd) (snd (os_spawn (Shell cmd) (world s)))) /\
    mutations t = [Spawn (Shell cmd)] /\ Forall no_enter t.
Proof.
  intros Hmode. destruct (run_cmd cmd c k dry s) as [s' r] eqn:E.
  unfold run_cmd in E. exec E. rewrite Hmode in E. exec E.
  rewrite run_subprocess in E. exec E.
  destruct (os_spawn (Shell cmd) (world s)) as [w' [rc o e |]] eqn:Hsp;
    cbn [fst snd completed] in *.
  - destruct (k && negb (rc =? 0)%Z) eqn:Hk; exec E.
    + destruct c; exec E; split_ifs E; injection E as <- <-; added_events.
    + destruct c; exec E; split_ifs E; injection E as <- <-; added_events.
  - exec E. injection E as <- <-. added_events.
Qed.

Lemma mysql_exec_simulated sql dry s :
  dry && negb (executing (st s)) = true ->
  exists t,
    mysql_exec sql dry s = (mkSys (world s) (st s) (trace s ++ t), inl tt) /\
    mutations t = [] /\ Forall no_enter t.
Proof.
  intros Hmode. destruct (mysql_exec sql dry s) as [s' r] eqn:E.
  unfold mysql_exec in E. exec E. rewrite Hmode in E. exec E.
  split_ifs E; injection E as <- <-; added_events.
Qed.

Lemma mysql_exec_performed sql dry s :
  dry && negb (executing (st s)) = false ->
  exists t,
    mysql_exec sql dry s =
      (mkSys (fst (os_spawn (mysql_cmd sql) (world s))) (st s) (trace s ++ t),
       match completed true true (mysql_cmd sql) (snd (os_spawn (mysql_cmd sql) (world s))) with
       | inl _ => inl tt
       | inr e => inr e
       end) /\
    mutations t = [Spawn (mysql_cmd sql)] /\ Forall no_enter t.
Proof.
  intros Hmode. destruct (mysql_exec sql dry s) as [s' r] eqn:E.
  unfold mysql_exec in E. exec E. rewrite Hmode in E. exec E.
  rewrite run_subprocess in E. exec E. fold (mysql_cmd sql) in E.
  destruct (os_spawn (mysql_cmd sql) (world s)) as [w' [rc o e |]] eqn:Hsp;
    cbn [fst snd completed andb] in *.
  - destruct (negb (rc =? 0)%Z) eqn:Hk; exec E;
      split_ifs E; injection E as <- <-; added_events.
  - exec E. injection E as <- <-. added_events.
Qed.

End Calls2.

Lemma is_prefix_app p q : is_prefix p (p ++ q) = true.
Proof. induction p as [| a p IH]; cbn; [done |]. by rewrite String.eqb_refl, IH. Qed.

Lemma is_prefix_last l n m : is_prefix (l ++ [n]) (l ++ [m]) = String.eqb n m.
Proof.
  induction l as [| a l IH]; cbn; [by rewrite andb_true_r |].
  by rewrite String.eqb_refl, IH.
Qed.

Lemma with_name_not_prefix p n : n <> name p -> is_prefix (with_name p n) p = false.
Proof.
  intros Hn. unfold with_name, parent. destruct p as [| a p]; [done |].
  assert (Hp : a :: p <> []) by done.
  rewrite (app_removelast_last "" Hp) at 2. rewrite is_prefix_last.
  apply String.eqb_neq. exact Hn.
Qed.

Lemma backup_name_parts (p : path) (ts : string) :
  let bak := with_name p (name p +:+ ".bak-" +:+ ts) in
  parent bak = parent p /\ name bak = name p +:+ ".bak-" +:+ ts /\
  is_prefix bak p = false.
Proof.
  intros bak. split; [apply removelast_last |]. split; [apply last_last |].
  apply with_name_not_prefix. intros E. apply (f_equal String.length) in E.
  rewrite !string_length_append in E. cbn in E. lia.
Qed.

(** What [shutil.move] does to the tree it moves and to the rest. *)
Lemma apply_fs_Move src dst f :
  is_prefix dst src = false ->
  (forall rest, apply_fs (Move src dst) f (dst ++ rest) = f (src ++ rest)) /\
  apply_fs (Move src dst) f src = None /\
  (forall q, is_prefix src q = false -> is_prefix dst q = false ->
             apply_fs (Move src dst) f q = f q).
Proof.
  intros Hds. cbn [apply_fs]. split; [| split].
  - intros rest. by rewrite is_prefix_app, drop_app_length.
  - by rewrite Hds, is_prefix_refl.
  - intros q Hs Hd. by rewrite Hd, Hs.
Qed.

Section Utilities.
Context `{Env}.

(** X9. [fetch_latest_wordpress_download_url] never raises and changes
    nothing: it sends one request, to the version API.  It returns the
    version and the URL of the first offer when that offer has a download
    URL (the version is ["latest"] when the offer names none), and
    ["latest"] with https://wordpress.org/latest.tar.gz when the request
    fails, when there is no offer, or when the first offer has no
    download URL. *)
Theorem fetch_latest_result (s : Sys) :
  let r := fetch_latest_wordpress_download_url s in
  let reply := wp_version_api (world s) in
  world (fst r) = world s /\ st (fst r) = st s /\
  (exists t, trace (fst r) = trace s ++ t /\ mutations t = [] /\
     omap (fun e => match e with Net u => Some u | _ => None end) t =
       ["https://api.wordpress.org/core/version-check/1.7/"]) /\
  (forall offer rest url,
     reply = Some (offer :: rest) -> download offer = Some url -> url <> "" ->
     snd r = inl (default "latest" (current offer), url)) /\
  (reply = None \/ reply = Some [] \/
   (exists offer rest, reply = Some (offer :: rest) /\
      (download offer = None \/ download offer = Some "")) ->
   snd r = inl ("latest", "https://wordpress.org/latest.tar.gz")).
Proof.
  intros r reply. subst r.
  destruct (fetch_latest_wordpress_download_url s) as [s' r] eqn:E.
  unfold fetch_latest_wordpress_download_url in E. step E. fold reply in E.
  destruct reply as [[| o l] |] eqn:Hreply; cbv beta iota in E; step E.
  - injection E as <- <-. cbn [fst snd].
    split; [done |]. split; [done |]. split.
    { norm_trace. eexists. split; [reflexivity |]. by split. }
    split; [by intros ? ? ? [=] |]. done.
  - destruct (download o) as [url |] eqn:Hd; cbv beta iota in E; step E.
    + destruct (nonempty url) eqn:Hne; cbv beta iota in E; step E;
        injection E as <- <-; cbn [fst snd];
        (split; [done |]); (split; [done |]);
        (split; [norm_trace; eexists; split; [reflexivity |]; by split |]).
      * split.
        -- intros offer rest url' [= <- <-] Hd' _. rewrite Hd in Hd'. by injection Hd' as <-.
        -- intros [[=] | [[=] | (offer & rest & [= <- <-] & Hd')]].
           rewrite Hd in Hd'. destruct Hd' as [[=] | [= ->]]. discriminate.
      * unfold nonempty in Hne. apply negb_false_iff, String.eqb_eq in Hne. subst url.
        split; [| done].
        intros offer rest url' [= <- <-] Hd' Hu. rewrite Hd in Hd'. by injection Hd' as <-.
    + injection E as <- <-. cbn [fst snd].
      split; [done |]. split; [done |]. split.
      { norm_trace. eexists. split; [reflexivity |]. by split. }
      split; [| done].
      intros offer rest url' [= <- <-] Hd' _. by rewrite Hd in Hd'.
  - injection E as <- <-. cbn [fst snd].
    split; [done |]. split; [done |]. split.
    { norm_trace. eexists. split; [reflexivity |]. by split. }
    split; [by intros ? ? ? [=] |]. done.
Qed.

(** X10. [mysql_exec] in a simulation starts no child and changes nothing.
    Otherwise it starts the client once, with the statement as one
    argument of the argument vector (no shell reads it); it returns when
    the client exits with status 0, raises CalledProcessError with the
    status and the captured output when the status is not 0, and raises
    OSError when the client cannot be started.  It never assigns to
    [state]. *)
Theorem mysql_exec_contract (sql : string) (dry : bool) (s : Sys) :
  let r := mysql_exec sql dry s in
  let child := os_spawn (mysql_cmd sql) (world s) in
  st (fst r) = st s /\
  (dry && negb (executing (st s)) = true ->
     snd r = inl tt /\ world (fst r) = world s /\
     mutations (trace (fst r)) = mutations (trace s)) /\
  (dry && negb (executing (st s)) = false ->
     world (fst r) = fst child /\
     mutations (trace (fst r)) = mutations (trace s) ++ [Spawn (mysql_cmd sql)] /\
     (forall o e, snd child = Exited 0 o e -> snd r = inl tt) /\
     (forall rc o e, snd child = Exited rc o e -> rc <> 0%Z ->
                     snd r = inr (CalledProcessError rc o e)) /\
     (snd child = SpawnFailed -> snd r = inr (OSError "cannot execute"))).
Proof.
  intros r child. subst r.
  destruct (dry && negb (executing (st s))) eqn:Hmode.
  - destruct (mysql_exec_simulated sql dry s Hmode) as (t & -> & Hm & _). cbn [fst snd].
    split; [done |]. split; [| done]. intros _. split; [done |]. split; [done |].
    cbn [trace]. by rewrite mutations_app, Hm, app_nil_r.
  - destruct (mysql_exec_performed sql dry s Hmode) as (t & -> & Hm & _). cbn [fst snd].
    fold child. split; [done |]. split; [done |]. intros _. split; [done |].
    split; [cbn [trace]; by rewrite mutations_app, Hm |].
    split; [| split].
    + intros o e ->. reflexivity.
    + intros rc o e -> Hrc. cbn [completed andb].
      by rewrite (proj2 (Z.eqb_neq rc 0) Hrc).
    + intros ->. reflexivity.
Qed.



End Utilities.

(** The statements that remain in [E] leave [state] alone. *)
Ltac rest_keeps_state E Hst :=
  cbv beta in E;
  lazymatch type of E with
  | ?m ?s0 = _ =>
      let Hm := fresh "Hm" in
      assert (Hm : keeps always (st_rel eq) m) by keeps_auto;
      destruct (Hm s0 I) as [Hst _];
      rewrite E in Hst; unfold st_rel in Hst; cbn [fst] in Hst; clear Hm
  end.

Section Calls3.
Context `{Env}.

Lemma run_raises {A B} (m : M A) (k : A -> M B) s s1 e :
  m s = (s1, inr e) -> bind m k s = (s1, inr e).
Proof. intros Hm. unfold bind. by rewrite Hm. Qed.

Lemma run_lib_op {B} op (k : unit -> M B) s :
  bind (lib_op op) k s =
  if snd (os_lib op (world s))
  then k tt (set_world (fst (os_lib op (world s))) (emit (Lib op) s))
  else (set_world (fst (os_lib op (world s))) (emit (Lib op) s),
        inr (OSError "library call failed")).
Proof. unfold bind, lib_op. by destruct (os_lib op (world s)) as [w' [|]]. Qed.

Lemma completed_raises check capture c r e :
  completed check capture c r = inr e ->
  (exists rc o e', e = CalledProcessError rc o e' /\ rc <> 0%Z) \/
  e = OSError "cannot execute".
Proof.
  destruct r as [rc o e' |]; cbn [completed]; [| intros [= <-]; by right].
  destruct check; cbn [andb]; [| done].
  destruct (Z.eqb_spec rc 0); cbn [negb]; [done |].
  intros [= <-]. left. by eexists _, _, _.
Qed.

(** [download_and_extract_wp], up to the download. *)
Lemma download_and_extract_wp_outcome (url : string) (dest : path) (dry : bool) (s : Sys) :
  let d := mkdtemp_name "wpdl_" (world s) in
  let archive := child d ("wp" +:+ (if ends_with url ".zip" then ".zip" else ".tar.gz")) in
  let w1 := mkWorld (apply_fs (Mkdtemp d) (fs (world s))) (ext (world s)) in
  let r := download_and_extract_wp url dest dry s in
  (io_fault (Mkdtemp d) (world s) = true ->
     snd r = inr (OSError "I/O error") /\ st (fst r) = st s) /\
  (io_fault (Mkdtemp d) (world s) = false ->
     st (fst r) = set_tmp_dirs (tmp_dirs (st s) ++ [path_str d]) (st s) /\
     (exists rest, mutations (trace (fst r)) =
                   mutations (trace s) ++ Fs (Mkdtemp d) :: rest) /\
     (dry && negb (executing (st s)) = true ->
        snd r = inl tt /\ world (fst r) = w1 /\
        mutations (trace (fst r)) = mutations (trace s) ++ [Fs (Mkdtemp d)]) /\
     (dry && negb (executing (st s)) = false ->
        snd (os_lib (UrlRetrieve url archive) w1) = false ->
        snd r = inr (RuntimeError
                       "Failed to download WordPress archive: library call failed") /\
        world (fst r) = fst (os_lib (UrlRetrieve url archive) w1) /\
        fs w1 d = Some Dir /\
        mutations (trace (fst r)) =
          mutations (trace s) ++ [Fs (Mkdtemp d); Lib (UrlRetrieve url archive)])).
Proof.
  intros d archive w1 r. subst r.
  destruct (download_and_extract_wp url dest dry s) as [s' r] eqn:E.
  unfold download_and_extract_wp in E. step E. unfold mkdtemp at 1 in E. step E.
  fold d in E. split; intros Hio; step E.
  - injection E as <- <-. by cbn [fst snd st emit set_fs set_world].
  - fold w1 in E. fold archive in E. split; [| split; [| split]].
    + by rest_keeps_state E Hst.
    + rest_is_tame E t Ht. cbn [fst]. rewrite Ht. exists (mutations t). by mut_simpl.
    + intros Hmode. rewrite Hmode in E. step E. cbn [nonempty String.eqb negb when] in E.
      step E. injection E as <- <-. cbn [fst snd world emit set_st set_world].
      split; [done |]. split; [done |]. by mut_simpl.
    + intros Hmode Hlib. rewrite Hmode in E. step E.
      lazymatch type of E with
      | bind (try_except ?b ?c ?h) ?k ?s0 = _ =>
          eassert (Eb : b s0 = _)
            by (rewrite run_lib_op; cbn [world emit set_st set_world set_fs];
                fold w1; rewrite Hlib; reflexivity);
          replace_lhs E (run_try_caught b c h k s0 _ _ Eb eq_refl); clear Eb
      end.
      step E. injection E as <- <-. cbn [fst snd world emit set_st set_world exn_str].
      split; [done |]. split; [by fold w1 |].
      split; [apply fs_set_same | by mut_simpl].
Qed.

(** X13. [download_and_extract_wp] creates its temporary directory first,
    in either mode, and records it in [state["tmp_dirs"]] at once: when
    [tempfile.mkdtemp] succeeded, [state] after the call is [state] before
    it with the directory appended to [tmp_dirs], however the call ends.
    In a simulation the creation of the directory is the only mutation.
    Otherwise the archive is fetched into [wp.zip] or [wp.tar.gz] in that
    directory, by the suffix of the URL, and a failed download raises
    RuntimeError and leaves the directory in place. *)
Theorem download_records_its_directory (url : string) (dest : path) (dry : bool) (s : Sys) :
  let d := mkdtemp_name "wpdl_" (world s) in
  let archive := child d ("wp" +:+ (if ends_with url ".zip" then ".zip" else ".tar.gz")) in
  let w1 := mkWorld (apply_fs (Mkdtemp d) (fs (world s))) (ext (world s)) in
  let r := download_and_extract_wp url dest dry s in
  (io_fault (Mkdtemp d) (world s) = true ->
     snd r = inr (OSError "I/O error") /\ st (fst r) = st s) /\
  (io_fault (Mkdtemp d) (world s) = false ->
     st (fst r) = set_tmp_dirs (tmp_dirs (st s) ++ [path_str d]) (st s) /\
     (exists rest, mutations (trace (fst r)) =
                   mutations (trace s) ++ Fs (Mkdtemp d) :: rest) /\
     (dry && negb (executing (st s)) = true ->
        snd r = inl tt /\ world (fst r) = w1 /\
        mutations (trace (fst r)) = mutations (trace s) ++ [Fs (Mkdtemp d)]) /\
     (dry && negb (executing (st s)) = false ->
        snd (os_lib (UrlRetrieve url archive) w1) = false ->
        snd r = inr (RuntimeError
                       "Failed to download WordPress archive: library call failed") /\
        world (fst r) = fst (os_lib (UrlRetrieve url archive) w1) /\
        fs w1 d = Some Dir /\
        mutations (trace (fst r)) =
          mutations (trace s) ++ [Fs (Mkdtemp d); Lib (UrlRetrieve url archive)])).
Proof. apply download_and_extract_wp_outcome. Qed.

End Calls3.

(** ** The steps, command by command *)

(** The command at the head of [E] is started, since the run is not a
    simulation: it completes ([cp]) or raises ([e]). *)
Ltac run_cmd_here E t Hm Hn cp e Hc :=
  lazymatch type of E with
  | bind (run_cmd ?cmd ?c ?k ?d) ?kk ?s0 = _ =>
      let Hr := fresh "Hr" in
      let w0 := eval cbn [world st trace emit] in (world s0) in
      destruct (run_cmd_performed cmd c k d s0 eq_refl) as (t & Hr & Hm & Hn);
      cbn [world st trace emit] in Hr;
      destruct (completed k c (Shell cmd) (snd (os_spawn (Shell cmd) w0)))
        as [cp | e] eqn:Hc;
      [ replace_lhs E (run_call _ kk s0 _ _ Hr)
      | replace_lhs E (run_raises _ kk s0 _ _ Hr) ];
      clear Hr; cbv beta in E
  end.

Ltac mysql_here E t Hm Hn e Hc :=
  lazymatch type of E with
  | bind (mysql_exec ?sql ?d) ?kk ?s0 = _ =>
      let Hr := fresh "Hr" in
      let cp := fresh "cp" in
      let w0 := eval cbn [world st trace emit] in (world s0) in
      destruct (mysql_exec_performed sql d s0 eq_refl) as (t & Hr & Hm & Hn);
      cbn [world st trace emit] in Hr;
      destruct (completed true true (mysql_cmd sql)
                  (snd (os_spawn (mysql_cmd sql) w0))) as [cp | e] eqn:Hc;
      [ replace_lhs E (run_call _ kk s0 _ _ Hr)
      | replace_lhs E (run_raises _ kk s0 _ _ Hr) ];
      clear Hr; cbv beta in E
  end.

(** The mutations of a trace that the run has built event by event. *)
Ltac muts :=
  cbn [fst snd trace emit set_fs set_world set_st world st];
  repeat rewrite mutations_app;
  repeat match goal with Hm : mutations _ = _ |- _ => rewrite Hm end;
  cbn [mutations List.filter is_mutation app map firstn];
  repeat rewrite app_nil_r;
  repeat rewrite <- app_assoc;
  cbn [app].

Section Steps.
Context `{Env}.


(** The guarded configuration of the socket authentication: whatever the
    child does, the block returns. *)
Lemma alter_user_is_guarded (c : cmdline) (m1 m2 : string) (msg : Exn -> string) s :
  exists t,
    try_except (debug m1 ;; subprocess_run c false true ;; info m2) is_Exception
               (fun e => warning (msg e)) s =
    (mkSys (fst (os_spawn c (world s))) (st s) (trace s ++ t), inl tt) /\
    mutations t = [Spawn c] /\ Forall no_enter t.
Proof.
  unfold try_except, debug, info, warning, out. unfold bind at 1 2.
  rewrite run_subprocess.
  destruct (completed false true c (snd (os_spawn c (world (emit (Out DEBUG m1) s)))))
    as [cp | e] eqn:Hc.
  - unfold bind. added_events.
  - rewrite (completed_Exception _ _ _ _ _ Hc). added_events.
Qed.

(** A statement of the guarded block failed: the block ends there. *)
Ltac failed_statement E Eb k Hc :=
  injection Eb as <- <-;
  destruct (completed_raises _ _ _ _ _ Hc) as [(rc & o & e' & -> & Hrc) | ->];
  cbn [is_CalledProcessError] in E; step E; injection E as <- <-;
  exists k; (split; [lia |]); (split; [by muts |]); (split; [done |]);
  intros e [= <-]; [left; by eexists | by right].


End Steps.

(** The SQL statement at the head of [E] returns or raises; [state] is
    the same afterwards. *)
Ltac mysql_any E s1 e Hst :=
  lazymatch type of E with
  | bind (mysql_exec ?sql ?d) ?kk ?s0 = _ =>
      let Hr := fresh "Hr" in
      pose proof (st_mysql_exec eq (@eq_refl State) (@eq_trans State) sql d s0 I) as [Hst _];
      unfold st_rel in Hst;
      destruct (mysql_exec sql d s0) as [s1 [[] | e]] eqn:Hr; cbn [fst] in Hst;
      [ replace_lhs E (run_call _ kk s0 _ _ Hr)
      | replace_lhs E (run_raises _ kk s0 _ _ Hr) ];
      clear Hr; cbv beta in E
  end.

Section Steps2.
Context `{Env}.

Lemma step_create_database_state (cfg : Dict) (db user passwd ow dr : Val) (s : Sys) :
  cfg !! "db_name" = Some db -> cfg !! "db_user" = Some user ->
  cfg !! "db_pass" = Some passwd -> cfg !! "overwrite" = Some ow ->
  cfg !! "dry_run" = Some dr ->
  let r := step_create_database cfg s in
  let recorded := set_db_user user (set_db_name db (st s)) in
  (snd r = inl tt -> st (fst r) = set_created_db true recorded) /\
  (forall e, snd r = inr e -> st (fst r) = recorded).
Proof.
  intros Hdb Huser Hpass How Hdr r recorded. subst r recorded.
  destruct (step_create_database cfg s) as [s' r] eqn:E.
  unfold step_create_database in E. step E.
  destruct (truthy ow); step E.
  - mysql_any E s1 e1 Hst1.
    2:{ injection E as <- <-. cbn [fst snd]. split; [done |]. intros _ _.
        exact (eq_sym Hst1). }
    step E. mysql_any E s2 e2 Hst2.
    2:{ injection E as <- <-. cbn [fst snd]. split; [done |]. intros _ _.
        exact (eq_trans (eq_sym Hst2) (eq_sym Hst1)). }
    step E. injection E as <- <-. cbn [fst snd st emit set_st]. split; [| done].
    intros _. f_equal. exact (eq_trans (eq_sym Hst2) (eq_sym Hst1)).
  - mysql_any E s2 e2 Hst2.
    2:{ injection E as <- <-. cbn [fst snd]. split; [done |]. intros _ _.
        exact (eq_sym Hst2). }
    step E. injection E as <- <-. cbn [fst snd st emit set_st]. split; [| done].
    intros _. f_equal. exact (eq_sym Hst2).
Qed.

Lemma step_create_database_statements (cfg : Dict) (db user passwd ow dr : Val) (s : Sys) :
  cfg !! "db_name" = Some db -> cfg !! "db_user" = Some user ->
  cfg !! "db_pass" = Some passwd -> cfg !! "overwrite" = Some ow ->
  cfg !! "dry_run" = Some dr -> truthy dr = false ->
  let r := step_create_database cfg s in
  let stmts := (if truthy ow then [drop_sql db user] else []) ++
               [create_sql db user passwd] in
  exists n, 1 <= n <= length stmts /\
    mutations (trace (fst r)) =
      mutations (trace s) ++ map (fun q => Spawn (mysql_cmd q)) (take n stmts) /\
    (snd r = inl tt -> n = length stmts).
Proof.
  intros Hdb Huser Hpass How Hdr Htr r stmts. subst r stmts.
  destruct (step_create_database cfg s) as [s' r] eqn:E.
  unfold step_create_database in E. step E.
  destruct (truthy ow); step E.
  - rewrite Htr in E. mysql_here E t1 Hm1 Hn1 e1 Hc1.
    2:{ injection E as <- <-. exists 1. cbn [length app]. split; [lia |].
        split; [by muts | done]. }
    step E. rewrite Htr in E. mysql_here E t2 Hm2 Hn2 e2 Hc2.
    2:{ injection E as <- <-. exists 2. cbn [length app]. split; [lia |].
        split; [by muts | done]. }
    step E. injection E as <- <-. exists 2. cbn [length app]. split; [lia |].
    split; [by muts | done].
  - rewrite Htr in E. mysql_here E t2 Hm2 Hn2 e2 Hc2.
    2:{ injection E as <- <-. exists 1. cbn [length app]. split; [lia |].
        split; [by muts | done]. }
    step E. injection E as <- <-. exists 1. cbn [length app]. split; [lia |].
    split; [by muts | done].
Qed.



End Steps2.

(** ** Computations that return *)

Section Returns.
Context `{Env}.

Lemma returns_ret {A} (a : A) : returns (ret a).
Proof. intros s. by exists a. Qed.

Lemma returns_gets {A} (f : Sys -> A) : returns (gets f).
Proof. intros s. by eexists. Qed.

Lemma returns_out lvl msg : returns (out lvl msg).
Proof. intros s. by exists tt. Qed.

Lemma returns_enter r : returns (enter r).
Proof. intros s. by exists tt. Qed.

Lemma returns_modify_state f : returns (modify_state f).
Proof. intros s. by exists tt. Qed.

Lemma returns_bind {A B} (m : M A) (k : A -> M B) :
  returns m -> (forall a, returns (k a)) -> returns (bind m k).
Proof.
  intros Hm Hk s. unfold bind. destruct (Hm s) as [a Ha].
  destruct (m s) as [s1 [a' | e]]; [apply Hk | discriminate].
Qed.

Lemma returns_when b m : returns m -> returns (when b m).
Proof. intros Hm. destruct b; cbn [when]; [exact Hm | apply returns_ret]. Qed.

Lemma returns_for_each {A} (l : list A) body :
  (forall x, returns (body x)) -> returns (for_each l body).
Proof.
  intros Hb. induction l as [| x l IH]; cbn [for_each]; [apply returns_ret |].
  apply returns_bind; [apply Hb | intros _; exact IH].
Qed.

(** [try: body except Exception as e: h e] returns when the handler does
    and the body leaves only through [Exception]s. *)
Lemma returns_try_except {A} (m : M A) (h : Exn -> M A) :
  tame m -> (forall e, returns (h e)) -> returns (try_except m is_Exception h).
Proof.
  intros Hm Hh s. unfold try_except. destruct (Hm s) as [_ Hex].
  destruct (m s) as [s1 [a | e]]; [by exists a |].
  cbn [snd] in Hex. rewrite (Hex e eq_refl). apply Hh.
Qed.

Lemma returns_cfg_get {A} (cfg : Dict) key v (k : Val -> M A) :
  cfg !! key = Some v -> returns (k v) -> returns (bind (cfg_get cfg key) k).
Proof. intros Hv Hk s. unfold bind, cfg_get. rewrite Hv. apply Hk. Qed.

Lemma returns_cfg_dry_run {A} (cfg : Dict) v (k : bool -> M A) :
  cfg !! "dry_run" = Some v -> returns (k (truthy v)) -> returns (bind (cfg_dry_run cfg) k).
Proof. intros Hv Hk s. unfold bind, cfg_dry_run, cfg_get. rewrite Hv. apply Hk. Qed.

Lemma returns_fs_op op : (forall w, io_fault op w = false) -> returns (fs_op op).
Proof. intros Hok s. unfold fs_op. rewrite Hok. by exists tt. Qed.

Lemma returns_dry_run_print desc cmd : returns (dry_run_print desc cmd).
Proof.
  unfold dry_run_print. apply returns_bind; [apply returns_out | intros _].
  apply returns_when, returns_out.
Qed.

(** [remove_path] returns when the primitive it calls cannot fail. *)
Lemma returns_remove_path p d :
  (forall w, io_fault (Rmtree p) w = false) -> (forall w, io_fault (Unlink p) w = false) ->
  returns (remove_path p d).
Proof.
  intros Hr Hu. unfold remove_path, debug, info, path_exists, is_dir.
  repeat first
    [ apply returns_out | apply returns_gets | apply returns_dry_run_print
    | by apply returns_fs_op
    | apply returns_bind; [| intros ?]
    | match goal with |- returns (if ?b then _ else _) => destruct b end ].
Qed.

Lemma ends_bind e {A B} (m : M A) (k : A -> M B) :
  (forall a, ends_with_line e (k a)) -> ends_with_line e (bind m k).
Proof.
  intros Hk s s' b. unfold bind. destruct (m s) as [s1 [a | x]]; [apply Hk | discriminate].
Qed.

Lemma ends_out lvl msg : ends_with_line (Out lvl msg) (out lvl msg).
Proof. intros s s' [] [= <-]. by eexists. Qed.

Lemma returns_as_path {A} w (k : path -> M A) :
  returns (k (Path w)) -> returns (bind (as_path (VStr w)) k).
Proof. intros Hk s. apply Hk. Qed.

Lemma keeps_fs_op_adds_always P op : P (Fs op) -> keeps always (adds_only P) (fs_op op).
Proof.
  intros HP s _. unfold fs_op.
  destruct (io_fault op (world s)); (split; [| done]); exists [Fs op];
    (split; [done | by repeat constructor]).
Qed.

End Returns.

#[export] Hint Extern 1 (keeps always (adds_only _) (fs_op _)) =>
  apply keeps_fs_op_adds_always; exact I : keeps.

(** Decompose a computation along its syntax, reading the configuration
    from the hypotheses. *)
Ltac returns_step :=
  cbv beta;
  lazymatch goal with
  | |- returns (bind (cfg_get ?cfg ?key) _) =>
      match goal with
      | Hk : cfg !! key = Some ?v |- _ => apply (returns_cfg_get cfg key v _ Hk)
      end
  | |- returns (bind (cfg_dry_run ?cfg) _) =>
      match goal with
      | Hk : cfg !! "dry_run" = Some ?v |- _ => apply (returns_cfg_dry_run cfg v _ Hk)
      end
  | |- returns (bind (as_path (VStr _)) _) => apply returns_as_path
  | |- returns (bind _ _) => apply returns_bind; [| intros ?]
  | |- returns (when _ _) => apply returns_when
  | |- returns (for_each _ _) => apply returns_for_each; intros ?
  | |- returns (try_except _ is_Exception _) => apply returns_try_except; [tame_auto | intros ?]
  | |- returns (if ?b then _ else _) => destruct b
  | |- returns (remove_path _ _) => apply returns_remove_path; auto
  | |- returns (fs_op _) => apply returns_fs_op; auto
  | |- returns _ =>
      first [ apply returns_out | apply returns_enter | apply returns_gets
            | apply returns_ret | apply returns_modify_state
            | apply returns_dry_run_print ]
  end.

Ltac returns_auto := repeat returns_step.

Section Cleanup.
Context `{Env}.

(** X18. The guarded undo actions never abort the cleanup: when the
    removals of the web root, of the symlink and of the site
    configuration cannot fail, [cleanup_full] returns, with
    [Cleanup complete] as its last line, whatever the MySQL client does
    and whichever removals of temporary directories fail. *)
Theorem cleanup_full_survives_guarded_failures (cfg : Dict) (wr nc : string)
    (ow dr db user : Val) (s : Sys) :
  cfg !! "web_root" = Some (VStr wr) -> cfg !! "nginx_conf" = Some (VStr nc) ->
  cfg !! "overwrite" = Some ow -> cfg !! "dry_run" = Some dr ->
  cfg !! "db_name" = Some db -> cfg !! "db_user" = Some user ->
  let conf := Path nc in
  let symlink := child (Path "/etc/nginx/sites-enabled") (name conf) in
  (forall p w, In p [Path wr; symlink; conf] ->
               io_fault (Rmtree p) w = false /\ io_fault (Unlink p) w = false) ->
  let r := cleanup_full cfg s in
  snd r = inl tt /\ exists t, trace (fst r) = t ++ [Out SUCCESS "Cleanup complete"].
Proof.
  intros Hwr Hnc How Hdr Hdb Huser conf symlink Hok r. subst r.
  assert (Hr1 : forall w, io_fault (Rmtree (Path wr)) w = false)
    by (intros w; apply Hok; cbn; tauto).
  assert (Hu1 : forall w, io_fault (Unlink (Path wr)) w = false)
    by (intros w; apply Hok; cbn; tauto).
  assert (Hr2 : forall w, io_fault (Rmtree symlink) w = false)
    by (intros w; apply Hok; cbn; tauto).
  assert (Hu2 : forall w, io_fault (Unlink symlink) w = false)
    by (intros w; apply Hok; cbn; tauto).
  assert (Hr3 : forall w, io_fault (Rmtree conf) w = false)
    by (intros w; apply Hok; cbn; tauto).
  assert (Hu3 : forall w, io_fault (Unlink conf) w = false)
    by (intros w; apply Hok; cbn; tauto).
  assert (Hret : returns (cleanup_full cfg)).
  { unfold cleanup_full. fold conf. returns_auto. }
  assert (Hend : ends_with_line (Out SUCCESS "Cleanup complete") (cleanup_full cfg)).
  { unfold cleanup_full. repeat (apply ends_bind; intros ?). apply ends_out. }
  destruct (Hret s) as [[] Hr]. split; [exact Hr |].
  destruct (cleanup_full cfg s) as [s' r] eqn:E. cbn [snd] in Hr. subst r.
  by apply (Hend s s' tt).
Qed.

End Cleanup.

(** The statements that remain in [E] return and attempt only primitives
    of the file system. *)
Ltac rest_removes E t Ht Hfs :=
  cbv beta in E;
  lazymatch type of E with
  | ?m ?s0 = _ =>
      let Hm := fresh "Hm" in
      assert (Hm : keeps always (adds_only is_fs_event) m) by keeps_auto;
      destruct (Hm s0 I) as [(t & Ht & Hfs) _];
      rewrite E in Ht; cbn [fst] in Ht; clear Hm
  end.

(** The statements that remain in [E] return. *)
Ltac rest_returns E Hr :=
  cbv beta in E;
  lazymatch type of E with
  | ?m ?s0 = _ =>
      let Hm := fresh "Hm" in
      let a := fresh "a" in
      assert (Hm : returns m) by returns_auto;
      destruct (Hm s0) as [a Hr];
      rewrite E in Hr; cbn [snd] in Hr; clear Hm
  end.

(** The guarded block at the head of [E] returned, or raised an exception
    that its handler catches. *)
Ltac try_returned E Eb :=
  lazymatch type of E with
  | bind (try_except ?b ?c ?h) ?k ?s0 = _ =>
      replace_lhs E (run_try_returns b c h k s0 _ _ Eb); cbv beta in E
  end.

Ltac try_caught E Eb Hc :=
  lazymatch type of E with
  | bind (try_except ?b ?c ?h) ?k ?s0 = _ =>
      replace_lhs E (run_try_caught b c h k s0 _ _ Eb Hc); cbv beta in E
  end.

Section Cleanup2.
Context `{Env}.

Lemma fs_remove_path p d : keeps always (adds_only is_fs_event) (remove_path p d).
Proof. unfold remove_path. keeps_auto. Qed.
Hint Resolve fs_remove_path : keeps.


End Cleanup2.

(** ** The main runner *)

(** The configuration that [main] builds holds every key that the plan
    reads. *)
Lemma full_cfg_plan_keys a dry php : has_keys (full_cfg a dry php) plan_keys.
Proof. unfold has_keys, plan_keys. repeat constructor; by eexists. Qed.

Section Main.
Context `{Env}.

Lemma safe_tame {A} (m : M A) : tame m -> safe m.
Proof. intros Hm s e He. by apply (Hm s). Qed.

Lemma safe_enters {A} r (m : M A) : enters r m -> safe m.
Proof. intros Hm s e He. by apply (Hm s). Qed.

Lemma safe_bind {A B} (m : M A) (k : A -> M B) :
  safe m -> (forall a, safe (k a)) -> safe (bind m k).
Proof.
  intros Hm Hk s e. unfold bind. specialize (Hm s).
  destruct (m s) as [s1 [a | x]]; [apply Hk | intros [= <-]; by apply Hm].
Qed.

Lemma safe_run_steps cfg : safe (run_steps cfg).
Proof.
  unfold run_steps.
  apply safe_bind; [eapply safe_enters, enters_step_update_system | intros _].
  apply safe_bind; [eapply safe_enters, enters_step_install_nginx | intros _].
  apply safe_bind; [eapply safe_enters, enters_step_install_mysql | intros _].
  apply safe_bind; [eapply safe_enters, enters_step_install_php | intros _].
  apply safe_bind; [eapply safe_enters, enters_step_create_database | intros _].
  apply safe_bind; [eapply safe_enters, enters_step_download_and_install_wp | intros _].
  apply safe_bind; [eapply safe_enters, enters_step_configure_nginx | intros _].
  apply safe_bind; [eapply safe_enters, enters_step_install_ssl | intros _].
  apply safe_tame. tame_auto.
Qed.

(** The [except] clause always ends in [sys.exit(1)]. *)
Lemma on_failure_exits cfg exc s : snd (on_failure cfg exc s) = inr (SystemExit 1).
Proof.
  destruct (on_failure cfg exc s) as [s' r] eqn:E.
  unfold on_failure in E. step E.
  lazymatch type of E with
  | bind (try_except _ _ (fun e => error (@?msg e))) _ ?s0 = _ =>
      destruct (cleanup_guarded cfg msg s0) as (s4 & t & Hc & _)
  end.
  call E Hc. by injection E as <- <-.
Qed.

(** No exception of a step, of the cleanup or of the final phase leaves
    the [try] statement of [main]: it ends normally or in [sys.exit(1)]. *)
Lemma install_result cfg s :
  snd (install cfg s) = inl tt \/ snd (install cfg s) = inr (SystemExit 1).
Proof.
  unfold install, finally, try_except.
  pose proof (safe_run_steps cfg s) as Hsafe.
  destruct (run_steps cfg s) as [s1 [[] | e]].
  - pose proof (remove_tmp_dirs_returns cfg s1) as Hf.
    destruct (remove_tmp_dirs cfg s1) as [s2 r2]. cbn [snd] in *. subst r2. by left.
  - rewrite (Hsafe e eq_refl).
    pose proof (on_failure_exits cfg e s1) as Hx.
    destruct (on_failure cfg e s1) as [s2 r2]. cbn [snd] in Hx. subst r2.
    pose proof (remove_tmp_dirs_returns cfg s2) as Hf.
    destruct (remove_tmp_dirs cfg s2) as [s3 r3]. cbn [snd] in *. subst r3. by right.
Qed.

Lemma show_plan_returns cfg s :
  has_keys cfg plan_keys ->
  exists t, show_plan cfg s = (mkSys (world s) (st s) (trace s ++ t), inl tt) /\
            mutations t = [] /\ Forall no_enter t.
Proof.
  unfold has_keys, plan_keys. intros Hk.
  repeat match goal with
         | Hk : Forall _ (_ :: _) |- _ =>
             let v := fresh "v" in let Hv := fresh "Hv" in
             apply Forall_cons in Hk; destruct Hk as [[v Hv] Hk]
         end.
  destruct (show_plan cfg s) as [s' r] eqn:E.
  unfold show_plan in E. step E. injection E as <- <-. added_events.
Qed.

(** [detect_php_version], as [main] uses it. *)
Lemma detect_php_version_runs d s :
  exists w' ver t n,
    detect_php_version d s = (mkSys w' (st s) (trace s ++ t), inl ver) /\
    1 <= n <= 3 /\ mutations t = map Spawn (take n php_probes) /\ Forall no_enter t.
Proof.
  destruct (detect_php_version_outcome d s) as (t & Hr & Hm & Hn & _).
  cbv zeta in Hr, Hm. revert Hm. rewrite Hr.
  repeat case_match; intros Hm; eexists _, _, t;
    first [ exists 1; split; [reflexivity |]; split; [lia |]; by split
          | exists 2; split; [reflexivity |]; split; [lia |]; by split
          | exists 3; split; [reflexivity |]; split; [lia |]; by split ].
Qed.

(** The run of [main] up to the confirmation: the probes of the PHP
    version, the configuration stored in [state], the plan. *)
Lemma main_runs (a : Args) (s : Sys) :
  let dry := default true (a_dry_run a) in
  exists s1 php t n,
    let cfg := full_cfg a dry php in
    trace s1 = trace s ++ t /\ Forall no_enter t /\
    1 <= n <= 3 /\ mutations t = map Spawn (take n php_probes) /\
    st s1 = set_overwrite (VBool (a_overwrite a)) (set_last_cfg (Some cfg) (st s)) /\
    main a s =
      if dry then
        install cfg
          (emit (Out INFO "Starting installation in DRY-RUN mode")
             (set_st (set_executing false)
                (emit (Out WARNING "Dry-run mode: not enforcing root privileges")
                   (emit (Out DEBUG "Checking root privileges") s1))))
      else
        let s2 := emit (Out STDOUT "Continue with installation? (y/N) ") s1 in
        if negb (String.eqb (str_lower (str_strip (stdin_line (world s1)))) "y") then
          (emit (Out WARNING "Installation cancelled by user.") s2, inr (SystemExit 0))
        else if negb (geteuid (world s1) =? 0)%Z then
          (emit (Out ERROR "This script must be run as root (use sudo). Exiting.")
             (emit (Out DEBUG "Checking root privileges") s2),
           inr (SystemExit 1))
        else
          install cfg
            (emit (Out INFO "Starting installation in EXECUTE mode")
               (set_st (set_executing true)
                  (emit (Out INFO "Root privileges confirmed")
                     (emit (Out DEBUG "Checking root privileges") s2)))).
Proof.
  intros dry.
  destruct (main a s) as [s' r] eqn:E. unfold main in E. fold dry in E.
  step E.
  assert (Hv : exists tv, forall (B : Type) (k : unit -> M B) s0,
             bind (when (a_verbose a) (debug "Verbose logging enabled")) k s0 =
             k tt (mkSys (world s0) (st s0) (trace s0 ++ tv)) /\
             mutations tv = [] /\ Forall no_enter tv).
  { destruct (a_verbose a).
    - eexists [_]. intros B k s0. split; [reflexivity |]. split; [reflexivity | no_enters].
    - exists []. intros B k s0. rewrite app_nil_r, sys_eta. by repeat split. }
  destruct Hv as [tv Hv].
  lazymatch type of E with
  | bind _ ?k ?s0 = _ => destruct (Hv _ k s0) as (Hv1 & Hmv & Hnv); replace_lhs E Hv1
  end.
  cbv beta in E. step E.
  lazymatch type of E with
  | bind (detect_php_version ?d) ?k ?s0 = _ =>
      destruct (detect_php_version_runs d s0) as (w' & php & tp & n & Hd & Hn & Hmp & Hnp)
  end.
  call E Hd. clear Hd. cbv zeta in E. step E.
  lazymatch type of E with
  | bind (show_plan ?cfg) ?k ?s0 = _ =>
      destruct (show_plan_returns cfg s0 (full_cfg_plan_keys a dry php))
        as (tplan & Hplan & Hmplan & Hnplan)
  end.
  call E Hplan. clear Hplan.
  cbn [world st trace emit set_st] in E.
  match type of E with
  | context [mkSys w' ?st1 ?tr1] => set (s1 := mkSys w' st1 tr1) in *
  end.
  exists s1, php, (Out DEBUG "Application starting" :: tv ++
                   [Out DEBUG "Parsed arguments"; Out DEBUG "Detecting PHP version"] ++
                   tp ++ [Out DEBUG "Configuration prepared"] ++ tplan), n.
  cbv zeta.
  split; [subst s1; cbn [trace]; by rewrite <- ?app_assoc |].
  split; [no_enters |].
  split; [exact Hn |].
  split.
  { change (Out DEBUG "Application starting" :: tv ++ ?x)
      with ([Out DEBUG "Application starting"] ++ tv ++ x).
    rewrite !mutations_app, Hmv, Hmp, Hmplan. cbn. by rewrite app_nil_r. }
  split; [reflexivity |].
  destruct dry; cbn [negb] in E |- *.
  - step E. unfold ensure_root at 1 in E. step E. exact (eq_sym E).
  - step E. fold s1 in E.
    destruct (String.eqb (str_lower (str_strip (stdin_line (world s1)))) "y");
      cbn [negb] in E |- *; step E; [| exact (eq_sym E)].
    unfold ensure_root at 1 in E. step E. fold s1 in E.
    destruct (geteuid (world s1) =? 0)%Z; cbn [negb] in E |- *; step E; exact (eq_sym E).
Qed.



(** X22. In a real run that is confirmed but does not run as root,
    [main] ends in [sys.exit(1)] before anything is installed: no step
    and no cleanup is entered, the only mutations attempted are the
    probes of the PHP version, and the run never starts executing.  A dry
    run does not look at the user id. *)
Theorem main_requires_root (a : Args) (s : Sys) :
  a_dry_run a = Some false ->
  (forall w, str_lower (str_strip (stdin_line w)) = "y") ->
  (forall w, geteuid w <> 0%Z) ->
  let r := main a s in
  snd r = inr (SystemExit 1) /\ exit_code (snd r) = 1%Z /\
  entered (trace (fst r)) = entered (trace s) /\
  (exists n, n <= 3 /\
     mutations (trace (fst r)) = mutations (trace s) ++ map Spawn (take n php_probes)) /\
  executing (st (fst r)) = executing (st s).
Proof.
  intros Hdry Hyes Hroot r. subst r.
  destruct (main_runs a s) as (s1 & php & t & n & Ht & Hne & Hn & Hm & Hst & ->).
  rewrite Hdry. cbn [default from_option id]. cbv zeta.
  rewrite (Hyes (world s1)). cbn [String.eqb Ascii.eqb Bool.eqb andb negb].
  specialize (Hroot (world s1)). apply Z.eqb_neq in Hroot. rewrite Hroot. cbn [negb fst snd].
  split; [done |]. split; [done |]. cbn [trace emit st].
  split; [| split].
  - rewrite Ht, !entered_app, (entered_no_enter t Hne). cbn. by rewrite !app_nil_r.
  - exists n. split; [lia |]. rewrite Ht, !mutations_app, Hm. cbn. by rewrite !app_nil_r.
  - by rewrite Hst.
Qed.

End Main.

(** ** Paths as strings *)

Lemma string_app_cons (x : ascii) (a b : string) : String x a +:+ b = String x (a +:+ b).
Proof. reflexivity. Qed.

Lemma string_app_nil_r (a : string) : a +:+ "" = a.
Proof. induction a as [| c a IH]; [done |]. by rewrite string_app_cons, IH. Qed.

Lemma string_app_assoc (a b c : string) : (a +:+ b) +:+ c = a +:+ (b +:+ c).
Proof.
  induction a as [| x a IH]; [done |]. by rewrite !string_app_cons, IH.
Qed.

Lemma split_path_component (c rest cur : string) :
  no_slash c = true -> split_path (c +:+ rest) cur = split_path rest (cur +:+ c).
Proof.
  revert cur. induction c as [| x c IH]; intros cur; cbn [no_slash].
  - intros _. by rewrite string_app_nil_r.
  - rewrite andb_true_iff, negb_true_iff. intros [Hx Hc].
    rewrite string_app_cons. cbn [split_path].
    rewrite Hx, (IH _ Hc), string_app_assoc. reflexivity.
Qed.

Lemma split_path_join (p : path) (cur : string) :
  wf_path p = true -> cur <> "" ->
  split_path (fold_right String.append "" (map (fun c => "/" +:+ c) p)) cur = cur :: p.
Proof.
  revert cur. induction p as [| c p IH]; intros cur Hp Hcur; cbn [map fold_right].
  - cbn [split_path]. by rewrite (proj2 (String.eqb_neq cur "") Hcur).
  - cbn [wf_path forallb] in Hp. apply andb_true_iff in Hp as [Hc Hp].
    unfold wf_component in Hc. apply andb_true_iff in Hc as [Hne Hns].
    change ("/" +:+ c) with (String "/"%char c). rewrite string_app_cons.
    cbn [split_path Ascii.eqb Bool.eqb andb]. rewrite (proj2 (String.eqb_neq cur "") Hcur).
    f_equal. rewrite (split_path_component c _ "" Hns).
    change ("" +:+ c) with c.
    apply IH; [exact Hp |]. unfold nonempty in Hne.
    apply negb_true_iff, String.eqb_neq in Hne. exact Hne.
Qed.

Lemma concat_empty_sep (l : list string) :
  String.concat "" l = fold_right String.append "" l.
Proof.
  induction l as [| a l IH]; [done |]. cbn [String.concat fold_right].
  destruct l as [| b l]; [by rewrite string_app_nil_r |].
  by rewrite IH.
Qed.

(** [Path(str(p))] is [p]. *)
Lemma Path_path_str (p : path) : wf_path p = true -> Path (path_str p) = p.
Proof.
  intros Hp. destruct p as [| c p]; [done |].
  unfold path_str, Path. rewrite concat_empty_sep. cbn [map fold_right].
  cbn [wf_path forallb] in Hp. apply andb_true_iff in Hp as [Hc Hp].
  unfold wf_component in Hc. apply andb_true_iff in Hc as [Hne Hns].
  change ("/" +:+ c) with (String "/"%char c). rewrite string_app_cons.
  cbn [split_path Ascii.eqb Bool.eqb andb String.eqb].
  rewrite (split_path_component c _ "" Hns).
  change ("" +:+ c) with c.
  apply split_path_join; [exact Hp |]. unfold nonempty in Hne.
  apply negb_true_iff, String.eqb_neq in Hne. exact Hne.
Qed.

Section Download.
Context `{Env}.

(** X23. The directory that [download_and_extract_wp] creates is the one
    that the final phase removes: the call records the directory as a
    string, the final phase reads the string back as the same path, and
    in a real run without I/O errors the directory is gone after the
    final phase, however the download ended. *)
Theorem downloaded_directory_is_removed (url : string) (dest : path) (dry : bool)
    (cfg : Dict) (dr : Val) (s : Sys) :
  let d := mkdtemp_name "wpdl_" (world s) in
  wf_path d = true ->
  cfg !! "dry_run" = Some dr -> truthy dr = false ->
  (forall op w, io_fault op w = false) ->
  let s1 := fst (download_and_extract_wp url dest dry s) in
  let s2 := fst (remove_tmp_dirs cfg s1) in
  In (path_str d) (tmp_dirs (st s1)) /\ Path (path_str d) = d /\
  fs (world s2) d = None.
Proof.
  intros d Hwf Hdr Htr Hok s1 s2.
  destruct (download_and_extract_wp_outcome url dest dry s) as [_ Hrec].
  destruct (Hrec (Hok _ _)) as (Hst & _). fold d s1 in Hst.
  assert (Hin : In (path_str d) (tmp_dirs (st s1))).
  { rewrite Hst. cbn [tmp_dirs set_tmp_dirs]. apply in_app_iff. right. by left. }
  split; [exact Hin |]. split; [by apply Path_path_str |].
  subst s2. destruct (remove_tmp_dirs cfg s1) as [s2 r2] eqn:E.
  unfold remove_tmp_dirs in E. step E.
  destruct (for_each_remove_perform cfg dr (tmp_dirs (st s1))
              (emit (Out DEBUG "Cleaning up temporary directories") s1) Hdr Htr)
    as (t & _ & _ & _ & _ & Hgone).
  rewrite E in Hgone. cbn [fst] in Hgone |- *.
  rewrite <- (Path_path_str d Hwf). by apply Hgone.
Qed.

End Download.

(** ** The PHP step *)

Section PhpStep.
Context `{Env}.

(** [atomic_write] in a real run on a file system without I/O errors. *)
Lemma atomic_write_performed (p : path) (data : string) (mode : N) (dry : bool) (s : Sys) :
  dry && negb (executing (st s)) = false ->
  (forall op w, io_fault op w = false) ->
  exists t,
    atomic_write p data mode dry s =
      (mkSys (mkWorld (replay (write_plan p data mode (world s)) 5 (fs (world s)))
                      (ext (world s)))
             (st s) (trace s ++ t), inl tt) /\
    mutations t = map Fs (write_plan p data mode (world s)) /\ Forall no_enter t.
Proof.
  intros Hmode Hok. destruct (atomic_write p data mode dry s) as [s' r] eqn:E.
  unfold atomic_write in E. step E. rewrite Hmode in E. step E.
  rewrite tmp_name_parent in E. step E. injection E as <- <-.
  unfold write_plan, replay. cbn [firstn foldl]. added_events.
Qed.

(** X24. In a real run, once the packages are installed, the PHP step
    edits [php.ini] of the detected version through [atomic_write] and
    then restarts the service.  When [php.ini] is absent the step only
    warns: no file-system primitive is attempted and the service is
    restarted all the same.  When it is a file, on a file system without
    I/O errors, its content is replaced by the content with the four
    settings substituted, with mode 0644, by the primitives of one atomic
    write, and the restart comes after the rename. *)
Theorem step_install_php_edits_ini (cfg : Dict) (dr v : Val) (s : Sys) :
  cfg !! "dry_run" = Some dr -> truthy dr = false ->
  cfg !! "php_version" = Some v ->
  let ini := Path ("/etc/php/" +:+ str_of v +:+ "/fpm/php.ini") in
  let install :=
    Shell ("apt install -y " +:+
           "php-fpm php-mysql php-curl php-gd php-mbstring php-xml php-xmlrpc php-soap php-intl php-zip") in
  let restart := Shell ("systemctl restart php" +:+ str_of v +:+ "-fpm") in
  let w1 := fst (os_spawn install (world s)) in
  let r := step_install_php cfg s in
  (exists o e, snd (os_spawn install (world s)) = Exited 0 o e) ->
  (fs w1 ini = None ->
     mutations (trace (fst r)) = mutations (trace s) ++ [Spawn install; Spawn restart]) /\
  (forall old m,
     fs w1 ini = Some (File old m) -> (forall op w, io_fault op w = false) ->
     let new :=
       re_sub "max_execution_time\s*=\s*.*" "max_execution_time = 300"
         (re_sub "memory_limit\s*=\s*.*" "memory_limit = 256M"
            (re_sub "post_max_size\s*=\s*.*" "post_max_size = 64M"
               (re_sub "upload_max_filesize\s*=\s*.*" "upload_max_filesize = 64M" old))) in
     mutations (trace (fst r)) =
       mutations (trace s) ++
       Spawn install :: map Fs (write_plan ini new 420 w1) ++ [Spawn restart]).
Proof.
  intros Hdr Htr Hv ini install restart w1 r (o0 & e0 & Hinst). subst r.
  destruct (step_install_php cfg s) as [s' r] eqn:E.
  unfold step_install_php in E. step E. rewrite Htr in E.
  run_cmd_here E t0 Hm0 Hn0 cp0 x0 Hc0.
  2:{ cbn [world emit] in Hc0. fold install in Hc0. rewrite Hinst in Hc0. discriminate. }
  step E. rewrite Htr in E. cbv iota in E. step E.
  fold install w1 ini in E.
  split.
  - intros Hfs. rewrite Hfs in E. cbn [negb] in E. step E. rewrite Htr in E.
    run_cmd_here E t1 Hm1 Hn1 cp1 x1 Hc1; [step E |]; injection E as <- <-; by muts.
  - intros old m Hfs Hok new. rewrite Hfs in E. cbn [negb] in E. step E.
    unfold read_text at 1 in E. unfold bind at 1 in E.
    cbn [world fs emit] in E. fold ini in E. rewrite Hfs in E. step E. rewrite Htr in E.
    fold new in E.
    lazymatch type of E with
    | bind (atomic_write ?p ?d ?mo ?dry) ?k ?s0 = _ =>
        destruct (atomic_write_performed p d mo dry s0 eq_refl Hok) as (ta & Ha & Hma & Hna)
    end.
    call E Ha. clear Ha. cbn [world emit] in Hma. step E. rewrite Htr in E.
    run_cmd_here E t1 Hm1 Hn1 cp1 x1 Hc1; [step E |]; injection E as <- <-; by muts.
Qed.

End PhpStep.

(** ** The nginx step and the deployment step *)

Lemma same_web_root_refl t : same_web_root t t.
Proof. done. Qed.

Lemma same_web_root_trans t1 t2 t3 :
  same_web_root t1 t2 -> same_web_root t2 t3 -> same_web_root t1 t3.
Proof. unfold same_web_root. congruence. Qed.

#[export] Hint Resolve same_web_root_refl same_web_root_trans : keeps.
#[export] Hint Extern 1 (keeps always (st_rel same_web_root) (modify_state _)) =>
  apply keeps_modify_state_st; intros ?; reflexivity : keeps.

(** The statements that remain in [E] keep the relation [Q] on [state]. *)
Ltac rest_keeps E Q Hq :=
  cbv beta in E;
  lazymatch type of E with
  | ?m ?s0 = _ =>
      let Hm := fresh "Hm" in
      assert (Hm : keeps always (st_rel Q) m) by keeps_auto;
      destruct (Hm s0 I) as [Hq _];
      rewrite E in Hq; unfold st_rel in Hq; cbn [fst] in Hq; clear Hm
  end.

Section LateSteps.
Context `{Env}.

Lemma web_root_download_and_extract_wp url dest d :
  keeps always (st_rel same_web_root) (download_and_extract_wp url dest d).
Proof. unfold download_and_extract_wp, mkdtemp. keeps_auto. Qed.
Hint Resolve web_root_download_and_extract_wp forward_download_and_extract_wp : keeps.


(** X26. The deployment step records the web root in [state["web_root"]]
    when it starts, before it looks at the host.  In a real run on a host
    without the web root, its first mutation is the creation of the web
    root; the path is appended to [state["created_paths"]] only after the
    creation succeeded, and stays recorded however the step ends; when
    the creation fails the step raises and [created_paths] is as before. *)
Theorem step_download_records_web_root (cfg : Dict) (wr : string) (dr : Val) (s : Sys) :
  cfg !! "web_root" = Some (VStr wr) ->
  cfg !! "dry_run" = Some dr -> truthy dr = false ->
  let webroot := Path wr in
  fs (world s) webroot = None ->
  let r := step_download_and_install_wp cfg s in
  web_root (st (fst r)) = VStr (path_str webroot) /\
  (exists rest, mutations (trace (fst r)) =
                mutations (trace s) ++ Fs (MkdirP webroot) :: rest) /\
  (io_fault (MkdirP webroot) (world s) = true ->
     snd r = inr (OSError "I/O error") /\
     created_paths (st (fst r)) = created_paths (st s)) /\
  (io_fault (MkdirP webroot) (world s) = false ->
     exists l, created_paths (st (fst r)) =
               created_paths (st s) ++ path_str webroot :: l).
Proof.
  intros Hwr Hdr Htr webroot Hfs r. subst r.
  destruct (step_download_and_install_wp cfg s) as [s' r] eqn:E.
  unfold step_download_and_install_wp in E. step E. fold webroot in E.
  match type of E with
  | bind _ _ ?s1 = _ => destruct (fetch_latest_quiet s1) as (tf & vu & Hf & Hmf & _)
  end.
  call E Hf. step E. rewrite Hfs in E. step E. rewrite Htr in E. step E.
  destruct (io_fault (MkdirP webroot) (world s)) eqn:Hio; step E.
  - injection E as <- <-. cbn [fst snd st emit set_st set_fs set_world set_web_root web_root
                                created_paths].
    split; [done |]. split; [exists []; by muts |].
    split; [done | done].
  - pose proof E as E1. pose proof E as E2.
    rest_is_tame E t Ht. rest_keeps E1 same_web_root Hw. rest_keeps E2 forward Hfw.
    cbn [fst snd]. split; [exact Hw |].
    split; [exists (mutations t); rewrite Ht; by muts |].
    split; [done |]. intros _.
    destruct Hfw as (_ & _ & _ & _ & (l & Hl)). exists l.
    rewrite Hl. cbn [st emit set_st set_fs set_world set_created_paths created_paths
                     set_web_root].
    by rewrite <- app_assoc.
Qed.

End LateSteps.

(** * The further properties on concrete runs *)

(** X1, witness: the MySQL step of a dry run. *)
Lemma dry_run_steps_change_nothing_witness :
  example_cfg true false !! "dry_run" = Some (VBool true) /\
  world (fst (@step_install_mysql env_ok (example_cfg true false)
                (start env_ok fresh_host false))) = fresh_host.
Proof.
  split; [reflexivity |].
  apply (@dry_run_steps_change_nothing env_ok (example_cfg true false) (VBool true)
           (@step_install_mysql env_ok) (start env_ok fresh_host false)
           eq_refl eq_refl ltac:(cbn; tauto) eq_refl).
Defined.

(** X2, witness: the cleanup of a dry run on a host where the site is
    deployed. *)
Lemma cleanup_full_dry_run_changes_nothing_witness :
  let s := @mkSys env_ok deployed_host (set_executing false deployed_state) [] in
  executing (st s) = false /\
  world (fst (@cleanup_full env_ok (example_cfg true false) s)) = deployed_host /\
  mutations (trace (fst (@cleanup_full env_ok (example_cfg true false) s))) = [].
Proof.
  intros s. split; [reflexivity |].
  apply (@cleanup_full_dry_run_changes_nothing env_ok (example_cfg true false)
           (VBool true) s eq_refl eq_refl eq_refl).
Defined.

(** X3, witness: the dry run of the C2 scenario. *)
Lemma dry_run_attempts_only_probes_mkdtemp_and_backup_witness :
  a_dry_run (example_args true true) <> Some false /\
  exists t,
    trace (fst (@main env_ok (example_args true true) (boot env_ok used_host))) = [] ++ t /\
    Forall dry_run_mutation (mutations t).
Proof.
  split; [discriminate |].
  apply (@dry_run_attempts_only_probes_mkdtemp_and_backup env_ok (example_args true true)
           (boot env_ok used_host) ltac:(discriminate)).
Defined.


(** X8, witness: the package cache offers 7.4, 8.1 and 10.0. *)
Lemma detect_php_version_picks_greatest_witness :
  @re_findall env_apt "php(\d+\.\d+)-fpm" "php7.4-fpm php8.1-fpm php10.0-fpm"
    = ["7.4"; "8.1"; "10.0"] /\
  exists ver,
    snd (@detect_php_version env_apt true (boot env_apt fresh_host)) = inl ver /\
    In ver ["7.4"; "8.1"; "10.0"] /\
    forall x, In x ["7.4"; "8.1"; "10.0"] -> String.leb x ver = true.
Proof.
  split; [reflexivity |].
  apply (@detect_php_version_picks_greatest env_apt true (boot env_apt fresh_host)
           "php7.4-fpm php8.1-fpm php10.0-fpm" eq_refl ltac:(reflexivity) eq_refl
           ltac:(discriminate)).
Defined.

(** X9, witness: the API does not answer; the API offers WordPress 6.5. *)
Lemma fetch_latest_result_witness :
  snd (@fetch_latest_wordpress_download_url env_ok (boot env_ok fresh_host)) =
    inl ("latest", "https://wordpress.org/latest.tar.gz") /\
  snd (@fetch_latest_wordpress_download_url env_api (boot env_api fresh_host)) =
    inl ("6.5", "https://wordpress.org/wordpress-6.5.zip").
Proof.
  split.
  - destruct (@fetch_latest_result env_ok (boot env_ok fresh_host))
      as (_ & _ & _ & _ & Hfall).
    apply Hfall. by left.
  - destruct (@fetch_latest_result env_api (boot env_api fresh_host))
      as (_ & _ & _ & Hoffer & _).
    apply (Hoffer _ _ _ eq_refl eq_refl). discriminate.
Defined.

(** X10, witness: the MySQL client exits with status 1. *)
Lemma mysql_exec_contract_witness :
  false && negb (executing (st (start env_mysql_down fresh_host true))) = false /\
  snd (@mysql_exec env_mysql_down "FLUSH PRIVILEGES;" false
         (start env_mysql_down fresh_host true)) =
    inr (CalledProcessError 1 "" "ERROR 2002").
Proof.
  split; [reflexivity |].
  destruct (@mysql_exec_contract env_mysql_down "FLUSH PRIVILEGES;" false
              (start env_mysql_down fresh_host true)) as (_ & _ & Hperf).
  destruct (Hperf eq_refl) as (_ & _ & _ & Hfail & _).
  apply (Hfail 1%Z "" "ERROR 2002" eq_refl). discriminate.
Defined.



(** X13, witness: the download fails in a real run. *)
Lemma download_records_its_directory_witness :
  let s := start env_download_fails fresh_host true in
  let r := @download_and_extract_wp env_download_fails
             "https://wordpress.org/latest.tar.gz" site_root false s in
  @io_fault env_download_fails (Mkdtemp dl_tmp) (world s) = false /\
  st (fst r) = set_tmp_dirs ["/tmp/wpdl_k3x9"] (st s) /\
  snd r = inr download_error.
Proof.
  intros s r. split; [reflexivity |].
  destruct (@download_records_its_directory env_download_fails
              "https://wordpress.org/latest.tar.gz" site_root false s) as [_ Hrec].
  destruct (Hrec eq_refl) as (Hst & _ & _ & Hfail).
  destruct (Hfail eq_refl eq_refl) as (Hr & _).
  split; [exact Hst | exact Hr].
Defined.





(** X18, witness: the MySQL client fails and the download directory
    cannot be removed; the cleanup completes. *)
Lemma cleanup_full_survives_guarded_failures_witness :
  let s := @mkSys env_guarded_fail deployed_host deployed_state [] in
  @io_fault env_guarded_fail (Rmtree dl_tmp) (world s) = true /\
  snd (@cleanup_full env_guarded_fail (example_cfg false false) s) = inl tt.
Proof.
  intros s. split; [reflexivity |].
  destruct (@cleanup_full_survives_guarded_failures env_guarded_fail
              (example_cfg false false)
              "/var/www/example.com" "/etc/nginx/sites-available/example.com"
              (VBool false) (VBool false) (VStr "wordpress") (VStr "wpuser") s
              eq_refl eq_refl eq_refl eq_refl eq_refl eq_refl) as [Hr _].
  { intros p w [<- | [<- | [<- | []]]]; split; reflexivity. }
  exact Hr.
Defined.



(** X22, witness: the user is not root. *)
Lemma main_requires_root_witness :
  a_dry_run (example_args false false) = Some false /\
  exit_code (snd (@main env_not_root (example_args false false)
                    (boot env_not_root fresh_host))) = 1%Z /\
  entered (trace (fst (@main env_not_root (example_args false false)
                         (boot env_not_root fresh_host)))) = [].
Proof.
  split; [reflexivity |].
  destruct (@main_requires_root env_not_root (example_args false false)
              (boot env_not_root fresh_host) eq_refl ltac:(intros w; reflexivity)
              ltac:(intros w; discriminate))
    as (_ & Hx & He & _).
  split; [exact Hx | exact He].
Defined.

(** X23, witness: the download fails; the directory is removed. *)
Lemma downloaded_directory_is_removed_witness :
  let s := start env_download_fails fresh_host true in
  let s1 := fst (@download_and_extract_wp env_download_fails
                   "https://wordpress.org/latest.tar.gz" site_root false s) in
  wf_path dl_tmp = true /\
  fs (world s1) dl_tmp = Some Dir /\
  fs (world (fst (@remove_tmp_dirs env_download_fails (example_cfg false false) s1))) dl_tmp
    = None.
Proof.
  intros s s1. split; [reflexivity |]. split; [reflexivity |].
  destruct (@downloaded_directory_is_removed env_download_fails
              "https://wordpress.org/latest.tar.gz" site_root false
              (example_cfg false false) (VBool false) s
              eq_refl eq_refl eq_refl ltac:(reflexivity)) as (_ & _ & Hgone).
  exact Hgone.
Defined.

(** X24, witness: the PHP step on a host with PHP 8.1 configured. *)
Lemma step_install_php_edits_ini_witness :
  let s := start env_ok fresh_host true in
  let ini := ["etc"; "php"; "8.1"; "fpm"; "php.ini"] in
  fs (world s) ini = Some (File "memory_limit = 128M" 420) /\
  mutations (trace (fst (@step_install_php env_ok (example_cfg false false) s))) =
    [Spawn (Shell "apt install -y php-fpm php-mysql php-curl php-gd php-mbstring php-xml php-xmlrpc php-soap php-intl php-zip")] ++
    map Fs (@write_plan env_ok ini "memory_limit = 128M" 420 fresh_host) ++
    [Spawn (Shell "systemctl restart php8.1-fpm")].
Proof.
  intros s ini. split; [reflexivity |].
  destruct (@step_install_php_edits_ini env_ok (example_cfg false false) (VBool false)
              (VStr "8.1") s eq_refl eq_refl eq_refl ltac:(by exists "", ""))
    as [_ Hfile].
  exact (Hfile "memory_limit = 128M" 420%N eq_refl ltac:(reflexivity)).
Defined.


(** X26, witness: the deployment step on a fresh host, where the
    download fails after the web root was created. *)
Lemma step_download_records_web_root_witness :
  let s := start env_download_fails fresh_host true in
  let r := @step_download_and_install_wp env_download_fails (example_cfg false false) s in
  fs (world s) site_root = None /\
  web_root (st (fst r)) = VStr "/var/www/example.com" /\
  exists l, created_paths (st (fst r)) = [] ++ "/var/www/example.com" :: l.
Proof.
  intros s r. split; [reflexivity |].
  destruct (@step_download_records_web_root env_download_fails (example_cfg false false)
              "/var/www/example.com" (VBool false) s eq_refl eq_refl eq_refl eq_refl)
    as (Hw & _ & _ & Hrec).
  split; [exact Hw | exact (Hrec eq_refl)].
Defined.
